(** * CineSearch: the search broker of the backend server

    A shallow embedding of the Express handler [GET /api/search], of the
    other routes, of the caching upstream client [tmdbFetch], of the
    limiter configuration and of the search of the front end, followed
    by the properties that were checked against it.

    Conventions of the embedding.
    - A JavaScript string is a [string]: a sequence of code units, here the
      code units 0..255.  [String.length] is the JavaScript [.length].
    - A query-string parameter is an [option string]: [None] is
      [undefined]; every parameter is assumed to occur at most once, so
      that Express hands it over as a string.
    - A JavaScript number is a binary64 value, [spec_float] with precision
      53 and maximal exponent 1024.
    - The handler runs in a small monad over the [world] (cache, clock,
      network log) whose results are: a value, an early [return] of a
      response, or a thrown exception.
    - A handler is run from its start to its answer, and the clock stands
      still meanwhile; time passes between requests ([elapse]).  What
      concurrent requests do to the cache is the subject of the section
      on their fetches, where [tmdbFetch] is split at its [await]. *)

From Stdlib Require Import ZArith String Ascii List Bool Lia.
From Stdlib Require Import DecimalString DecimalPos DecimalZ.
From Stdlib Require Import Floats.SpecFloat.
From stdpp Require Import gmap strings.

Open Scope string_scope.
Open Scope Z_scope.

(** ** JavaScript built-ins used by the server *)

Module JS.

(** [!!s] for a string: only the empty string is falsy. *)
Definition truthyStr (s : string) : bool :=
  match s with EmptyString => false | String _ _ => true end.

(** [!!x] for a parameter that may be [undefined]. *)
Definition truthy (x : option string) : bool :=
  match x with None => false | Some s => truthyStr s end.

(** [!!n] for a number that is an integer: only zero is falsy. *)
Definition truthyInt (x : option Z) : bool :=
  match x with None => false | Some z => negb (z =? 0) end.

Definition code (c : ascii) : Z := Z.of_N (N_of_ascii c).

(** WhiteSpace and LineTerminator code units below 256:
    TAB, LF, VT, FF, CR, SP and NBSP. *)
Definition isWhiteSpace (c : ascii) : bool :=
  let n := code c in
  ((9 <=? n) && (n <=? 13)) || (n =? 32) || (n =? 160).

Fixpoint trimStart (s : string) : string :=
  match s with
  | EmptyString => EmptyString
  | String c r => if isWhiteSpace c then trimStart r else s
  end.

Fixpoint trimEnd (s : string) : string :=
  match s with
  | EmptyString => EmptyString
  | String c r =>
      match trimEnd r with
      | EmptyString => if isWhiteSpace c then EmptyString else String c EmptyString
      | t => String c t
      end
  end.

(** [String.prototype.trim]. *)
Definition trim (s : string) : string := trimEnd (trimStart s).

Definition isDigit (c : ascii) : bool :=
  let n := code c in (48 <=? n) && (n <=? 57).

Fixpoint allDigits (s : string) : bool :=
  match s with
  | EmptyString => true
  | String c r => isDigit c && allDigits r
  end.

(** [/^\d+$/.test(s)]: one or more decimal digits and nothing else. *)
Definition test_digits (s : string) : bool := truthyStr s && allDigits s.

(** *** [Number(s)]: string to binary64 *)

Definition prec : Z := 53.
Definition emax : Z := 1024.

(** The binary64 value nearest to [n / d] (ties to even), for [0 <= n]
    and [0 < d].  The quotient is computed with more than 64 significant
    bits and the position of the remainder is handed to the rounding. *)
Definition roundRatio (neg : bool) (n d : Z) : spec_float :=
  if n =? 0 then S754_zero neg
  else
    let s := 64 + Zdigits2 d in
    let num := n * 2 ^ s in
    let q := num / d in
    let r := num mod d in
    let loc := if r =? 0 then loc_Exact else loc_Inexact (2 * r ?= d) in
    binary_round_aux prec emax neg q (- s) loc.

(** The binary64 value nearest to [mant * 10^k], for [0 <= mant]. *)
Definition scale10 (neg : bool) (mant k : Z) : spec_float :=
  if 0 <=? k then roundRatio neg (mant * 10 ^ k) 1
  else roundRatio neg mant (10 ^ (- k)).

Definition decVal (c : ascii) : option Z :=
  if isDigit c then Some (code c - 48) else None.

Definition hexVal (c : ascii) : option Z :=
  let n := code c in
  if isDigit c then Some (n - 48)
  else if (97 <=? n) && (n <=? 102) then Some (n - 87)
  else if (65 <=? n) && (n <=? 70) then Some (n - 55)
  else None.

Definition octVal (c : ascii) : option Z :=
  let n := code c in
  if (48 <=? n) && (n <=? 55) then Some (n - 48) else None.

Definition binVal (c : ascii) : option Z :=
  let n := code c in
  if (48 <=? n) && (n <=? 49) then Some (n - 48) else None.

(** Reads the longest run of digits of the given base: the accumulated
    value, the number of digits read and the rest of the input. *)
Fixpoint readDigits (dv : ascii -> option Z) (base : Z) (s : string)
         (acc : Z) (cnt : Z) : Z * Z * string :=
  match s with
  | EmptyString => (acc, cnt, s)
  | String c r =>
      match dv c with
      | Some d => readDigits dv base r (acc * base + d) (cnt + 1)
      | None => (acc, cnt, s)
      end
  end.

(** A whole literal of digits in the given base (at least one digit). *)
Definition wholeDigits (dv : ascii -> option Z) (base : Z) (s : string)
  : option Z :=
  match readDigits dv base s 0 0 with
  | (v, n, EmptyString) => if 0 <? n then Some v else None
  | _ => None
  end.

(** NonDecimalIntegerLiteral: [0x], [0o], [0b] in either case, unsigned. *)
Definition parseNonDecimal (s : string) : option spec_float :=
  match s with
  | String "0" (String p r) =>
      let radix :=
        if (p =? "x")%char || (p =? "X")%char then Some (hexVal, 16)
        else if (p =? "o")%char || (p =? "O")%char then Some (octVal, 8)
        else if (p =? "b")%char || (p =? "B")%char then Some (binVal, 2)
        else None in
      match radix with
      | Some (dv, base) =>
          match wholeDigits dv base r with
          | Some v => Some (roundRatio false v 1)
          | None => None
          end
      | None => None
      end
  | _ => None
  end.

(** ExponentPart, optional: the exponent and nothing after it. *)
Definition parseExponent (s : string) : option Z :=
  match s with
  | EmptyString => Some 0
  | String e r =>
      if (e =? "e")%char || (e =? "E")%char then
        match r with
        | String "+" r' => wholeDigits decVal 10 r'
        | String "-" r' => option_map Z.opp (wholeDigits decVal 10 r')
        | _ => wholeDigits decVal 10 r
        end
      else None
  end.

(** StrUnsignedDecimalLiteral. *)
Definition parseUnsignedDecimal (neg : bool) (s : string) : option spec_float :=
  if (s =? "Infinity")%string then Some (S754_infinity neg)
  else
    let '(v1, n1, r1) := readDigits decVal 10 s 0 0 in
    let '(mant, nfrac, r2) :=
      match r1 with
      | String "." r => let '(v2, n2, r') := readDigits decVal 10 r v1 0 in
                        (v2, n2, r')
      | _ => (v1, 0, r1)
      end in
    if 0 <? n1 + nfrac then
      match parseExponent r2 with
      | Some e => Some (scale10 neg mant (e - nfrac))
      | None => None
      end
    else None.

(** StrDecimalLiteral: an optional sign, then the unsigned literal. *)
Definition parseDecimal (s : string) : option spec_float :=
  match s with
  | String "+" r => parseUnsignedDecimal false r
  | String "-" r => parseUnsignedDecimal true r
  | _ => parseUnsignedDecimal false s
  end.

(** [Number(s)] for a string [s] (StringToNumber). *)
Definition Number (s : string) : spec_float :=
  match trim s with
  | EmptyString => S754_zero false
  | t =>
      match parseNonDecimal t with
      | Some x => x
      | None =>
          match parseDecimal t with
          | Some x => x
          | None => S754_nan
          end
      end
  end.

(** The integer a number is, when [Number.isInteger] holds of it, and
    [None] when it does not (NaN, the infinities, a fraction). *)
Definition integerValue (x : spec_float) : option Z :=
  match x with
  | S754_zero _ => Some 0
  | S754_finite s m e =>
      let v :=
        if 0 <=? e then Some (Z.pos m * 2 ^ e)
        else if Z.pos m mod 2 ^ (- e) =? 0 then Some (Z.pos m / 2 ^ (- e))
        else None in
      option_map (fun z => if s then - z else z) v
  | _ => None
  end.

(** [String(n)] and the JSON text of [n], for a safe integer [n] (below
    2^53 in absolute value): all its decimal digits. *)
Definition String_of_int (z : Z) : string :=
  NilZero.string_of_int (Z.to_int z).

(** *** Flat objects and [JSON.stringify] *)

(** The values the server stores in a parameter object. *)
Inductive jsval :=
| VStr (s : string)
| VNum (n : Z)
| VBool (b : bool).

(** A parameter object: its own properties in insertion order, which is
    the order [JSON.stringify] and the spread syntax enumerate them in
    (no property name of the server is an array index). *)
Definition object := list (string * jsval).

(** [obj.k = v] for a property [k] that [obj] does not have yet. *)
Definition assign (obj : object) (k : string) (v : jsval) : object :=
  (obj ++ [(k, v)])%list.

Definition dquote : ascii := ascii_of_N 34.
Definition backslash : ascii := ascii_of_N 92.

Definition hexDigit (n : Z) : ascii :=
  ascii_of_N (Z.to_N (if n <? 10 then 48 + n else 87 + n)).

(** QuoteJSONString on one code unit. *)
Definition escapeChar (c : ascii) : string :=
  let n := code c in
  if n =? 34 then String backslash (String dquote EmptyString)
  else if n =? 92 then String backslash (String backslash EmptyString)
  else if n =? 8 then String backslash "b"
  else if n =? 9 then String backslash "t"
  else if n =? 10 then String backslash "n"
  else if n =? 12 then String backslash "f"
  else if n =? 13 then String backslash "r"
  else if n <? 32 then
    String backslash
      (String "u" (String "0" (String "0"
         (String (hexDigit (n / 16)) (String (hexDigit (n mod 16)) EmptyString)))))
  else String c EmptyString.

Fixpoint escape (s : string) : string :=
  match s with
  | EmptyString => EmptyString
  | String c r => (escapeChar c ++ escape r)%string
  end.

Definition quote (s : string) : string :=
  String dquote (escape s ++ String dquote EmptyString)%string.

Definition stringifyVal (v : jsval) : string :=
  match v with
  | VStr s => quote s
  | VNum n => String_of_int n
  | VBool true => "true"
  | VBool false => "false"
  end.

Fixpoint stringifyMembers (o : object) : string :=
  match o with
  | [] => EmptyString
  | [(k, v)] => (quote k ++ ":" ++ stringifyVal v)%string
  | (k, v) :: r =>
      (quote k ++ ":" ++ stringifyVal v ++ "," ++ stringifyMembers r)%string
  end.

(** [JSON.stringify(o)] for a flat object. *)
Definition JSON_stringify (o : object) : string :=
  ("{" ++ stringifyMembers o ++ "}")%string.

End JS.

Import JS.

(** ** Data model *)

(** The query string of [GET /api/search], as destructured from
    [req.query]: each parameter is a string or [undefined]. *)
Record request := {
  q_query : option string;
  q_year : option string;
  q_genre : option string;
  q_cast : option string;
  q_director : option string;
  q_page : option string
}.

(** An element of an upstream [results] array (a person or a movie
    summary): its [id], and the rest of the document kept as it came. *)
Record item := { item_id : Z; item_rest : string }.

(** An upstream response document ([response.data]): a JSON object whose
    members may be missing.  Being an object it is truthy, so that
    [if (cached)] in [tmdbFetch] tests the presence of a cache entry. *)
Record tmdb_doc := {
  results : option (list item);
  total_results : option Z;
  total_pages : option Z
}.

(** What the handler sends: [res.status(s).json({ error })] or
    [res.json({ results, total_results, total_pages, page })]. *)
Inductive body :=
| ErrorBody (error : string)
| ResultBody (res : list item) (total_res total_pgs page : Z).

Record response := { status : Z; payload : body }.

Definition MissingCriteria : response :=
  {| status := 400;
     payload := ErrorBody
       "Provide at least one search parameter: query, year, genre, cast, or director." |}.
Definition InvalidYear : response :=
  {| status := 400; payload := ErrorBody "Invalid year." |}.
Definition InvalidPage : response :=
  {| status := 400;
     payload := ErrorBody "page must be an integer between 1 and 500." |}.
Definition InvalidGenre : response :=
  {| status := 400;
     payload := ErrorBody "genre must be a numeric TMDB genre ID." |}.
Definition CastTooLong : response :=
  {| status := 400; payload := ErrorBody "cast parameter too long." |}.
Definition DirectorTooLong : response :=
  {| status := 400; payload := ErrorBody "director parameter too long." |}.
Definition UpstreamFailure : response :=
  {| status := 502;
     payload := ErrorBody "Failed to fetch search results from TMDB." |}.

(** The validation errors of the search route. *)
Definition is_validation_error (r : response) : Prop :=
  r = MissingCriteria \/ r = InvalidYear \/ r = InvalidPage \/
  r = InvalidGenre \/ r = CastTooLong \/ r = DirectorTooLong.

(** The empty search result with the requested page echoed. *)
Definition emptyResult (pageNum : Z) : response :=
  {| status := 200; payload := ResultBody [] 0 0 pageNum |}.

(** ** The world the server runs in *)

(** An upstream call: the path (or URL) and the parameter object. *)
Definition call := (string * object)%type.

(** - [cache]: the entries of the [NodeCache] instance, each with the time
      (milliseconds) after which it is expired;
    - [now]: [Date.now()]; [fullYear]: [new Date().getFullYear()];
    - [netlog]: the [axios.get] calls issued so far, oldest first;
    - [fetches]: the calls of [tmdbFetch] so far, oldest first (a ghost
      log: it counts hits and misses alike). *)
Record world := {
  cache : gmap string (tmdb_doc * Z);
  now : Z;
  fullYear : Z;
  netlog : list call;
  fetches : list call
}.

Definition set_cache (c : gmap string (tmdb_doc * Z)) (w : world) : world :=
  {| cache := c; now := now w; fullYear := fullYear w;
     netlog := netlog w; fetches := fetches w |}.
Definition log_net (c : call) (w : world) : world :=
  {| cache := cache w; now := now w; fullYear := fullYear w;
     netlog := netlog w ++ [c]; fetches := fetches w |}.
Definition log_fetch (c : call) (w : world) : world :=
  {| cache := cache w; now := now w; fullYear := fullYear w;
     netlog := netlog w; fetches := fetches w ++ [c] |}.

(** Time passes by [dt] milliseconds between two requests. *)
Definition elapse (dt : Z) (w : world) : world :=
  {| cache := cache w; now := now w + dt; fullYear := fullYear w;
     netlog := netlog w; fetches := fetches w |}.

Definition TMDB_BASE_URL : string := "https://api.themoviedb.org/3".
Definition CACHE_TTL_SECONDS : Z := 600.
Definition CACHE_CHECK_PERIOD : Z := 120.

(** Modelled from the spec: the package node-cache is not part of the
    sources.  [get] returns the stored document unless the entry is
    expired, an expired entry that was not swept yet being a miss; [set]
    overwrites the entry of the key and lets it expire [stdTTL] seconds
    after the insertion. *)
Definition cache_get (key : string) (w : world) : option tmdb_doc :=
  match cache w !! key with
  | Some (d, expires) => if expires <? now w then None else Some d
  | None => None
  end.

Definition cache_set (key : string) (d : tmdb_doc) (w : world) : world :=
  set_cache (<[key := (d, now w + CACHE_TTL_SECONDS * 1000)]> (cache w)) w.

(** The key of a request in the cache:
    [`${path}|${JSON.stringify(params)}`]. *)
Definition cacheKey (path : string) (params : object) : string :=
  (path ++ "|" ++ JSON_stringify params)%string.

(** The periodic sweep (every [checkperiod] seconds) deletes the expired
    entries. *)
Definition cache_sweep (w : world) : world :=
  set_cache (filter (fun kv => negb (snd (snd kv) <? now w) = true) (cache w)) w.

(** ** The handler monad: state, early return and exceptions *)

Inductive result (A : Type) :=
| Val (a : A)
| Return (r : response)
| Throw.
Arguments Val {A} a.
Arguments Return {A} r.
Arguments Throw {A}.

Definition M (A : Type) : Type := world -> result A * world.

Definition ret {A} (a : A) : M A := fun w => (Val a, w).
Definition return_ {A} (r : response) : M A := fun w => (Return r, w).
Definition throw {A} : M A := fun w => (Throw, w).

Definition bind {A B} (m : M A) (k : A -> M B) : M B :=
  fun w =>
    match m w with
    | (Val a, w') => k a w'
    | (Return r, w') => (Return r, w')
    | (Throw, w') => (Throw, w')
    end.

Notation "x <- m ;; k" := (bind m (fun x => k))
  (at level 100, m at next level, right associativity).
Notation "m ;;; k" := (bind m (fun _ => k))
  (at level 100, right associativity).

(** [if (b) return res...;] *)
Definition return_if (b : bool) (r : response) : M unit :=
  if b then return_ r else ret tt.

(** [if (x) obj.k = x;] for a string parameter [x]. *)
Definition assign_if_str (obj : object) (k : string) (x : option string) : object :=
  match x with
  | Some s => if truthyStr s then assign obj k (VStr s) else obj
  | None => obj
  end.

(** [if (id) obj.k = String(id);] for a person id, a safe integer. *)
Definition assign_if_id (obj : object) (k : string) (id : option Z) : object :=
  match id with
  | Some z => if truthyInt id then assign obj k (VStr (String_of_int z)) else obj
  | None => obj
  end.

(** [!doc.results || doc.results.length === 0] *)
Definition no_results (d : tmdb_doc) : bool :=
  match results d with
  | None => true
  | Some l => (Z.of_nat (length l) =? 0)
  end.

(** ** Abuse control *)

Module AbuseControl.

(** The options [server.js] passes to [slowDown] and [rateLimit]. *)
Definition windowMs : Z := 60 * 1000.
Definition delayAfter : Z := 30.
Definition delayMs (hits : Z) : Z := (hits - 30) * 500.
Definition max : Z := 40.

(** The hint of a rejection (the [RateLimit-*] headers that
    [standardHeaders: true] asks for). *)
Record hint := { h_limit : Z; h_count : Z; h_resetMs : Z }.

(** What the two middlewares decide for one request: the delay before
    the request goes on, and whether it is then answered 429. *)
Record outcome := { delay : Z; limited : option hint }.

(** Modelled from the spec: the packages express-slow-down and
    express-rate-limit are not part of the sources.  Per client address
    the times of the requests observed are kept (newest first); the
    count a request observes is the number of requests of its address in
    the trailing window of [windowMs] milliseconds, itself included. *)
Definition seen (st : gmap string (list Z)) (addr : string) : list Z :=
  default [] (st !! addr).

Definition inWindow (t t' : Z) : bool := t - windowMs <? t'.

Definition recent (st : gmap string (list Z)) (addr : string) (t : Z) : list Z :=
  List.filter (inWindow t) (seen st addr).

Definition observedCount (st : gmap string (list Z)) (addr : string) (t : Z) : Z :=
  Z.of_nat (length (recent st addr t)) + 1.

(** Progressive delay: [delayMs(hits)] once [hits] exceeds [delayAfter]. *)
Definition speedLimiter (hits : Z) : Z :=
  if delayAfter <? hits then delayMs hits else 0.

(** Hard limit: 429 once [hits] exceeds [max]. *)
Definition rateLimiter (hits : Z) (resetMs : Z) : option hint :=
  if max <? hits
  then Some {| h_limit := max; h_count := hits; h_resetMs := resetMs |}
  else None.

(** One request of [addr] at time [t] through both middlewares, which
    are installed only when [NODE_ENV] is not ["test"]. *)
Definition abuseControl (testMode : bool) (addr : string) (t : Z)
           (st : gmap string (list Z)) : outcome * gmap string (list Z) :=
  if testMode then ({| delay := 0; limited := None |}, st)
  else
    let hits := observedCount st addr t in
    let oldest := List.last (recent st addr t) t in
    ({| delay := speedLimiter hits;
        limited := rateLimiter hits (oldest + windowMs - t) |},
     <[addr := t :: seen st addr]> st).

(** The requests [(address, time)] of a trace, in order of arrival. *)
Fixpoint run (testMode : bool) (evs : list (string * Z))
         (st : gmap string (list Z)) : gmap string (list Z) :=
  match evs with
  | [] => st
  | (addr, t) :: r => run testMode r (snd (abuseControl testMode addr t st))
  end.

(** The times of the requests of [addr] in a trace. *)
Definition requests_of (addr : string) (evs : list (string * Z)) : list Z :=
  map snd (List.filter (fun e => (fst e =? addr)%string) evs).

End AbuseControl.

(** ** The server *)

Section Server.

(** [process.env.TMDB_API_KEY]. *)
Variable TMDB_API_KEY : string.

(** The upstream provider behind [axios.get]: given the calls issued
    before and the present call, the document of a 2xx response, or
    [None] when [axios.get] throws (transport error, timeout, other
    status). *)
Variable axios_get : list call -> call -> option tmdb_doc.

(** [tmdbFetch(path, params)]: fetch from TMDB with caching. *)
Definition tmdbFetch (path : string) (params : object) : M tmdb_doc :=
  fun w0 =>
    let w := log_fetch (path, params) w0 in
    let cacheKey := cacheKey path params in
    match cache_get cacheKey w with
    | Some cached => (Val cached, w)
    | None =>
        let c := ((TMDB_BASE_URL ++ path)%string,
                  ("api_key", VStr TMDB_API_KEY) :: params) in
        match axios_get (netlog w) c with
        | Some data => (Val data, cache_set cacheKey data (log_net c w))
        | None => (Throw, log_net c w)
        end
    end.

(** The year check: [!Number.isInteger(y) || y < 1880 ||
    y > new Date().getFullYear() + 5].  The comparisons are reached only
    for an integer [y], and are then comparisons of integers. *)
Definition year_rejected (w : world) (year : string) : bool :=
  match integerValue (Number year) with
  | None => true
  | Some y => (y <? 1880) || (fullYear w + 5 <? y)
  end.

(** The page check: [!Number.isInteger(pageNum) || pageNum < 1 ||
    pageNum > 500]. *)
Definition page_rejected (page : string) : bool :=
  match integerValue (Number page) with
  | None => true
  | Some p => (p <? 1) || (500 <? p)
  end.

(** [pageNum] once the page check has passed. *)
Definition pageNum_of (page : string) : Z :=
  default 0 (integerValue (Number page)).

(** The checks that precede the name resolution; yields [pageNum]. *)
Definition validate (req : request) : M Z :=
  fun w =>
    (let page := default "1" (q_page req) in
     return_if (negb (truthy (q_query req)) && negb (truthy (q_year req)) &&
                negb (truthy (q_genre req)) && negb (truthy (q_cast req)) &&
                negb (truthy (q_director req)))
               MissingCriteria ;;;
     return_if (match q_year req with
                | Some year => year_rejected w year
                | None => false
                end)
               InvalidYear ;;;
     return_if (page_rejected page) InvalidPage ;;;
     return_if (match q_genre req with
                | Some genre => negb (test_digits genre)
                | None => false
                end)
               InvalidGenre ;;;
     ret (pageNum_of page)) w.

(** [personSearch.results[0].id], read once the results are known not
    to be empty. *)
Definition firstId (d : tmdb_doc) : option Z :=
  match results d with
  | Some (first :: _) => Some (item_id first)
  | _ => None
  end.

(** Resolve cast person ID. *)
Definition resolveCast (req : request) (pageNum : Z) : M (option Z) :=
  match q_cast req with
  | Some cast =>
      if truthyStr cast then
        let castTrimmed := trim cast in
        return_if (100 <? Z.of_nat (String.length castTrimmed)) CastTooLong ;;;
        personSearch <- tmdbFetch "/search/person"
                          [("query", VStr castTrimmed);
                           ("include_adult", VBool false)] ;;
        return_if (no_results personSearch) (emptyResult pageNum) ;;;
        ret (firstId personSearch)
      else ret None
  | None => ret None
  end.

(** Resolve director person ID. *)
Definition resolveDirector (req : request) (pageNum : Z) : M (option Z) :=
  match q_director req with
  | Some director =>
      if truthyStr director then
        let dirTrimmed := trim director in
        return_if (100 <? Z.of_nat (String.length dirTrimmed)) DirectorTooLong ;;;
        personSearch <- tmdbFetch "/search/person"
                          [("query", VStr dirTrimmed);
                           ("include_adult", VBool false)] ;;
        return_if (no_results personSearch) (emptyResult pageNum) ;;;
        ret (firstId personSearch)
      else ret None
  | None => ret None
  end.

(** [query.trim()]: a [TypeError] when [query] is [undefined]. *)
Definition trim_query (query : option string) : M string :=
  match query with
  | Some q => ret (trim q)
  | None => throw
  end.

Definition useDiscover (req : request) (castId directorId : option Z) : bool :=
  truthy (q_genre req) || truthyInt castId || truthyInt directorId ||
  (truthy (q_year req) && negb (truthy (q_query req))).

(** The parameters of [/search/movie], for the primary call and for the
    fallback ([params] and [fbParams] are built alike). *)
Definition titleParams (req : request) (pageNum : Z) : M object :=
  q <- trim_query (q_query req) ;;
  ret (assign_if_str
         [("query", VStr q); ("page", VNum pageNum);
          ("include_adult", VBool false)]
         "primary_release_year" (q_year req)).

(** [if (query) obj.k = query.trim();] *)
Definition assign_if_trimmed (obj : object) (k : string) (x : option string) : object :=
  match x with
  | Some s => if truthyStr s then assign obj k (VStr (trim s)) else obj
  | None => obj
  end.

(** The parameters of [/discover/movie]. *)
Definition discoverParams (req : request) (pageNum : Z)
           (castId directorId : option Z) : object :=
  let params := [("page", VNum pageNum); ("include_adult", VBool false);
                 ("sort_by", VStr "popularity.desc")] in
  let params := assign_if_trimmed params "with_keywords" (q_query req) in
  let params := assign_if_str params "primary_release_year" (q_year req) in
  let params := assign_if_str params "with_genres" (q_genre req) in
  let params := assign_if_id params "with_cast" castId in
  let params := assign_if_id params "with_crew" directorId in
  params.

(** Choose [/search/movie] (title only) or [/discover/movie] (any
    filter), with the fallback to [/search/movie]. *)
Definition fetchMovies (req : request) (pageNum : Z)
           (castId directorId : option Z) : M tmdb_doc :=
  if negb (useDiscover req castId directorId) then
    params <- titleParams req pageNum ;;
    tmdbFetch "/search/movie" params
  else
    let params := discoverParams req pageNum castId directorId in
    data <- tmdbFetch "/discover/movie" params ;;
    if truthy (q_query req) && no_results data then
      fbParams <- titleParams req pageNum ;;
      tmdbFetch "/search/movie" fbParams
    else ret data.

(** [{ results: data.results || [], total_results: data.total_results
    || 0, total_pages: data.total_pages || 0, page: pageNum }] *)
Definition searchResult (data : tmdb_doc) (pageNum : Z) : response :=
  {| status := 200;
     payload := ResultBody (default [] (results data))
                           (default 0 (total_results data))
                           (default 0 (total_pages data))
                           pageNum |}.

(** The body of the [try] block of [GET /api/search]. *)
Definition search (req : request) : M response :=
  pageNum <- validate req ;;
  castId <- resolveCast req pageNum ;;
  directorId <- resolveDirector req pageNum ;;
  data <- fetchMovies req pageNum castId directorId ;;
  ret (searchResult data pageNum).

(** [GET /api/search]: the response sent and the world afterwards; an
    exception of the [try] block is answered 502. *)
Definition handler (req : request) (w : world) : response * world :=
  match search req w with
  | (Val r, w') => (r, w')
  | (Return r, w') => (r, w')
  | (Throw, w') => (UpstreamFailure, w')
  end.

End Server.

(** ** Vocabulary of the properties *)

(** A string field is present when it is supplied and not empty. *)
Definition present (x : option string) : option string :=
  match x with
  | Some s => if truthyStr s then Some s else None
  | None => None
  end.

(** A resolved person id is present when it is not zero. *)
Definition presentId (x : option Z) : option Z :=
  match x with
  | Some z => if z =? 0 then None else Some z
  | None => None
  end.

(** An optional string parameter of an upstream call. *)
Definition param (k : string) (v : option string) : object :=
  match v with
  | Some s => [(k, VStr s)]
  | None => []
  end.

(** The title-search call of the spec: [{ query, page, year? }]. *)
Definition titleCall (q : string) (year : option string) (page : Z) : call :=
  ("/search/movie",
   ([("query", VStr q); ("page", VNum page); ("include_adult", VBool false)]
      ++ param "primary_release_year" year)%list).

(** The discovery call of the spec: [{ page, sortBy: "popularity.desc",
    keywords?, year?, genreId?, castId?, directorId? }]. *)
Definition discoverCall (keywords year genre cast crew : option string)
           (page : Z) : call :=
  ("/discover/movie",
   ([("page", VNum page); ("include_adult", VBool false);
     ("sort_by", VStr "popularity.desc")]
      ++ param "with_keywords" keywords
      ++ param "primary_release_year" year
      ++ param "with_genres" genre
      ++ param "with_cast" cast
      ++ param "with_crew" crew)%list).

(** The person-search call of the name resolver. *)
Definition personCall (name : string) : call :=
  ("/search/person", [("query", VStr name); ("include_adult", VBool false)]).

(** The [axios.get] call behind a fetch of [path] with [params]. *)
Definition netCall (key path : string) (params : object) : call :=
  ((TMDB_BASE_URL ++ path)%string, ("api_key", VStr key) :: params).

(** The page a request asks for: [Number(page)], the page defaulting to
    ["1"]. *)
Definition requestedPage (req : request) : Z :=
  pageNum_of (default "1" (q_page req)).

(** A request passes the checks that precede the name resolution: some
    search field is truthy, the year (if given) and the page are accepted
    and the genre (if given) is numeric. *)
Definition checks_pass (req : request) (w : world) : Prop :=
  (truthy (q_query req) = true \/ truthy (q_year req) = true \/
   truthy (q_genre req) = true \/ truthy (q_cast req) = true \/
   truthy (q_director req) = true) /\
  (forall year, q_year req = Some year -> year_rejected w year = false) /\
  page_rejected (default "1" (q_page req)) = false /\
  (forall genre, q_genre req = Some genre -> test_digits genre = true).

(** [Number(String(z)) === z] holds for the [n] naturals from [lo] on. *)
Definition decimal_roundtrip (lo n : nat) : bool :=
  forallb (fun i => match integerValue (Number (String_of_int (Z.of_nat i))) with
                    | Some z => z =? Z.of_nat i
                    | None => false
                    end)
          (seq lo n).

Fixpoint onlyWhiteSpace (s : string) : bool :=
  match s with
  | EmptyString => true
  | String c r => isWhiteSpace c && onlyWhiteSpace r
  end.

(** The calls of a log that go to a given upstream path. *)
Definition calls_to (path : string) (l : list call) : list call :=
  List.filter (fun c => (fst c =? path)%string) l.

(** The key under which [tmdbFetch] looks a call up in the cache. *)
Definition key_of (c : call) : string := cacheKey (fst c) (snd c).

(** For each call of [l] the cache serves in [w'] what it serves in
    [w]. *)
Definition serves_alike (l : list call) (w w' : world) : Prop :=
  forall c, In c l -> cache_get (key_of c) w' = cache_get (key_of c) w.

(** The year check gives in [w'] the verdict that it gives in [w]. *)
Definition same_verdict (req : request) (w w' : world) : Prop :=
  forall year,
    q_year req = Some year -> year_rejected w' year = year_rejected w year.

(** From [w] to [w1] the cache changed only by entries for calls of [l]
    that it did not serve in [w], each stored at the time of [w]. *)
Definition stored (l : list call) (w w1 : world) : Prop :=
  forall key,
    cache w1 !! key = cache w !! key \/
    (cache_get key w = None /\ (exists c, In c l /\ key_of c = key) /\
     exists d, cache w1 !! key = Some (d, now w + CACHE_TTL_SECONDS * 1000)).

(** A computation of the search of [req] that, once it has ended without
    exception, has left the clock alone, has made the fetches [l], each
    of them served by the cache at the end, has changed the cache only
    by storing what it fetched, and can be run again from any world that
    serves the calls of [l] as the cache did at its end and in which the
    year check gives the same verdict: the second run gives the same
    result and touches neither the network nor the cache. *)
Definition replayable {A} (req : request) (m : M A) : Prop :=
  forall w res w1,
    m w = (res, w1) -> res <> Throw ->
    now w1 = now w /\ fullYear w1 = fullYear w /\
    exists l,
      fetches w1 = (fetches w ++ l)%list /\
      (forall c, In c l -> cache_get (key_of c) w1 <> None) /\
      stored l w w1 /\
      forall w',
        serves_alike l w1 w' -> same_verdict req w w' ->
        exists w'',
          m w' = (res, w'') /\ cache w'' = cache w' /\
          netlog w'' = netlog w' /\ now w'' = now w' /\
          fullYear w'' = fullYear w'.

(** ** Sample data *)

Module Sample.

Definition req0 : request :=
  {| q_query := None; q_year := None; q_genre := None;
     q_cast := None; q_director := None; q_page := None |}.

Definition with_query (s : string) (r : request) : request :=
  {| q_query := Some s; q_year := q_year r; q_genre := q_genre r;
     q_cast := q_cast r; q_director := q_director r; q_page := q_page r |}.
Definition with_year (s : string) (r : request) : request :=
  {| q_query := q_query r; q_year := Some s; q_genre := q_genre r;
     q_cast := q_cast r; q_director := q_director r; q_page := q_page r |}.
Definition with_genre (s : string) (r : request) : request :=
  {| q_query := q_query r; q_year := q_year r; q_genre := Some s;
     q_cast := q_cast r; q_director := q_director r; q_page := q_page r |}.
Definition with_cast (s : string) (r : request) : request :=
  {| q_query := q_query r; q_year := q_year r; q_genre := q_genre r;
     q_cast := Some s; q_director := q_director r; q_page := q_page r |}.
Definition with_director (s : string) (r : request) : request :=
  {| q_query := q_query r; q_year := q_year r; q_genre := q_genre r;
     q_cast := q_cast r; q_director := Some s; q_page := q_page r |}.
Definition with_page (s : string) (r : request) : request :=
  {| q_query := q_query r; q_year := q_year r; q_genre := q_genre r;
     q_cast := q_cast r; q_director := q_director r; q_page := Some s |}.

(** A server that starts in 2026 with an empty cache. *)
Definition w0 : world :=
  {| cache := ∅; now := 0; fullYear := 2026; netlog := []; fetches := [] |}.

Definition MOVIE_LIST : tmdb_doc :=
  {| results := Some [ {| item_id := 27205; item_rest := "Inception" |} ];
     total_results := Some 1; total_pages := Some 1 |}.
Definition EMPTY_MOVIE_LIST : tmdb_doc :=
  {| results := Some []; total_results := Some 0; total_pages := Some 0 |}.
Definition PERSON_RESULTS : tmdb_doc :=
  {| results := Some [ {| item_id := 525; item_rest := "Christopher Nolan" |} ];
     total_results := None; total_pages := None |}.
Definition EMPTY_PERSON : tmdb_doc :=
  {| results := Some []; total_results := None; total_pages := None |}.

Definition url (path : string) : string := (TMDB_BASE_URL ++ path)%string.

(** An upstream that knows every person and finds a movie for every
    title, but nothing through discovery. *)
Definition upstream (_ : list call) (c : call) : option tmdb_doc :=
  if (fst c =? url "/search/person")%string then Some PERSON_RESULTS
  else if (fst c =? url "/discover/movie")%string then Some EMPTY_MOVIE_LIST
  else Some MOVIE_LIST.

(** An upstream that knows nobody. *)
Definition upstream_nobody (_ : list call) (c : call) : option tmdb_doc :=
  if (fst c =? url "/search/person")%string then Some EMPTY_PERSON
  else Some MOVIE_LIST.

(** An upstream whose discovery finds movies. *)
Definition upstream_discover (_ : list call) (c : call) : option tmdb_doc :=
  if (fst c =? url "/search/person")%string then Some PERSON_RESULTS
  else Some MOVIE_LIST.

(** [n] requests of one address, one every millisecond from [t0] on. *)
Definition burst (addr : string) (t0 : Z) (n : nat) : list (string * Z) :=
  map (fun i => (addr, t0 + Z.of_nat i)) (seq 0 n).

Definition long_name : string :=
  Eval cbv in
    (fix rep (n : nat) : string :=
       match n with O => EmptyString | S k => String "b" (rep k) end) 101%nat.

End Sample.
(** ** The other routes of the server *)

(** What the routes that pass a document through send: the upstream
    document as it came ([res.json(data)]; its shape is not looked at,
    so the type of the search documents stands for any document), or an
    error. *)
Inductive route_body :=
| RouteError (error : string)
| RouteDocument (d : tmdb_doc).

Record route_response := { r_status : Z; r_payload : route_body }.

Definition route_ok (data : tmdb_doc) : route_response :=
  {| r_status := 200; r_payload := RouteDocument data |}.
Definition GenresFailure : route_response :=
  {| r_status := 502;
     r_payload := RouteError "Failed to fetch genres from TMDB." |}.
Definition InvalidMovieId : route_response :=
  {| r_status := 400; r_payload := RouteError "Invalid movie ID." |}.
Definition MovieNotFound : route_response :=
  {| r_status := 404; r_payload := RouteError "Movie not found." |}.
Definition MovieFailure : route_response :=
  {| r_status := 502;
     r_payload := RouteError "Failed to fetch movie details from TMDB." |}.
Definition TrendingFailure : route_response :=
  {| r_status := 502;
     r_payload := RouteError "Failed to fetch trending movies." |}.

(** The parameters of the movie fetch. *)
Definition movieParams : object :=
  [("append_to_response",
    VStr "credits,videos,images,recommendations,reviews")].

(** *** [Number::toString] of an integer *)

(** The integer that the binary64 number nearest to [v] is, for
    [0 <= v]; [None] beyond the largest number. *)
Definition nearest (v : Z) : option Z := integerValue (roundRatio false v 1).

(** The decimal [v] reads as the number [x]. *)
Definition reads_as (x v : Z) : bool :=
  match nearest v with Some y => y =? x | None => false end.

(** The multiple of a power of ten with the fewest significant digits
    that reads as [x], looking at the two multiples of [u] next to [x]
    for [u] the power of ten of the first digit of [x], then of the
    second, and so on; of two that read as [x] the closer one, and the
    even one when both are as close. *)
Fixpoint shortest (fuel : nat) (x u : Z) : Z :=
  match fuel with
  | O => x
  | S fuel' =>
      let lo := x / u * u in
      let hi := lo + u in
      match reads_as x lo, reads_as x hi with
      | true, true =>
          if x - lo <? hi - x then lo
          else if hi - x <? x - lo then hi
          else if Z.even (x / u) then lo else hi
      | true, false => lo
      | false, true => hi
      | false, false => shortest fuel' x (u / 10)
      end
  end.

(** A decimal text without its trailing zeros. *)
Fixpoint stripZeros (s : string) : string :=
  match s with
  | EmptyString => EmptyString
  | String c r =>
      match stripZeros r with
      | EmptyString => if (c =? "0")%char then EmptyString
                       else String c EmptyString
      | t => String c t
      end
  end.

(** [String(x)], and [x] in a template literal, for a number [x] that
    is an integer.  A safe integer is printed with all its digits.  From
    2^53 on the digits are the fewest that read back as [x], followed by
    zeros up to 21 digits in all, and written with an exponent beyond:
    2^55 = 36028797018963968 is printed 36028797018963970, and 2^70 is
    printed 1.1805916207174113e+21. *)
Definition Number_toString (x : Z) : string :=
  if Z.abs x <? 2 ^ 53 then String_of_int x
  else
    let a := Z.abs x in
    let p := Z.of_nat (String.length (String_of_int a)) in
    let digits := String_of_int (shortest (Z.to_nat p) a (10 ^ (p - 1))) in
    let n := Z.of_nat (String.length digits) in
    let sign := if x <? 0 then "-" else EmptyString in
    let text :=
      if n <=? 21 then digits
      else
        match stripZeros digits with
        | EmptyString => EmptyString
        | String d EmptyString => String d ("e+" ++ String_of_int (n - 1))
        | String d r => String d ("." ++ r ++ "e+" ++ String_of_int (n - 1))
        end in
    (sign ++ text)%string.

(** [`/movie/${movieId}`]. *)
Definition moviePath (movieId : Z) : string :=
  ("/movie/" ++ Number_toString movieId)%string.

(** What happens to the server: time passes, the cache sweeps its
    expired entries, or a request is handled. *)
Inductive event :=
| Wait (dt : Z)
| Sweep
| SearchRequest (req : request)
| GenresRequest
| MovieRequest (id : string)
| TrendingRequest.

Section Routes.

Variable TMDB_API_KEY : string.
Variable axios_get : list call -> call -> option tmdb_doc.

(** [err.response?.status] of the error [axios.get] throws for a call:
    the status of the upstream answer, [None] when there was none. *)
Variable error_status : list call -> call -> option Z.

(** [GET /api/genres]. *)
Definition genresHandler (w : world) : route_response * world :=
  match tmdbFetch TMDB_API_KEY axios_get "/genre/movie/list"
                  [("language", VStr "en")] w with
  | (Val data, w') => (route_ok data, w')
  | (_, w') => (GenresFailure, w')
  end.

(** [GET /api/movie/:id]. *)
Definition movieHandler (id : string) (w : world) : route_response * world :=
  match integerValue (Number id) with
  | None => (InvalidMovieId, w)
  | Some movieId =>
      if movieId <=? 0 then (InvalidMovieId, w)
      else
        match tmdbFetch TMDB_API_KEY axios_get (moviePath movieId)
                        movieParams w with
        | (Val data, w') => (route_ok data, w')
        | (_, w') =>
            match error_status (netlog w)
                    (netCall TMDB_API_KEY (moviePath movieId) movieParams) with
            | Some status =>
                if status =? 404 then (MovieNotFound, w')
                else (MovieFailure, w')
            | None => (MovieFailure, w')
            end
        end
  end.

(** [GET /api/trending]: [tmdbFetch] with its default [params = {}]. *)
Definition trendingHandler (w : world) : route_response * world :=
  match tmdbFetch TMDB_API_KEY axios_get "/trending/movie/week" [] w with
  | (Val data, w') => (route_ok data, w')
  | (_, w') => (TrendingFailure, w')
  end.

(** The world after an event, and after a list of events. *)
Definition step (e : event) (w : world) : world :=
  match e with
  | Wait dt => elapse dt w
  | Sweep => cache_sweep w
  | SearchRequest req => snd (handler TMDB_API_KEY axios_get req w)
  | GenresRequest => snd (genresHandler w)
  | MovieRequest id => snd (movieHandler id w)
  | TrendingRequest => snd (trendingHandler w)
  end.

Fixpoint run_events (evs : list event) (w : world) : world :=
  match evs with
  | [] => w
  | e :: r => run_events r (step e w)
  end.

End Routes.

(** ** Fetches of concurrent requests *)

(** [tmdbFetch] hands the control back at [await axios.get]: between
    its reading of the cache and its writing to it, other requests may
    start fetches and see their fetches completed, time passes and the
    cache may sweep.  The two halves of [tmdbFetch] are the units that
    interleave. *)

#[global] Instance jsval_eq_dec : EqDecision jsval.
Proof. solve_decision. Defined.




Section Interleaving.

Variable TMDB_API_KEY : string.





End Interleaving.


(** Time does not run backwards. *)
Definition forward (e : event) : Prop :=
  match e with
  | Wait dt => 0 <= dt
  | _ => True
  end.

Definition forwardb (e : event) : bool :=
  match e with
  | Wait dt => 0 <=? dt
  | _ => true
  end.

(** ** The search of the front end *)

Module Frontend.

Definition MIN_QUERY_LENGTH : Z := 2.

(** [state.filters]: a filter that is not set is the empty string. *)
Record filters := {
  f_year : string;
  f_genre : string;
  f_cast : string;
  f_director : string
}.

(** [fmtRuntime(min)] for a runtime of [min] whole minutes, not
    negative: the empty text for 0, hours and minutes otherwise. *)
Definition fmtRuntime (min : Z) : string :=
  if min =? 0 then EmptyString
  else
    let h := min / 60 in
    let m := min mod 60 in
    (String_of_int h ++ "h " ++ String_of_int m ++ "m")%string.

(** [query && query.length >= MIN_QUERY_LENGTH] *)
Definition hasQuery (query : string) : bool :=
  truthyStr query && (MIN_QUERY_LENGTH <=? Z.of_nat (String.length query)).

(** [Object.values(state.filters).some(Boolean)] *)
Definition hasFilters (f : filters) : bool :=
  truthyStr (f_year f) || truthyStr (f_genre f) ||
  truthyStr (f_cast f) || truthyStr (f_director f).

(** [if (x) params.k = x;] for a filter [x]. *)
Definition set_if (params : object) (k : string) (x : string) : object :=
  if truthyStr x then assign params k (VStr x) else params.

(** The [params] that [performSearch] hands to [apiFetch("/search", _)];
    [None] when it returns before any request. *)
Definition performSearch (query : string) (page : Z) (f : filters)
  : option object :=
  if negb (hasQuery query) && negb (hasFilters f) then None
  else
    let params := [("page", VNum page)] in
    let params := if hasQuery query then assign params "query" (VStr query)
                  else params in
    let params := set_if params "year" (f_year f) in
    let params := set_if params "genre" (f_genre f) in
    let params := set_if params "cast" (f_cast f) in
    let params := set_if params "director" (f_director f) in
    Some params.

(** The [params] of the request behind the load-more button, for the
    [state] after the last search, [state.page] being a safe integer;
    [None] when there is no request. *)
Definition loadMore (state_query : string) (state_page state_totalPages : Z)
           (f : filters) : option object :=
  if state_page <? state_totalPages
  then performSearch state_query (state_page + 1) f
  else None.

(** What the debounced input handler does with the text of the search
    box. *)
Inductive action :=
| ApiSearch (params : object)
| ShowTrending
| Nothing.

Definition debouncedSearch (value : string) (f : filters) : action :=
  let q := trim value in
  if (MIN_QUERY_LENGTH <=? Z.of_nat (String.length q)) || hasFilters f then
    match performSearch q 1 f with
    | Some params => ApiSearch params
    | None => Nothing
    end
  else if (Z.of_nat (String.length q) =? 0) && negb (hasFilters f)
  then ShowTrending
  else Nothing.

(** [url.searchParams.set(k, v)]: the value as a string. *)
Definition toParam (v : jsval) : string :=
  match v with
  | VStr s => s
  | VNum n => Number_toString n
  | VBool true => "true"
  | VBool false => "false"
  end.

Fixpoint lookup_param (k : string) (params : object) : option string :=
  match params with
  | [] => None
  | (k', v) :: r => if (k' =? k)%string then Some (toParam v)
                    else lookup_param k r
  end.

(** [req.query] as the server destructures it from the URL that
    [apiFetch] builds, the query string carrying each value unchanged. *)
Definition request_of (params : object) : request :=
  {| q_query := lookup_param "query" params;
     q_year := lookup_param "year" params;
     q_genre := lookup_param "genre" params;
     q_cast := lookup_param "cast" params;
     q_director := lookup_param "director" params;
     q_page := lookup_param "page" params |}.

End Frontend.

(** ** Reading JSON text back *)

(** The code unit that [escapeChar] wrote at the head of a string, and
    the rest of the string. *)
Definition unhex (c : ascii) : option Z :=
  let n := code c in
  if isDigit c then Some (n - 48)
  else if (97 <=? n) && (n <=? 102) then Some (n - 87)
  else None.

Definition unescapeChar (s : string) : option (ascii * string) :=
  match s with
  | EmptyString => None
  | String c r =>
      if code c =? 92 then
        match r with
        | String e r' =>
            let n := code e in
            if n =? 34 then Some (dquote, r')
            else if n =? 92 then Some (backslash, r')
            else if n =? 98 then Some (ascii_of_N 8, r')
            else if n =? 116 then Some (ascii_of_N 9, r')
            else if n =? 110 then Some (ascii_of_N 10, r')
            else if n =? 102 then Some (ascii_of_N 12, r')
            else if n =? 114 then Some (ascii_of_N 13, r')
            else if n =? 117 then
              match r' with
              | String _ (String _ (String h (String l r''))) =>
                  match unhex h, unhex l with
                  | Some a, Some b =>
                      Some (ascii_of_N (Z.to_N (16 * a + b)), r'')
                  | _, _ => None
                  end
              | _ => None
              end
            else None
        | EmptyString => None
        end
      else if code c =? 34 then None
      else Some (c, r)
  end.

(** The longest prefix of decimal digits, and the rest. *)
Fixpoint spanDigits (s : string) : string * string :=
  match s with
  | EmptyString => (EmptyString, EmptyString)
  | String c r =>
      if isDigit c then let '(d, t) := spanDigits r in (String c d, t)
      else (EmptyString, s)
  end.

(** The decimal numeral at the head of a string, with its sign. *)
Definition spanNumeral (s : string) : string * string :=
  match s with
  | String c r =>
      if code c =? 45 then let '(d, t) := spanDigits r in (String c d, t)
      else spanDigits s
  | EmptyString => (EmptyString, EmptyString)
  end.

(** The first code unit is not a decimal digit (or there is none). *)
Definition no_digit_ahead (s : string) : bool :=
  match s with
  | EmptyString => true
  | String c _ => negb (isDigit c)
  end.

(** No code unit of the string is a vertical bar. *)
Fixpoint bar_free (s : string) : bool :=
  match s with
  | EmptyString => true
  | String c r => negb (code c =? 124) && bar_free r
  end.

(** ** The order of the parameter names *)

(** The place of a name among the parameters of the upstream calls, in
    the order in which the routes insert them into their parameter
    objects; 0 for any other name. *)
Definition rank (name : string) : nat :=
  if (name =? "query")%string then 1
  else if (name =? "page")%string then 2
  else if (name =? "include_adult")%string then 3
  else if (name =? "sort_by")%string then 4
  else if (name =? "with_keywords")%string then 5
  else if (name =? "primary_release_year")%string then 6
  else if (name =? "with_genres")%string then 7
  else if (name =? "with_cast")%string then 8
  else if (name =? "with_crew")%string then 9
  else if (name =? "language")%string then 10
  else if (name =? "append_to_response")%string then 11
  else 0.

(** Every name of [params] is one of these names and comes after the
    names that precede it in this order and after the place [prev]. *)
Fixpoint ascending (prev : nat) (params : object) : bool :=
  match params with
  | [] => true
  | (k, _) :: r => (prev <? rank k)%nat && ascending (rank k) r
  end.

Definition server_order (params : object) : bool := ascending 0 params.

Definition ordered (c : call) : Prop := server_order (snd c) = true.

(** A computation that only appends to the log of the fetches, each
    fetch that it appends satisfying [P]. *)
Definition builds {A} (P : call -> Prop) (m : M A) : Prop :=
  forall w, exists l,
    fetches (snd (m w)) = (fetches w ++ l)%list /\ Forall P l.

(** ** Vocabulary of the further properties *)

(** The four checks that precede the name resolution, one by one. *)
Definition criteria_given (req : request) : Prop :=
  truthy (q_query req) = true \/ truthy (q_year req) = true \/
  truthy (q_genre req) = true \/ truthy (q_cast req) = true \/
  truthy (q_director req) = true.

Definition year_ok (req : request) (w : world) : Prop :=
  forall year, q_year req = Some year -> year_rejected w year = false.

Definition page_ok (req : request) : Prop :=
  page_rejected (default "1" (q_page req)) = false.

Definition genre_ok (req : request) : Prop :=
  forall genre, q_genre req = Some genre -> test_digits genre = true.

(** The conditions of the four [if]s, as the handler evaluates them. *)
Definition no_criteria (req : request) : bool :=
  negb (truthy (q_query req)) && negb (truthy (q_year req)) &&
  negb (truthy (q_genre req)) && negb (truthy (q_cast req)) &&
  negb (truthy (q_director req)).

Definition year_bad (req : request) (w : world) : bool :=
  match q_year req with
  | Some year => year_rejected w year
  | None => false
  end.

Definition page_bad (req : request) : bool :=
  page_rejected (default "1" (q_page req)).

Definition genre_bad (req : request) : bool :=
  match q_genre req with
  | Some genre => negb (test_digits genre)
  | None => false
  end.

(** A computation keeps an invariant of the world. *)
Definition preserves {A} (I : world -> Prop) (m : M A) : Prop :=
  forall w res w1, m w = (res, w1) -> I w -> I w1.

(** A computation that does not see the sweep: run after a sweep it
    gives the same result, and the world it leaves is the swept one. *)
Definition sweep_blind {A} (m : M A) : Prop :=
  forall w, m (cache_sweep w) = (fst (m w), cache_sweep (snd (m w))).

(** The [axios.get] call of a fetch. *)
Definition netCall_of (key : string) (c : call) : call :=
  netCall key (fst c) (snd c).

(** A computation that leaves the clock alone, only appends to the two
    logs, makes at most [k] fetches, and whose network calls are the
    calls of some of its fetches, in their order. *)
Definition within {A} (key : string) (k : nat) (m : M A) : Prop :=
  forall w res w1,
    m w = (res, w1) ->
    now w1 = now w /\ fullYear w1 = fullYear w /\
    exists l n,
      fetches w1 = (fetches w ++ l)%list /\
      netlog w1 = (netlog w ++ n)%list /\
      sublist n (map (netCall_of key) l) /\ (length l <= k)%nat.

(** No entry expires later than [stdTTL] seconds from now. *)
Definition bounded (w : world) : Prop :=
  forall key d expires,
    cache w !! key = Some (d, expires) ->
    expires <= now w + CACHE_TTL_SECONDS * 1000.

(** Every entry of the cache holds what the upstream answered to a call
    that was issued for the request of its key. *)
Definition genuine (key : string)
           (axios_get : list call -> call -> option tmdb_doc) (w : world)
  : Prop :=
  forall k d expires,
    cache w !! k = Some (d, expires) ->
    exists path params before after,
      bar_free path = true /\ k = cacheKey path params /\
      netlog w = (before ++ netCall key path params :: after)%list /\
      axios_get before (netCall key path params) = Some d.

Module SampleMore.

(** The upstream answers every failing call with 404. *)
Definition status_404 (_ : list call) (_ : call) : option Z := Some 404.

(** An upstream that is down. *)
Definition upstream_down (_ : list call) (_ : call) : option tmdb_doc := None.

(** An upstream whose person search finds somebody with the id 0. *)
Definition PERSON_ZERO : tmdb_doc :=
  {| results := Some [ {| item_id := 0; item_rest := "Nobody" |} ];
     total_results := None; total_pages := None |}.

Definition upstream_zero (_ : list call) (c : call) : option tmdb_doc :=
  if (fst c =? Sample.url "/search/person")%string then Some PERSON_ZERO
  else Some Sample.MOVIE_LIST.

(** The trending list is asked for, then ten minutes of other traffic
    go by. *)
Definition traffic : list event :=
  [ TrendingRequest; Wait 1000;
    SearchRequest (Sample.with_query "batman" Sample.req0); Sweep;
    GenresRequest; MovieRequest "27205"; Wait 599000 ].

Definition no_filters : Frontend.filters :=
  {| Frontend.f_year := EmptyString; Frontend.f_genre := EmptyString;
     Frontend.f_cast := EmptyString; Frontend.f_director := EmptyString |}.

End SampleMore.
(** * Properties *)

(** ** The built-ins *)

Lemma truthy_present (x : option string) :
  truthy x = true <-> exists s, present x = Some s.
Proof.
  destruct x as [[|c r]|]; simpl; split; intros H;
    try discriminate; eauto; destruct H as [s H]; discriminate.
Qed.

Lemma truthy_false_present (x : option string) :
  truthy x = false <-> present x = None.
Proof. destruct x as [[|c r]|]; simpl; split; congruence. Qed.

Lemma trimStart_onlyWhiteSpace (s : string) :
  onlyWhiteSpace s = true -> trimStart s = EmptyString.
Proof.
  induction s as [|c r IH]; simpl; [reflexivity|].
  intros [Hc Hr]%andb_prop. rewrite Hc. auto.
Qed.

Lemma trim_onlyWhiteSpace (s : string) :
  onlyWhiteSpace s = true -> trim s = EmptyString.
Proof. intros H. unfold trim. now rewrite trimStart_onlyWhiteSpace. Qed.

Lemma decimal_roundtrip_spec (lo n : nat) (z : Z) :
  decimal_roundtrip lo n = true -> Z.of_nat lo <= z < Z.of_nat (lo + n) ->
  integerValue (Number (String_of_int z)) = Some z.
Proof.
  unfold decimal_roundtrip. rewrite forallb_forall. intros H Hz.
  specialize (H (Z.to_nat z)). rewrite Z2Nat.id in H by lia.
  destruct (integerValue (Number (String_of_int z))) as [y|].
  - f_equal. apply Z.eqb_eq. apply H. apply in_seq. lia.
  - discriminate H. apply in_seq. lia.
Qed.

(** [Number] reads back the decimal text of a year from 1880 to 2999. *)
Lemma Number_decimal (z : Z) :
  1880 <= z < 3000 -> integerValue (Number (String_of_int z)) = Some z.
Proof.
  intros Hz.
  apply (decimal_roundtrip_spec (Z.to_nat 1880) (Z.to_nat 1120)).
  - vm_compute. reflexivity.
  - change (Z.of_nat (Z.to_nat 1880)) with 1880.
    change (Z.of_nat (Z.to_nat 1880 + Z.to_nat 1120)) with 3000. exact Hz.
Qed.

(** ** The monad *)

Lemma bind_Val {A B} (m : M A) (k : A -> M B) w a w' :
  m w = (Val a, w') -> bind m k w = k a w'.
Proof. unfold bind. now intros ->. Qed.

Lemma bind_Return {A B} (m : M A) (k : A -> M B) w r w' :
  m w = (Return r, w') -> bind m k w = (Return r, w').
Proof. unfold bind. now intros ->. Qed.

Lemma bind_Throw {A B} (m : M A) (k : A -> M B) w w' :
  m w = (Throw, w') -> bind m k w = (Throw, w').
Proof. unfold bind. now intros ->. Qed.

Lemma bind_inv {A B} (m : M A) (k : A -> M B) w res w2 :
  bind m k w = (res, w2) ->
  (exists a w1, m w = (Val a, w1) /\ k a w1 = (res, w2)) \/
  (exists r, m w = (Return r, w2) /\ res = Return r) \/
  (m w = (Throw, w2) /\ res = Throw).
Proof.
  unfold bind. destruct (m w) as [[a|r|] w1]; intros H.
  - left. eauto.
  - right. left. inversion H. eauto.
  - right. right. inversion H. eauto.
Qed.

Lemma return_if_true (r : response) w : return_if true r w = (Return r, w).
Proof. reflexivity. Qed.

Lemma return_if_false (r : response) w : return_if false r w = (Val tt, w).
Proof. reflexivity. Qed.

(** ** Validation *)

Lemma validate_world (req : request) (w : world) :
  snd (validate req w) = w.
Proof.
  unfold validate, bind, return_if, return_, ret.
  repeat (case_match; simplify_eq; simpl; try reflexivity).
Qed.

Lemma validate_pass (req : request) (w : world) :
  checks_pass req w -> validate req w = (Val (requestedPage req), w).
Proof.
  intros (Hsome & Hyear & Hpage & Hgenre).
  unfold validate, requestedPage.
  assert (negb (truthy (q_query req)) && negb (truthy (q_year req)) &&
          negb (truthy (q_genre req)) && negb (truthy (q_cast req)) &&
          negb (truthy (q_director req)) = false) as ->.
  { destruct Hsome as [H|[H|[H|[H|H]]]]; rewrite H; simpl;
      rewrite ?andb_false_r; reflexivity. }
  erewrite bind_Val by apply return_if_false.
  assert (match q_year req with
          | Some year => year_rejected w year
          | None => false
          end = false) as ->.
  { destruct (q_year req); auto. }
  erewrite bind_Val by apply return_if_false.
  rewrite Hpage.
  erewrite bind_Val by apply return_if_false.
  assert (match q_genre req with
          | Some genre => negb (test_digits genre)
          | None => false
          end = false) as ->.
  { destruct (q_genre req) as [g|]; auto. now rewrite Hgenre. }
  erewrite bind_Val by apply return_if_false.
  reflexivity.
Qed.

Lemma validate_inv (req : request) (w : world) res w' :
  validate req w = (res, w') ->
  w' = w /\
  ((res = Val (requestedPage req) /\ checks_pass req w) \/
   (res = Return MissingCriteria /\
    truthy (q_query req) = false /\ truthy (q_year req) = false /\
    truthy (q_genre req) = false /\ truthy (q_cast req) = false /\
    truthy (q_director req) = false) \/
   (res = Return InvalidYear /\
    exists year, q_year req = Some year /\ year_rejected w year = true) \/
   (res = Return InvalidPage /\
    page_rejected (default "1" (q_page req)) = true) \/
   (res = Return InvalidGenre /\
    exists genre, q_genre req = Some genre /\ test_digits genre = false)).
Proof.
  intros H. split.
  { pose proof (validate_world req w) as Hw. rewrite H in Hw. exact Hw. }
  revert H. unfold validate.
  destruct (negb (truthy (q_query req)) && negb (truthy (q_year req)) &&
            negb (truthy (q_genre req)) && negb (truthy (q_cast req)) &&
            negb (truthy (q_director req))) eqn:Hall.
  { rewrite (bind_Return _ _ _ _ _ (return_if_true _ _)).
    intros [= <- <-]. right. left. split; [reflexivity|].
    repeat (apply andb_prop in Hall as [Hall ?]).
    repeat split; apply negb_true_iff; assumption. }
  erewrite bind_Val by apply return_if_false.
  assert (Hsome : truthy (q_query req) = true \/ truthy (q_year req) = true \/
                  truthy (q_genre req) = true \/ truthy (q_cast req) = true \/
                  truthy (q_director req) = true).
  { destruct (truthy (q_query req)), (truthy (q_year req)),
      (truthy (q_genre req)), (truthy (q_cast req)),
      (truthy (q_director req)); simpl in Hall; try discriminate; tauto. }
  destruct (match q_year req with
            | Some year => year_rejected w year
            | None => false
            end) eqn:Hy.
  { rewrite (bind_Return _ _ _ _ _ (return_if_true _ _)).
    intros [= <- <-]. right. right. left. split; [reflexivity|].
    destruct (q_year req) as [year|]; [eauto | discriminate]. }
  erewrite bind_Val by apply return_if_false.
  destruct (page_rejected (default "1" (q_page req))) eqn:Hp.
  { rewrite (bind_Return _ _ _ _ _ (return_if_true _ _)).
    intros [= <- <-]. right. right. right. left. auto. }
  erewrite bind_Val by apply return_if_false.
  destruct (match q_genre req with
            | Some genre => negb (test_digits genre)
            | None => false
            end) eqn:Hg.
  { rewrite (bind_Return _ _ _ _ _ (return_if_true _ _)).
    intros [= <- <-]. right. right. right. right. split; [reflexivity|].
    destruct (q_genre req) as [genre|]; [|discriminate].
    exists genre. split; [reflexivity|]. now apply negb_true_iff. }
  erewrite bind_Val by apply return_if_false.
  intros [= <- <-]. left. split; [reflexivity|].
  repeat split; auto.
  - intros year Hq. now rewrite Hq in Hy.
  - intros genre Hq. rewrite Hq in Hg. now apply negb_false_iff.
Qed.

Lemma year_accepted_truthy (w : world) (year : string) :
  year_rejected w year = false -> truthyStr year = true.
Proof. destruct year; [discriminate | reflexivity]. Qed.

Lemma digits_truthy (genre : string) :
  test_digits genre = true -> truthyStr genre = true.
Proof. unfold test_digits. now intros [H _]%andb_prop. Qed.

Lemma checks_pass_year (req : request) (w : world) :
  checks_pass req w -> present (q_year req) = q_year req.
Proof.
  intros (_ & Hy & _). destruct (q_year req) as [y|]; [|reflexivity].
  simpl. now rewrite (year_accepted_truthy w y) by auto.
Qed.

Lemma checks_pass_genre (req : request) (w : world) :
  checks_pass req w -> present (q_genre req) = q_genre req.
Proof.
  intros (_ & _ & _ & Hg). destruct (q_genre req) as [g|]; [|reflexivity].
  simpl. now rewrite digits_truthy by auto.
Qed.

Lemma assign_if_str_param (obj : object) (k : string) (x : option string) :
  assign_if_str obj k x = (obj ++ param k (present x))%list.
Proof.
  destruct x as [s|]; simpl; [|now rewrite app_nil_r].
  destruct (truthyStr s); simpl; [reflexivity | now rewrite app_nil_r].
Qed.

Lemma assign_if_trimmed_param (obj : object) (k : string) (x : option string) :
  assign_if_trimmed obj k x = (obj ++ param k (trim <$> present x))%list.
Proof.
  destruct x as [s|]; simpl; [|now rewrite app_nil_r].
  destruct (truthyStr s); simpl; [reflexivity | now rewrite app_nil_r].
Qed.

Lemma assign_if_id_param (obj : object) (k : string) (id : option Z) :
  assign_if_id obj k id = (obj ++ param k (String_of_int <$> presentId id))%list.
Proof.
  destruct id as [z|]; simpl; [|now rewrite app_nil_r].
  destruct (z =? 0); simpl; [now rewrite app_nil_r | reflexivity].
Qed.

Lemma truthyInt_presentId (id : option Z) :
  truthyInt id = true <-> presentId id <> None.
Proof.
  destruct id as [z|]; simpl; [|split; [discriminate | congruence]].
  destruct (z =? 0); simpl; split; congruence.
Qed.

Lemma truthy_present_ne (x : option string) :
  truthy x = true <-> present x <> None.
Proof.
  destruct x as [[|c r]|]; simpl; split; congruence.
Qed.

Lemma present_Some (x : option string) (s : string) :
  present x = Some s -> x = Some s /\ truthyStr s = true.
Proof.
  destruct x as [t|]; simpl; [|discriminate].
  destruct (truthyStr t) eqn:E; [|discriminate].
  intros [= <-]. auto.
Qed.

(** The parameters the code assembles for discovery are those of
    [discoverCall]. *)
Lemma discoverParams_spec (req : request) (w : world) (page : Z)
      (castId directorId : option Z) :
  checks_pass req w ->
  ("/discover/movie", discoverParams req page castId directorId) =
  discoverCall (trim <$> present (q_query req)) (q_year req) (q_genre req)
               (String_of_int <$> presentId castId)
               (String_of_int <$> presentId directorId) page.
Proof.
  intros Hc. unfold discoverParams, discoverCall.
  rewrite !assign_if_id_param, !assign_if_str_param, assign_if_trimmed_param.
  rewrite (checks_pass_year req w Hc), (checks_pass_genre req w Hc).
  rewrite <- !app_assoc. reflexivity.
Qed.

(** The parameters the code assembles for the title search are those of
    [titleCall]. *)
Lemma titleParams_spec (req : request) (w w1 : world) (page : Z) (q : string) :
  checks_pass req w ->
  q_query req = Some q ->
  titleParams req page w1 =
  (Val (snd (titleCall (trim q) (q_year req) page)), w1).
Proof.
  intros Hc Hq. unfold titleParams, trim_query. rewrite Hq.
  erewrite bind_Val by reflexivity.
  rewrite assign_if_str_param, (checks_pass_year req w Hc). reflexivity.
Qed.

(** ** The upstream client *)

Section ServerFacts.

Variable TMDB_API_KEY : string.
Variable axios_get : list call -> call -> option tmdb_doc.

Local Abbreviation tmdbFetch := (tmdbFetch TMDB_API_KEY axios_get).
Local Abbreviation resolveCast := (resolveCast TMDB_API_KEY axios_get).
Local Abbreviation resolveDirector := (resolveDirector TMDB_API_KEY axios_get).
Local Abbreviation fetchMovies := (fetchMovies TMDB_API_KEY axios_get).
Local Abbreviation search := (search TMDB_API_KEY axios_get).
Local Abbreviation handler := (handler TMDB_API_KEY axios_get).

Local Abbreviation net := (netCall TMDB_API_KEY).

Lemma tmdbFetch_hit path params w d :
  cache_get (cacheKey path params) w = Some d ->
  tmdbFetch path params w = (Val d, log_fetch (path, params) w).
Proof.
  intros H. unfold tmdbFetch.
  change (cache_get (cacheKey path params) (log_fetch (path, params) w))
    with (cache_get (cacheKey path params) w).
  now rewrite H.
Qed.

Lemma tmdbFetch_miss path params w :
  cache_get (cacheKey path params) w = None ->
  tmdbFetch path params w =
  match axios_get (netlog w) (net path params) with
  | Some data =>
      (Val data,
       cache_set (cacheKey path params) data
         (log_net (net path params) (log_fetch (path, params) w)))
  | None => (Throw, log_net (net path params) (log_fetch (path, params) w))
  end.
Proof.
  intros H. unfold tmdbFetch.
  change (cache_get (cacheKey path params) (log_fetch (path, params) w))
    with (cache_get (cacheKey path params) w).
  now rewrite H.
Qed.

Lemma tmdbFetch_fetches path params w :
  fetches (snd (tmdbFetch path params w)) = (fetches w ++ [(path, params)])%list.
Proof.
  destruct (cache_get (cacheKey path params) w) as [d|] eqn:Hc.
  - now rewrite (tmdbFetch_hit _ _ _ _ Hc).
  - rewrite (tmdbFetch_miss _ _ _ Hc).
    now destruct (axios_get (netlog w) (net path params)).
Qed.

Lemma tmdbFetch_clock path params w :
  now (snd (tmdbFetch path params w)) = now w /\
  fullYear (snd (tmdbFetch path params w)) = fullYear w.
Proof.
  destruct (cache_get (cacheKey path params) w) as [d|] eqn:Hc.
  - now rewrite (tmdbFetch_hit _ _ _ _ Hc).
  - rewrite (tmdbFetch_miss _ _ _ Hc).
    now destruct (axios_get (netlog w) (net path params)).
Qed.

Lemma tmdbFetch_not_Return path params w r w' :
  tmdbFetch path params w <> (Return r, w').
Proof.
  destruct (cache_get (cacheKey path params) w) as [d|] eqn:Hc.
  - now rewrite (tmdbFetch_hit _ _ _ _ Hc).
  - rewrite (tmdbFetch_miss _ _ _ Hc).
    now destruct (axios_get (netlog w) (net path params)).
Qed.

(** The document a successful fetch returns is in the cache afterwards. *)
Lemma tmdbFetch_cached path params w d w' :
  tmdbFetch path params w = (Val d, w') ->
  cache_get (cacheKey path params) w' = Some d.
Proof.
  destruct (cache_get (cacheKey path params) w) as [d0|] eqn:Hc.
  - rewrite (tmdbFetch_hit _ _ _ _ Hc). now intros [= <- <-].
  - rewrite (tmdbFetch_miss _ _ _ Hc).
    destruct (axios_get (netlog w) (net path params)); [|discriminate].
    intros [= <- <-]. unfold cache_get, cache_set. cbn.
    rewrite lookup_insert_eq.
    unfold CACHE_TTL_SECONDS.
    destruct (now w + 600 * 1000 <? now w) eqn:E; [lia | reflexivity].
Qed.

(** ** Name resolution *)

Lemma resolveCast_absent req page w :
  truthy (q_cast req) = false ->
  resolveCast req page w = (Val None, w).
Proof.
  unfold resolveCast. destruct (q_cast req) as [c|]; [|reflexivity].
  simpl. now intros ->.
Qed.

Lemma resolveDirector_absent req page w :
  truthy (q_director req) = false ->
  resolveDirector req page w = (Val None, w).
Proof.
  unfold resolveDirector. destruct (q_director req) as [c|]; [|reflexivity].
  simpl. now intros ->.
Qed.

Lemma resolveCast_present req page w cast :
  q_cast req = Some cast -> truthyStr cast = true ->
  resolveCast req page w =
  if 100 <? Z.of_nat (String.length (trim cast)) then (Return CastTooLong, w)
  else
    match tmdbFetch (fst (personCall (trim cast))) (snd (personCall (trim cast))) w with
    | (Val d, w') =>
        if no_results d then (Return (emptyResult page), w')
        else (Val (firstId d), w')
    | (Return r, w') => (Return r, w')
    | (Throw, w') => (Throw, w')
    end.
Proof.
  intros Hq Ht. unfold resolveCast. rewrite Hq, Ht.
  destruct (100 <? Z.of_nat (String.length (trim cast))).
  - apply bind_Return, return_if_true.
  - erewrite bind_Val by apply return_if_false.
    unfold bind at 1. cbn [personCall fst snd].
    destruct (tmdbFetch _ _ w) as [[d|r|] w']; try reflexivity.
    destruct (no_results d).
    + apply bind_Return, return_if_true.
    + erewrite bind_Val by apply return_if_false. reflexivity.
Qed.

Lemma resolveDirector_present req page w director :
  q_director req = Some director -> truthyStr director = true ->
  resolveDirector req page w =
  if 100 <? Z.of_nat (String.length (trim director))
  then (Return DirectorTooLong, w)
  else
    match tmdbFetch (fst (personCall (trim director)))
                    (snd (personCall (trim director))) w with
    | (Val d, w') =>
        if no_results d then (Return (emptyResult page), w')
        else (Val (firstId d), w')
    | (Return r, w') => (Return r, w')
    | (Throw, w') => (Throw, w')
    end.
Proof.
  intros Hq Ht. unfold resolveDirector. rewrite Hq, Ht.
  destruct (100 <? Z.of_nat (String.length (trim director))).
  - apply bind_Return, return_if_true.
  - erewrite bind_Val by apply return_if_false.
    unfold bind at 1. cbn [personCall fst snd].
    destruct (tmdbFetch _ _ w) as [[d|r|] w']; try reflexivity.
    destruct (no_results d).
    + apply bind_Return, return_if_true.
    + erewrite bind_Val by apply return_if_false. reflexivity.
Qed.

(** ** The handler, phase by phase *)

(** Once the checks have passed and both names are resolved, the handler
    answers with what the movie fetch yields. *)
Lemma handler_resolved req w wc w1 castId directorId :
  checks_pass req w ->
  resolveCast req (requestedPage req) w = (Val castId, wc) ->
  resolveDirector req (requestedPage req) wc = (Val directorId, w1) ->
  handler req w =
  match fetchMovies req (requestedPage req) castId directorId w1 with
  | (Val data, w') => (searchResult data (requestedPage req), w')
  | (Return r, w') => (r, w')
  | (Throw, w') => (UpstreamFailure, w')
  end.
Proof.
  intros Hc Hcast Hdir. unfold handler, search.
  rewrite (bind_Val _ _ _ _ _ (validate_pass _ _ Hc)).
  rewrite (bind_Val _ _ _ _ _ Hcast).
  rewrite (bind_Val _ _ _ _ _ Hdir).
  unfold bind at 1.
  destruct (fetchMovies _ _ _ _ w1) as [[d|r|] w']; reflexivity.
Qed.

Lemma useDiscover_spec req w castId directorId :
  checks_pass req w ->
  useDiscover req castId directorId = true <->
  (q_genre req <> None \/ presentId castId <> None \/
   presentId directorId <> None \/
   (q_year req <> None /\ present (q_query req) = None)).
Proof.
  intros Hc. unfold useDiscover.
  rewrite !orb_true_iff, andb_true_iff, negb_true_iff.
  rewrite !truthy_present_ne, !truthyInt_presentId, truthy_false_present.
  rewrite (checks_pass_genre req w Hc), (checks_pass_year req w Hc).
  tauto.
Qed.

Lemma fetchMovies_title req w w1 castId directorId q :
  checks_pass req w ->
  useDiscover req castId directorId = false ->
  q_query req = Some q ->
  fetchMovies req (requestedPage req) castId directorId w1 =
  tmdbFetch "/search/movie"
            (snd (titleCall (trim q) (q_year req) (requestedPage req))) w1.
Proof.
  intros Hc Hu Hq. unfold fetchMovies. rewrite Hu. cbn [negb].
  now rewrite (bind_Val _ _ _ _ _ (titleParams_spec _ _ w1 _ _ Hc Hq)).
Qed.

Lemma fetchMovies_discover req w w1 castId directorId :
  checks_pass req w ->
  useDiscover req castId directorId = true ->
  fetchMovies req (requestedPage req) castId directorId w1 =
  match tmdbFetch "/discover/movie"
          (discoverParams req (requestedPage req) castId directorId) w1 with
  | (Val data, w2) =>
      match present (q_query req) with
      | Some q =>
          if no_results data
          then tmdbFetch "/search/movie"
                 (snd (titleCall (trim q) (q_year req) (requestedPage req))) w2
          else (Val data, w2)
      | None => (Val data, w2)
      end
  | (Return r, w2) => (Return r, w2)
  | (Throw, w2) => (Throw, w2)
  end.
Proof.
  intros Hc Hu. unfold fetchMovies. rewrite Hu. cbn [negb].
  unfold bind at 1.
  destruct (tmdbFetch _ _ w1) as [[data|r|] w2]; try reflexivity.
  destruct (present (q_query req)) as [q|] eqn:Hp.
  - destruct (present_Some _ _ Hp) as [Hq Ht].
    assert (truthy (q_query req) = true) as -> by (rewrite Hq; exact Ht).
    cbn [andb]. destruct (no_results data); [|reflexivity].
    now rewrite (bind_Val _ _ _ _ _ (titleParams_spec _ _ w2 _ _ Hc Hq)).
  - apply truthy_false_present in Hp. now rewrite Hp.
Qed.

(** What a phase adds to the log of fetches. *)
Lemma resolveCast_fetches req page w :
  exists l,
    fetches (snd (resolveCast req page w)) = (fetches w ++ l)%list /\
    (l = [] \/ exists name, l = [personCall name]).
Proof.
  destruct (truthy (q_cast req)) eqn:Ht.
  - destruct (q_cast req) as [cast|] eqn:Hq; [|discriminate].
    rewrite (resolveCast_present _ _ _ _ Hq Ht).
    destruct (100 <? _).
    + exists []. rewrite app_nil_r. auto.
    + exists [personCall (trim cast)]. split; [|eauto].
      unfold personCall. cbn [fst snd]. rewrite <- tmdbFetch_fetches.
      destruct (tmdbFetch _ _ w) as [[d|r|] w']; try reflexivity.
      now destruct (no_results d).
  - rewrite resolveCast_absent by assumption.
    exists []. rewrite app_nil_r. auto.
Qed.

Lemma resolveDirector_fetches req page w :
  exists l,
    fetches (snd (resolveDirector req page w)) = (fetches w ++ l)%list /\
    (l = [] \/ exists name, l = [personCall name]).
Proof.
  destruct (truthy (q_director req)) eqn:Ht.
  - destruct (q_director req) as [director|] eqn:Hq; [|discriminate].
    rewrite (resolveDirector_present _ _ _ _ Hq Ht).
    destruct (100 <? _).
    + exists []. rewrite app_nil_r. auto.
    + exists [personCall (trim director)]. split; [|eauto].
      unfold personCall. cbn [fst snd]. rewrite <- tmdbFetch_fetches.
      destruct (tmdbFetch _ _ w) as [[d|r|] w']; try reflexivity.
      now destruct (no_results d).
  - rewrite resolveDirector_absent by assumption.
    exists []. rewrite app_nil_r. auto.
Qed.

Lemma fetchMovies_not_Return req page castId directorId w r w' :
  fetchMovies req page castId directorId w <> (Return r, w').
Proof.
  unfold fetchMovies, titleParams, trim_query.
  destruct (negb (useDiscover req castId directorId)).
  - destruct (q_query req) as [q|]; [|discriminate].
    erewrite bind_Val by reflexivity.
    apply tmdbFetch_not_Return.
  - intros H. apply bind_inv in H as [(data & w2 & H1 & H2)|[(r' & H1 & _)|[_ ?]]];
      [| now apply tmdbFetch_not_Return in H1 | discriminate].
    destruct (truthy (q_query req) && no_results data); [|discriminate].
    destruct (q_query req) as [q|]; [|discriminate].
    erewrite bind_Val in H2 by reflexivity.
    now apply tmdbFetch_not_Return in H2.
Qed.

Lemma fetchMovies_fetches req page castId directorId w1 :
  exists l,
    fetches (snd (fetchMovies req page castId directorId w1)) =
    (fetches w1 ++ l)%list /\
    (l = [] \/
     (exists params, l = [("/search/movie", params)]) \/
     (exists params, l = [("/discover/movie", params)]) \/
     (exists params fbParams,
         l = [("/discover/movie", params); ("/search/movie", fbParams)])).
Proof.
  unfold fetchMovies, titleParams, trim_query.
  destruct (negb (useDiscover req castId directorId)).
  - destruct (q_query req) as [q|].
    + erewrite bind_Val by reflexivity.
      rewrite tmdbFetch_fetches. eauto 6.
    + exists []. rewrite app_nil_r. auto.
  - unfold bind at 1.
    pose proof (tmdbFetch_fetches "/discover/movie"
                  (discoverParams req page castId directorId) w1) as Hf.
    destruct (tmdbFetch "/discover/movie" _ w1) as [[data|r|] w2];
      cbn [snd] in Hf |- *.
    2,3: rewrite Hf; eauto 8.
    destruct (truthy (q_query req) && no_results data) eqn:Hfb;
      [| cbn [ret snd]; rewrite Hf; eauto 8].
    destruct (q_query req) as [q|]; [|discriminate].
    erewrite bind_Val by reflexivity.
    rewrite tmdbFetch_fetches, Hf, <- app_assoc. cbn [app]. eauto 10.
Qed.

(** Every run of the handler fetches at most one discovery and at most
    one title search. *)
Lemma handler_fetches req w :
  exists l,
    fetches (snd (handler req w)) = (fetches w ++ l)%list /\
    (length (calls_to "/search/movie" l) <= 1)%nat /\
    (length (calls_to "/discover/movie" l) <= 1)%nat.
Proof.
  assert (Hnil : exists l, fetches w = (fetches w ++ l)%list /\
                   (length (calls_to "/search/movie" l) <= 1)%nat /\
                   (length (calls_to "/discover/movie" l) <= 1)%nat).
  { exists []. rewrite app_nil_r. cbn. auto. }
  unfold handler, search. unfold bind at 1.
  destruct (validate req w) as [res wv] eqn:Hv.
  apply validate_inv in Hv as [-> Hv].
  destruct Hv as [[-> Hc]|[[-> _]|[[-> _]|[[-> _]|[-> _]]]]];
    try exact Hnil.
  destruct (resolveCast_fetches req (requestedPage req) w) as (lc & Hlc & Hc').
  unfold bind at 1.
  destruct (resolveCast req (requestedPage req) w) as [[castId|r|] wc];
    cbn [snd] in Hlc |- *.
  2,3: exists lc; split; [exact Hlc|];
       destruct Hc' as [->|[name ->]]; cbn; auto.
  destruct (resolveDirector_fetches req (requestedPage req) wc)
    as (ld & Hld & Hd').
  unfold bind at 1.
  destruct (resolveDirector req (requestedPage req) wc) as [[directorId|r|] w1];
    cbn [snd] in Hld |- *.
  2,3: exists (lc ++ ld)%list; rewrite Hld, Hlc, <- app_assoc;
       split; [reflexivity|];
       destruct Hc' as [->|[name ->]], Hd' as [->|[name' ->]]; cbn; auto.
  destruct (fetchMovies_fetches req (requestedPage req) castId directorId w1)
    as (lm & Hlm & Hm').
  unfold bind at 1.
  destruct (fetchMovies req (requestedPage req) castId directorId w1)
    as [[data|r|] w2]; cbn [snd ret] in *.
  all: exists (lc ++ ld ++ lm)%list; rewrite Hlm, Hld, Hlc, <- !app_assoc;
       split; [reflexivity|];
       destruct Hc' as [->|[name ->]], Hd' as [->|[name' ->]],
         Hm' as [->|[[p ->]|[[p ->]|(p & p' & ->)]]]; cbn; auto.
Qed.

(** ** Strategy selection and fallback *)

(** C1: once a request has passed the checks and its names are resolved,
    the first movie fetch is decided by what is present.  With no genre
    and no resolved id but a title query, it is the title search with
    the trimmed query, the page and the year if one was given, and it is
    the only fetch.  With a genre, a resolved cast or director id, or a
    year without a title query, it is the discovery with the page, the
    popularity ordering and exactly the parameters present.  A request
    with a genre alone fetches the discovery with that genre, without
    keyword, and nothing else. *)
Theorem C1_strategy_selection req w wc w1 castId directorId :
  checks_pass req w ->
  resolveCast req (requestedPage req) w = (Val castId, wc) ->
  resolveDirector req (requestedPage req) wc = (Val directorId, w1) ->
  let page := requestedPage req in
  let log := fetches (snd (handler req w)) in
  (forall q,
      q_genre req = None -> presentId castId = None ->
      presentId directorId = None -> present (q_query req) = Some q ->
      log = (fetches w1 ++ [titleCall (trim q) (q_year req) page])%list) /\
  (q_genre req <> None \/ presentId castId <> None \/
   presentId directorId <> None \/
   (q_year req <> None /\ present (q_query req) = None) ->
   exists rest,
     log = (fetches w1 ++
            discoverCall (trim <$> present (q_query req)) (q_year req)
              (q_genre req) (String_of_int <$> presentId castId)
              (String_of_int <$> presentId directorId) page :: rest)%list) /\
  (forall g,
      q_genre req = Some g -> q_query req = None -> q_year req = None ->
      q_cast req = None -> q_director req = None ->
      log = (fetches w ++ [discoverCall None None (Some g) None None page])%list).
Proof.
  intros Hc Hcast Hdir page log. subst log.
  rewrite (handler_resolved _ _ _ _ _ _ Hc Hcast Hdir). fold page.
  assert (Hlog : forall path params w2,
             fetches (snd (match tmdbFetch path params w2 with
                           | (Val data, w') => (searchResult data page, w')
                           | (Return r, w') => (r, w')
                           | (Throw, w') => (UpstreamFailure, w')
                           end)) = (fetches w2 ++ [(path, params)])%list).
  { intros path params w2. rewrite <- tmdbFetch_fetches.
    destruct (tmdbFetch path params w2) as [[d|r|] w']; reflexivity. }
  assert (Hdisc : useDiscover req castId directorId = true ->
            exists rest,
              fetches (snd (match fetchMovies req page castId directorId w1 with
                            | (Val data, w') => (searchResult data page, w')
                            | (Return r, w') => (r, w')
                            | (Throw, w') => (UpstreamFailure, w')
                            end)) =
              (fetches w1 ++
               ("/discover/movie", discoverParams req page castId directorId)
               :: rest)%list /\
              (present (q_query req) = None -> rest = [])).
  { intros Hu. unfold page. rewrite (fetchMovies_discover _ _ _ _ _ Hc Hu).
    fold page.
    pose proof (tmdbFetch_fetches "/discover/movie"
                  (discoverParams req page castId directorId) w1) as Hf.
    destruct (tmdbFetch "/discover/movie" _ w1) as [[data|r|] w2];
      cbn [snd] in Hf; try (exists []; split; [exact Hf | reflexivity]).
    destruct (present (q_query req)) as [q|];
      [|exists []; split; [exact Hf | reflexivity]].
    destruct (no_results data);
      [|exists []; split; [exact Hf | discriminate]].
    eexists. split; [|discriminate].
    rewrite Hlog, Hf, <- app_assoc. reflexivity. }
  split; [|split].
  - intros q Hg Hci Hdi Hq.
    destruct (present_Some _ _ Hq) as [Hq' _].
    assert (Hu : useDiscover req castId directorId = false).
    { apply not_true_is_false. rewrite (useDiscover_spec _ _ _ _ Hc).
      rewrite Hq. intros [H|[H|[H|[_ H]]]]; congruence. }
    unfold page. rewrite (fetchMovies_title _ _ _ _ _ _ Hc Hu Hq').
    fold page. now rewrite Hlog.
  - intros Hcond. apply (useDiscover_spec _ _ _ _ Hc) in Hcond.
    destruct (Hdisc Hcond) as (rest & Hrest & _). exists rest.
    rewrite Hrest. unfold page.
    now rewrite (discoverParams_spec _ _ _ _ _ Hc).
  - intros g Hg Hq Hy Hca Hdi.
    rewrite resolveCast_absent in Hcast by now rewrite Hca.
    injection Hcast as <- <-.
    rewrite resolveDirector_absent in Hdir by now rewrite Hdi.
    injection Hdir as <- <-.
    assert (Hu : useDiscover req None None = true).
    { apply (useDiscover_spec _ _ _ _ Hc). left. congruence. }
    destruct (Hdisc Hu) as (rest & Hrest & Hnil).
    rewrite Hrest, Hnil by now rewrite Hq.
    unfold page. rewrite (discoverParams_spec _ _ _ _ _ Hc).
    now rewrite Hq, Hy, Hg.
Qed.

(** C2: let a request have passed the checks and its names be resolved.
    If the discovery is the primary call, a title query is present and
    the discovery comes back without results, then exactly one title
    search follows, with the same (trimmed) query, year and page, and
    the answer is the document of that title search: status 200 with its
    results, its total_results and its total_pages (a missing member
    replaced by [[]], 0, 0) and the page; if the title search throws the
    answer is 502.  If the discovery has results, or no title query is
    present, the answer is the document of the discovery in the same way
    and nothing else is fetched.  If the title search is the primary
    call it is the only fetch.  In every run of the handler at most one
    title search and at most one discovery are fetched. *)
Theorem C2_fallback req w :
  (forall wc w1 castId directorId,
      checks_pass req w ->
      resolveCast req (requestedPage req) w = (Val castId, wc) ->
      resolveDirector req (requestedPage req) wc = (Val directorId, w1) ->
      let page := requestedPage req in
      let D := discoverCall (trim <$> present (q_query req)) (q_year req)
                 (q_genre req) (String_of_int <$> presentId castId)
                 (String_of_int <$> presentId directorId) page in
      (forall q data w2,
          useDiscover req castId directorId = true ->
          present (q_query req) = Some q ->
          tmdbFetch (fst D) (snd D) w1 = (Val data, w2) ->
          no_results data = true ->
          let T := titleCall (trim q) (q_year req) page in
          fetches (snd (handler req w)) = (fetches w1 ++ [D; T])%list /\
          (forall data' w3,
              tmdbFetch (fst T) (snd T) w2 = (Val data', w3) ->
              handler req w =
              ({| status := 200;
                  payload := ResultBody (default [] (results data'))
                                        (default 0 (total_results data'))
                                        (default 0 (total_pages data'))
                                        page |}, w3)) /\
          (forall w3,
              tmdbFetch (fst T) (snd T) w2 = (Throw, w3) ->
              handler req w =
              ({| status := 502;
                  payload := ErrorBody
                    "Failed to fetch search results from TMDB." |}, w3))) /\
      (forall data w2,
          useDiscover req castId directorId = true ->
          tmdbFetch (fst D) (snd D) w1 = (Val data, w2) ->
          present (q_query req) = None \/ no_results data = false ->
          handler req w =
          ({| status := 200;
              payload := ResultBody (default [] (results data))
                                    (default 0 (total_results data))
                                    (default 0 (total_pages data))
                                    page |}, w2) /\
          fetches w2 = (fetches w1 ++ [D])%list) /\
      (forall q,
          useDiscover req castId directorId = false ->
          present (q_query req) = Some q ->
          fetches (snd (handler req w)) =
          (fetches w1 ++ [titleCall (trim q) (q_year req) page])%list)) /\
  (exists l,
      fetches (snd (handler req w)) = (fetches w ++ l)%list /\
      (length (calls_to "/search/movie" l) <= 1)%nat /\
      (length (calls_to "/discover/movie" l) <= 1)%nat).
Proof.
  split; [|apply handler_fetches].
  intros wc w1 castId directorId Hc Hcast Hdir page D.
  rewrite (handler_resolved _ _ _ _ _ _ Hc Hcast Hdir).
  assert (HD : D = ("/discover/movie",
                    discoverParams req page castId directorId)).
  { symmetry. apply (discoverParams_spec _ w). exact Hc. }
  clearbody D. subst D page. cbn [fst snd].
  split; [|split].
  - intros q data w2 Hu Hq Hfetch Hempty.
    rewrite (fetchMovies_discover _ _ _ _ _ Hc Hu).
    rewrite Hfetch, Hq, Hempty.
    pose proof (tmdbFetch_fetches "/discover/movie"
                  (discoverParams req (requestedPage req) castId directorId)
                  w1) as Hf.
    rewrite Hfetch in Hf. cbn [snd] in Hf.
    cbn [titleCall fst snd].
    pose proof (tmdbFetch_fetches "/search/movie"
                  (snd (titleCall (trim q) (q_year req) (requestedPage req)))
                  w2) as Hf2.
    cbn [titleCall fst snd] in Hf2.
    destruct (tmdbFetch "/search/movie" _ w2) as [[d3|r3|] w3] eqn:Hfb;
      cbn [snd] in *.
    + rewrite Hf2, Hf, <- app_assoc.
      repeat split; [intros ? ? [= <- <-]; reflexivity | discriminate].
    + now apply tmdbFetch_not_Return in Hfb.
    + rewrite Hf2, Hf, <- app_assoc.
      repeat split; [discriminate | intros ? [= <-]; reflexivity].
  - intros data w2 Hu Hfetch Hno.
    rewrite (fetchMovies_discover _ _ _ _ _ Hc Hu).
    pose proof (tmdbFetch_fetches "/discover/movie"
                  (discoverParams req (requestedPage req) castId directorId)
                  w1) as Hf.
    rewrite Hfetch in Hf |- *. cbn [snd] in Hf.
    split; [|exact Hf].
    destruct Hno as [-> | Hno]; [reflexivity|].
    rewrite Hno. now destruct (present (q_query req)).
  - intros q Hu Hq. destruct (present_Some _ _ Hq) as [Hq' _].
    rewrite (fetchMovies_title _ _ _ _ _ _ Hc Hu Hq').
    unfold titleCall. cbn [snd]. rewrite <- tmdbFetch_fetches.
    destruct (tmdbFetch "/search/movie" _ w1) as [[d|r|] w']; reflexivity.
Qed.

(** ** Validation errors and name resolution *)

Lemma resolveCast_inv req page w res w' :
  resolveCast req page w = (res, w') ->
  (truthy (q_cast req) = false /\ res = Val None /\ w' = w) \/
  (exists cast,
      present (q_cast req) = Some cast /\
      ((res = Return CastTooLong /\ w' = w) \/
       ((String.length (trim cast) <= 100)%nat /\
        w' = snd (tmdbFetch (fst (personCall (trim cast)))
                            (snd (personCall (trim cast))) w) /\
        (res = Throw \/ res = Return (emptyResult page) \/
         exists id, res = Val id)))).
Proof.
  destruct (truthy (q_cast req)) eqn:Ht.
  - destruct (q_cast req) as [cast|] eqn:Hq; [|discriminate].
    rewrite (resolveCast_present _ _ _ _ Hq Ht).
    intros H. right. exists cast. split; [simpl in *; now rewrite Ht|].
    destruct (100 <? Z.of_nat (String.length (trim cast))) eqn:Hlen.
    + left. now injection H as <- <-.
    + right. split; [lia|].
      destruct (tmdbFetch _ _ w) as [[d|r|] w2] eqn:Hf.
      * destruct (no_results d); injection H as <- <-; eauto.
      * now apply tmdbFetch_not_Return in Hf.
      * injection H as <- <-. auto.
  - rewrite resolveCast_absent by assumption.
    intros [= <- <-]. auto.
Qed.

Lemma resolveDirector_inv req page w res w' :
  resolveDirector req page w = (res, w') ->
  (truthy (q_director req) = false /\ res = Val None /\ w' = w) \/
  (exists director,
      present (q_director req) = Some director /\
      ((res = Return DirectorTooLong /\ w' = w) \/
       ((String.length (trim director) <= 100)%nat /\
        w' = snd (tmdbFetch (fst (personCall (trim director)))
                            (snd (personCall (trim director))) w) /\
        (res = Throw \/ res = Return (emptyResult page) \/
         exists id, res = Val id)))).
Proof.
  destruct (truthy (q_director req)) eqn:Ht.
  - destruct (q_director req) as [director|] eqn:Hq; [|discriminate].
    rewrite (resolveDirector_present _ _ _ _ Hq Ht).
    intros H. right. exists director. split; [simpl in *; now rewrite Ht|].
    destruct (100 <? Z.of_nat (String.length (trim director))) eqn:Hlen.
    + left. now injection H as <- <-.
    + right. split; [lia|].
      destruct (tmdbFetch _ _ w) as [[d|r|] w2] eqn:Hf.
      * destruct (no_results d); injection H as <- <-; eauto.
      * now apply tmdbFetch_not_Return in Hf.
      * injection H as <- <-. auto.
  - rewrite resolveDirector_absent by assumption.
    intros [= <- <-]. auto.
Qed.

(** The answers that follow the movie fetch are 200 or 502. *)
Lemma after_fetchMovies req page castId directorId w1 :
  let a := match fetchMovies req page castId directorId w1 with
           | (Val data, w') => (searchResult data page, w')
           | (Return r, w') => (r, w')
           | (Throw, w') => (UpstreamFailure, w')
           end in
  status (fst a) = 200 \/ fst a = UpstreamFailure.
Proof.
  destruct (fetchMovies req page castId directorId w1) as [[d|r|] w'] eqn:H;
    cbn; auto.
  now apply fetchMovies_not_Return in H.
Qed.

Lemma handler_rejected req w e :
  validate req w = (Return e, w) -> handler req w = (e, w).
Proof.
  intros H. unfold handler, search. now rewrite (bind_Return _ _ _ _ _ H).
Qed.

Lemma handler_checked req w :
  checks_pass req w ->
  handler req w =
  match resolveCast req (requestedPage req) w with
  | (Val castId, wc) =>
      match resolveDirector req (requestedPage req) wc with
      | (Val directorId, w1) =>
          match fetchMovies req (requestedPage req) castId directorId w1 with
          | (Val data, w') => (searchResult data (requestedPage req), w')
          | (Return r, w') => (r, w')
          | (Throw, w') => (UpstreamFailure, w')
          end
      | (Return r, w1) => (r, w1)
      | (Throw, w1) => (UpstreamFailure, w1)
      end
  | (Return r, wc) => (r, wc)
  | (Throw, wc) => (UpstreamFailure, wc)
  end.
Proof.
  intros Hc.
  destruct (resolveCast req (requestedPage req) w) as [[castId|r|] wc] eqn:Hcast.
  - destruct (resolveDirector req (requestedPage req) wc)
      as [[directorId|r|] w1] eqn:Hdir.
    + apply (handler_resolved _ _ _ _ _ _ Hc Hcast Hdir).
    + unfold handler, search.
      rewrite (bind_Val _ _ _ _ _ (validate_pass _ _ Hc)).
      rewrite (bind_Val _ _ _ _ _ Hcast).
      now rewrite (bind_Return _ _ _ _ _ Hdir).
    + unfold handler, search.
      rewrite (bind_Val _ _ _ _ _ (validate_pass _ _ Hc)).
      rewrite (bind_Val _ _ _ _ _ Hcast).
      now rewrite (bind_Throw _ _ _ _ Hdir).
  - unfold handler, search.
    rewrite (bind_Val _ _ _ _ _ (validate_pass _ _ Hc)).
    now rewrite (bind_Return _ _ _ _ _ Hcast).
  - unfold handler, search.
    rewrite (bind_Val _ _ _ _ _ (validate_pass _ _ Hc)).
    now rewrite (bind_Throw _ _ _ _ Hcast).
Qed.

(** How a run of the handler ends: with an error of the first checks and
    the world untouched; with the cast name too long and the world
    untouched; with the director name too long, after the cast lookup if
    there was one; or, after at least one fetch or none, with a 200 or a
    502. *)
Lemma handler_inv req w :
  (exists e,
      (e = MissingCriteria \/ e = InvalidYear \/ e = InvalidPage \/
       e = InvalidGenre) /\
      validate req w = (Return e, w) /\ handler req w = (e, w)) \/
  (checks_pass req w /\
   (handler req w = (CastTooLong, w) \/
    (truthy (q_cast req) = false /\ handler req w = (DirectorTooLong, w)) \/
    (exists cast,
        present (q_cast req) = Some cast /\
        handler req w =
        (DirectorTooLong,
         snd (tmdbFetch (fst (personCall (trim cast)))
                        (snd (personCall (trim cast))) w))) \/
    status (fst (handler req w)) = 200 \/
    fst (handler req w) = UpstreamFailure)).
Proof.
  destruct (validate req w) as [res wv] eqn:Hv.
  destruct (validate_inv _ _ _ _ Hv) as [-> Hv'].
  destruct Hv' as [[-> Hc]|[[-> _]|[[-> _]|[[-> _]|[-> _]]]]].
  2-5: left; eexists; split; [|split; [reflexivity|]];
       [tauto | now apply handler_rejected].
  right. split; [exact Hc|].
  rewrite (handler_checked _ _ Hc).
  destruct (resolveCast req (requestedPage req) w) as [resc wc] eqn:Hcast.
  apply resolveCast_inv in Hcast
    as [(Hca & -> & ->)|(cast & Hca & [[-> ->]|(_ & Hwc & [->|[->|[cid ->]]])])];
    cbn [fst]; auto.
  - destruct (resolveDirector req (requestedPage req) w) as [resd w1] eqn:Hdir.
    apply resolveDirector_inv in Hdir
      as [(Hdi & -> & ->)|(dir & Hdi & [[-> ->]|(_ & Hw1 & [->|[->|[did ->]]])])];
      cbn [fst]; auto.
    + right. right. right.
      apply (after_fetchMovies req (requestedPage req) None None w).
    + right. right. right.
      apply (after_fetchMovies req (requestedPage req) None did w1).
  - destruct (resolveDirector req (requestedPage req) wc) as [resd w1] eqn:Hdir.
    apply resolveDirector_inv in Hdir
      as [(Hdi & -> & ->)|(dir & Hdi & [[-> ->]|(_ & Hw1 & [->|[->|[did ->]]])])];
      cbn [fst]; auto.
    + right. right. right.
      apply (after_fetchMovies req (requestedPage req) cid None wc).
    + right. right. left. exists cast. rewrite Hwc. auto.
    + right. right. right.
      apply (after_fetchMovies req (requestedPage req) cid did w1).
Qed.

Lemma validation_error_status (r : response) :
  is_validation_error r -> status r = 400.
Proof. intros [->|[->|[->|[->|[->| ->]]]]]; reflexivity. Qed.

(** C3: for a request that has passed the checks, whose cast name is
    present and at most 100 characters long once trimmed, and whose
    person search comes back without results, the answer is the success
    [{ results: [], total_results: 0, total_pages: 0, page }] with the
    requested page.  The same holds for the director name, whatever the
    cast name resolved to. *)
Theorem C3_unresolved_name req w :
  checks_pass req w ->
  let page := requestedPage req in
  (forall cast d w2,
      present (q_cast req) = Some cast ->
      (String.length (trim cast) <= 100)%nat ->
      tmdbFetch (fst (personCall (trim cast)))
                (snd (personCall (trim cast))) w = (Val d, w2) ->
      no_results d = true ->
      handler req w = (emptyResult page, w2) /\
      status (emptyResult page) = 200 /\
      payload (emptyResult page) = ResultBody [] 0 0 page) /\
  (forall castId wc director d w2,
      resolveCast req page w = (Val castId, wc) ->
      present (q_director req) = Some director ->
      (String.length (trim director) <= 100)%nat ->
      tmdbFetch (fst (personCall (trim director)))
                (snd (personCall (trim director))) wc = (Val d, w2) ->
      no_results d = true ->
      handler req w = (emptyResult page, w2)).
Proof.
  intros Hc page. subst page. split.
  - intros cast d w2 Hp Hlen Hf Hno.
    destruct (present_Some _ _ Hp) as [Hq Ht].
    rewrite (handler_checked _ _ Hc).
    rewrite (resolveCast_present _ _ _ _ Hq Ht).
    destruct (100 <? Z.of_nat (String.length (trim cast))) eqn:E; [lia|].
    rewrite Hf, Hno. auto.
  - intros castId wc director d w2 Hcast Hp Hlen Hf Hno.
    destruct (present_Some _ _ Hp) as [Hq Ht].
    rewrite (handler_checked _ _ Hc), Hcast.
    rewrite (resolveDirector_present _ _ _ _ Hq Ht).
    destruct (100 <? Z.of_nat (String.length (trim director))) eqn:E; [lia|].
    now rewrite Hf, Hno.
Qed.

(** C4, amended: every validation failure leaves the world as it was (no
    fetch, no network call, the cache unchanged), except the director
    name being too long when a cast name is present: that one is
    answered after the person search of the cast name, which is then the
    only fetch that has been made. *)
Theorem C4_validation_before_upstream req w :
  is_validation_error (fst (handler req w)) ->
  (fst (handler req w) <> DirectorTooLong \/ present (q_cast req) = None ->
   snd (handler req w) = w) /\
  (forall cast,
      fst (handler req w) = DirectorTooLong ->
      present (q_cast req) = Some cast ->
      snd (handler req w) =
      snd (tmdbFetch (fst (personCall (trim cast)))
                     (snd (personCall (trim cast))) w) /\
      fetches (snd (handler req w)) =
      (fetches w ++ [personCall (trim cast)])%list).
Proof.
  intros Herr. apply validation_error_status in Herr.
  destruct (handler_inv req w)
    as [(e & He & _ & ->)|(Hc & [->|[[Hca ->]|[(cast & Hca & ->)|[H|H]]]])];
    cbn [fst snd] in *.
  - split; [reflexivity|].
    intros cast ->. destruct He as [H|[H|[H|H]]]; discriminate.
  - split; [reflexivity|]. discriminate.
  - split; [reflexivity|].
    intros cast _ Hp. apply truthy_false_present in Hca. congruence.
  - split.
    + intros [H|H]; congruence.
    + intros cast' _ Hp. assert (cast' = cast) as -> by congruence.
      split; [reflexivity|].
      unfold personCall. cbn [fst snd]. apply tmdbFetch_fetches.
  - rewrite H in Herr. discriminate.
  - rewrite H in Herr. discriminate.
Qed.

Lemma year_rejected_spec (w : world) (year : string) :
  year_rejected w year = true <->
  ~ (exists y, integerValue (Number year) = Some y /\
               1880 <= y <= fullYear w + 5).
Proof.
  unfold year_rejected.
  destruct (integerValue (Number year)) as [y|].
  - rewrite orb_true_iff, !Z.ltb_lt. split.
    + intros H (y' & [= <-] & Hy). lia.
    + intros H.
      destruct (Z.lt_ge_cases y 1880); [auto|].
      destruct (Z.lt_ge_cases (fullYear w + 5) y); [auto|].
      exfalso. apply H. exists y. split; [reflexivity | lia].
  - split; [intros _ (y & H & _); discriminate | reflexivity].
Qed.

(** C8: for a request whose year is present, the answer is the
    invalid-year error exactly when [Number(year)] is not an integer
    between 1880 and the current year plus five; a year that is 1880 or
    the current year plus five is accepted (the clock not being set
    before 1875), in particular when it is written in decimal digits. *)
Theorem C8_year_bounds req w year :
  present (q_year req) = Some year ->
  (fst (handler req w) = InvalidYear <->
   ~ (exists y, integerValue (Number year) = Some y /\
                1880 <= y <= fullYear w + 5)) /\
  (1875 <= fullYear w ->
   integerValue (Number year) = Some 1880 \/
   integerValue (Number year) = Some (fullYear w + 5) ->
   fst (handler req w) <> InvalidYear) /\
  (1875 <= fullYear w < 2995 ->
   year = String_of_int 1880 \/ year = String_of_int (fullYear w + 5) ->
   fst (handler req w) <> InvalidYear).
Proof.
  intros Hp. destruct (present_Some _ _ Hp) as [Hq Ht].
  assert (Hiff : fst (handler req w) = InvalidYear <->
                 year_rejected w year = true).
  { split.
    - intros H.
      destruct (handler_inv req w)
        as [(e & _ & Hv & He)|(Hc & [He|[[_ He]|[(c & _ & He)|[He|He]]]])];
        rewrite ?He in H; cbn [fst] in H; try discriminate.
      + subst e. apply validate_inv in Hv
          as [_ [[? _]|[[? _]|[[_ (y & Hy & Hr)]|[[? _]|[? _]]]]]];
          try discriminate.
        congruence.
      + rewrite H in He. discriminate.
    - intros Hr.
      assert (Hv : validate req w = (Return InvalidYear, w)).
      { unfold validate.
        assert (truthy (q_year req) = true) as -> by (rewrite Hq; exact Ht).
        rewrite andb_false_r. cbn [andb].
        erewrite bind_Val by apply return_if_false.
        rewrite Hq, Hr. apply bind_Return, return_if_true. }
      now rewrite (handler_rejected _ _ _ Hv). }
  assert (Hbound : 1875 <= fullYear w ->
                   integerValue (Number year) = Some 1880 \/
                   integerValue (Number year) = Some (fullYear w + 5) ->
                   fst (handler req w) <> InvalidYear).
  { intros Hclock Hy. rewrite Hiff. intros Hr.
    apply year_rejected_spec in Hr. apply Hr.
    destruct Hy as [Hy|Hy]; eexists; (split; [exact Hy | lia]). }
  split; [|split].
  - rewrite Hiff. apply year_rejected_spec.
  - exact Hbound.
  - intros Hclock Hy. apply Hbound; [lia|].
    destruct Hy as [-> | ->]; [left | right]; apply Number_decimal; lia.
Qed.

(** C9: a request in which none of query, year, genre, cast and director
    is present is answered with the missing-criteria error, and the
    world is left as it was: nothing is fetched. *)
Theorem C9_missing_criteria req w :
  present (q_query req) = None -> present (q_year req) = None ->
  present (q_genre req) = None -> present (q_cast req) = None ->
  present (q_director req) = None ->
  handler req w = (MissingCriteria, w).
Proof.
  intros Hq Hy Hg Hc Hd. apply handler_rejected.
  apply truthy_false_present in Hq, Hy, Hg, Hc, Hd.
  unfold validate. rewrite Hq, Hy, Hg, Hc, Hd.
  apply bind_Return, return_if_true.
Qed.

(** C10: a request whose query is not empty but made of white space
    only, and that has no other search field, is not answered with the
    missing-criteria error; when its page is accepted, the title search
    is fetched with the empty string as query, and nothing else is. *)
Theorem C10_whitespace_query req w q :
  q_query req = Some q -> truthyStr q = true -> onlyWhiteSpace q = true ->
  q_year req = None -> q_genre req = None ->
  q_cast req = None -> q_director req = None ->
  fst (handler req w) <> MissingCriteria /\
  (page_rejected (default "1" (q_page req)) = false ->
   fetches (snd (handler req w)) =
   (fetches w ++ [titleCall EmptyString None (requestedPage req)])%list).
Proof.
  intros Hq Ht Hws Hy Hg Hca Hdi.
  destruct (page_rejected (default "1" (q_page req))) eqn:Hpage.
  - split; [|discriminate].
    assert (Hv : validate req w = (Return InvalidPage, w)).
    { unfold validate. rewrite Hq, Hy, Hg. cbn [truthy]. rewrite Ht.
      cbn [negb andb].
      erewrite bind_Val by apply return_if_false.
      erewrite bind_Val by apply return_if_false.
      rewrite Hpage. apply bind_Return, return_if_true. }
    rewrite (handler_rejected _ _ _ Hv). discriminate.
  - assert (Hc : checks_pass req w).
    { repeat split; [|congruence|assumption|congruence].
      left. rewrite Hq. exact Ht. }
    assert (Hcast : resolveCast req (requestedPage req) w = (Val None, w))
      by (apply resolveCast_absent; now rewrite Hca).
    assert (Hdir : resolveDirector req (requestedPage req) w = (Val None, w))
      by (apply resolveDirector_absent; now rewrite Hdi).
    assert (Hu : useDiscover req None None = false).
    { unfold useDiscover. now rewrite Hg, Hy. }
    rewrite (handler_resolved _ _ _ _ _ _ Hc Hcast Hdir).
    rewrite (fetchMovies_title _ _ _ _ _ _ Hc Hu Hq).
    rewrite (trim_onlyWhiteSpace _ Hws), Hy.
    pose proof (tmdbFetch_fetches "/search/movie"
                  (snd (titleCall EmptyString None (requestedPage req))) w)
      as Hf.
    destruct (tmdbFetch "/search/movie" _ w) as [[d|r|] w'] eqn:Hfetch;
      cbn [fst snd] in *.
    + split; [discriminate | intros _; exact Hf].
    + now apply tmdbFetch_not_Return in Hfetch.
    + split; [discriminate | intros _; exact Hf].
Qed.

End ServerFacts.
(** ** Replaying a search from the cache *)

Lemma cache_get_ext (key : string) (w w' : world) :
  cache w' = cache w -> now w' = now w ->
  cache_get key w' = cache_get key w.
Proof. intros Hc Hn. unfold cache_get. now rewrite Hc, Hn. Qed.

Lemma serves_alike_ext (l : list call) (w w1 w2 : world) :
  cache w2 = cache w1 -> now w2 = now w1 ->
  serves_alike l w w1 -> serves_alike l w w2.
Proof.
  intros Hc Hn H c Hin. rewrite (cache_get_ext _ w1 w2 Hc Hn). auto.
Qed.

Lemma year_rejected_ext (w w' : world) (year : string) :
  fullYear w' = fullYear w -> year_rejected w' year = year_rejected w year.
Proof. intros H. unfold year_rejected. now rewrite H. Qed.

Lemma same_verdict_ext (req : request) (w w1 w' w1' : world) :
  fullYear w1 = fullYear w -> fullYear w1' = fullYear w' ->
  same_verdict req w w' -> same_verdict req w1 w1'.
Proof.
  intros H1 H2 H year Hy.
  rewrite (year_rejected_ext w' w1' year H2), (year_rejected_ext w w1 year H1).
  auto.
Qed.

Lemma stored_nil (w w1 : world) : cache w1 = cache w -> stored [] w w1.
Proof. intros H key. left. now rewrite H. Qed.

(** What the cache serves it still serves after the computation. *)
Lemma stored_served (l : list call) (w w1 : world) (key : string) :
  now w1 = now w -> stored l w w1 -> cache_get key w <> None ->
  cache_get key w1 = cache_get key w.
Proof.
  intros Hn Hs Hk. destruct (Hs key) as [E|[Hm _]]; [|contradiction].
  unfold cache_get. now rewrite E, Hn.
Qed.

Lemma stored_trans (l1 l2 : list call) (w w1 w2 : world) :
  now w1 = now w -> stored l1 w w1 -> stored l2 w1 w2 ->
  stored (l1 ++ l2) w w2.
Proof.
  intros Hn H1 H2 key.
  destruct (H2 key) as [E2|(Hm2 & (c & Hc & Hk) & d & Hd)].
  - destruct (H1 key) as [E1|(Hm1 & (c & Hc & Hk) & d & Hd)].
    + left. congruence.
    + right. split; [exact Hm1|]. split.
      * exists c. split; [apply in_or_app; now left | exact Hk].
      * exists d. congruence.
  - right. split; [|split].
    + destruct (H1 key) as [E1|[Hm1 _]]; [|exact Hm1].
      unfold cache_get in *. now rewrite <- E1, <- Hn.
    + exists c. split; [apply in_or_app; now right | exact Hk].
    + exists d. now rewrite Hd, Hn.
Qed.

Lemma replayable_same {A} (req : request) (m : M A) :
  (forall w, snd (m w) = w) ->
  (forall w w', same_verdict req w w' -> fst (m w') = fst (m w)) ->
  replayable req m.
Proof.
  intros Hw Hres w res w1 E _.
  pose proof (Hw w) as Hw1. rewrite E in Hw1. cbn [snd] in Hw1. subst w1.
  split; [reflexivity|]. split; [reflexivity|]. exists [].
  split; [now rewrite app_nil_r|]. split; [intros c []|].
  split; [now apply stored_nil|].
  intros w' _ Hy. exists w'.
  pose proof (Hres w w' Hy) as Hf. pose proof (Hw w') as Hs.
  rewrite E in Hf. destruct (m w') as [res' w'']. cbn [fst snd] in *.
  subst. auto.
Qed.

Lemma replayable_ret {A} (req : request) (a : A) : replayable req (ret a).
Proof. now apply replayable_same. Qed.

Lemma replayable_throw {A} (req : request) : replayable req (@throw A).
Proof. now apply replayable_same. Qed.

Lemma replayable_return_if (req : request) (b : bool) (r : response) :
  replayable req (return_if b r).
Proof. apply replayable_same; now destruct b. Qed.

Lemma replayable_bind {A B} (req : request) (m : M A) (k : A -> M B) :
  replayable req m -> (forall a, replayable req (k a)) ->
  replayable req (bind m k).
Proof.
  intros Hm Hk w res w2 Hrun Hres.
  apply bind_inv in Hrun as [(a & w1 & Hm1 & Hk1)|[(r & Hm1 & ->)|[_ ->]]];
    [| |now contradiction Hres].
  - destruct (Hm w (Val a) w1 Hm1) as (Hn1 & Hy1 & l1 & Hf1 & Hs1 & Hst1 & Hr1);
      [discriminate|].
    destruct (Hk a w1 res w2 Hk1 Hres)
      as (Hn2 & Hy2 & l2 & Hf2 & Hs2 & Hst2 & Hr2).
    split; [congruence|]. split; [congruence|].
    exists (l1 ++ l2)%list.
    assert (Hkeep : forall c, In c l1 ->
               cache_get (key_of c) w2 = cache_get (key_of c) w1).
    { intros c Hc. apply (stored_served l2); auto. }
    split; [now rewrite Hf2, Hf1, app_assoc|]. split; [|split].
    + intros c Hc. apply in_app_or in Hc as [Hc|Hc]; [|auto].
      rewrite (Hkeep c Hc). auto.
    + now apply (stored_trans l1 l2 w w1 w2).
    + intros w' Hsv Hyear.
      destruct (Hr1 w') as (wa & Ha & Hca & Hna & Hta & Hya);
        [|exact Hyear|].
      { intros c Hc. rewrite <- (Hkeep c Hc). apply Hsv.
        apply in_or_app. now left. }
      destruct (Hr2 wa) as (wb & Hb & Hcb & Hnb & Htb & Hyb).
      { apply (serves_alike_ext l2 w2 w' wa); [exact Hca | exact Hta|].
        intros c Hc. apply Hsv. apply in_or_app. now right. }
      { now apply (same_verdict_ext req w w1 w' wa). }
      exists wb. rewrite (bind_Val _ _ _ _ _ Ha).
      repeat split; congruence.
  - destruct (Hm w (Return r) w2 Hm1) as (Hn1 & Hy1 & l1 & Hf1 & Hs1 & Hst1 & Hr1);
      [discriminate|].
    split; [exact Hn1|]. split; [exact Hy1|]. exists l1.
    split; [exact Hf1|]. split; [exact Hs1|]. split; [exact Hst1|].
    intros w' Hsv Hyear.
    destruct (Hr1 w' Hsv Hyear) as (wa & Ha & Hrest).
    exists wa. now rewrite (bind_Return _ _ _ _ _ Ha).
Qed.

Lemma validate_same_verdict (req : request) (w w' : world) :
  same_verdict req w w' -> fst (validate req w') = fst (validate req w).
Proof.
  intros Hyr.
  unfold validate, bind, return_if, return_, ret.
  destruct (negb (truthy (q_query req)) && _ && _ && _ && _); [reflexivity|].
  unfold same_verdict in Hyr.
  destruct (q_year req) as [year|]; rewrite ?(Hyr year eq_refl);
    [destruct (year_rejected w year); [reflexivity|] |];
    (destruct (page_rejected _); [reflexivity|]);
    (destruct (match q_genre req with Some _ => _ | None => _ end);
     reflexivity).
Qed.

Lemma replayable_validate (req : request) : replayable req (validate req).
Proof.
  apply replayable_same; [apply validate_world|].
  apply validate_same_verdict.
Qed.

Section CacheFacts.

Variable TMDB_API_KEY : string.
Variable axios_get : list call -> call -> option tmdb_doc.

Local Abbreviation tmdbFetch := (tmdbFetch TMDB_API_KEY axios_get).
Local Abbreviation resolveCast := (resolveCast TMDB_API_KEY axios_get).
Local Abbreviation resolveDirector := (resolveDirector TMDB_API_KEY axios_get).
Local Abbreviation fetchMovies := (fetchMovies TMDB_API_KEY axios_get).
Local Abbreviation search := (search TMDB_API_KEY axios_get).
Local Abbreviation handler := (handler TMDB_API_KEY axios_get).
Local Abbreviation net := (netCall TMDB_API_KEY).

Lemma replayable_tmdbFetch req path params :
  replayable req (tmdbFetch path params).
Proof.
  intros w res w1 Hrun Hres.
  pose proof (tmdbFetch_clock TMDB_API_KEY axios_get path params w) as [Hn Hy].
  pose proof (tmdbFetch_fetches TMDB_API_KEY axios_get path params w) as Hf.
  rewrite Hrun in Hn, Hy, Hf. cbn [snd] in Hn, Hy, Hf.
  destruct res as [d|r|];
    [| now apply tmdbFetch_not_Return in Hrun | now contradiction Hres].
  pose proof (tmdbFetch_cached _ _ _ _ _ _ _ Hrun) as Hcached.
  split; [exact Hn|]. split; [exact Hy|]. exists [(path, params)].
  split; [exact Hf|]. split; [|split].
  - intros c [<-|[]]. unfold key_of. cbn [fst snd]. now rewrite Hcached.
  - destruct (cache_get (cacheKey path params) w) as [d0|] eqn:Hc.
    + rewrite (tmdbFetch_hit _ _ _ _ _ _ Hc) in Hrun.
      injection Hrun as <- <-. intros key. now left.
    + rewrite (tmdbFetch_miss _ _ _ _ _ Hc) in Hrun.
      destruct (axios_get (netlog w) (net path params)); [|discriminate].
      injection Hrun as <- <-. intros key.
      unfold cache_set. cbn [cache now set_cache log_net log_fetch].
      destruct (decide (key = cacheKey path params)) as [->|Hne].
      * right. split; [exact Hc|]. split.
        -- exists (path, params). split; [now left | reflexivity].
        -- eexists. apply lookup_insert_eq.
      * left. now rewrite lookup_insert_ne by congruence.
  - intros w' Hsv _.
    exists (log_fetch (path, params) w').
    assert (Hhit : cache_get (cacheKey path params) w' = Some d).
    { rewrite <- Hcached. apply (Hsv (path, params)). now left. }
    rewrite (tmdbFetch_hit _ _ _ _ _ _ Hhit). auto.
Qed.

Lemma replayable_resolveCast req page :
  replayable req (resolveCast req page).
Proof.
  unfold resolveCast.
  destruct (q_cast req) as [cast|]; [|apply replayable_ret].
  destruct (truthyStr cast); [|apply replayable_ret].
  apply replayable_bind; [apply replayable_return_if|]. intros _.
  apply replayable_bind; [apply replayable_tmdbFetch|]. intros d.
  apply replayable_bind; [apply replayable_return_if|]. intros _.
  apply replayable_ret.
Qed.

Lemma replayable_resolveDirector req page :
  replayable req (resolveDirector req page).
Proof.
  unfold resolveDirector.
  destruct (q_director req) as [director|]; [|apply replayable_ret].
  destruct (truthyStr director); [|apply replayable_ret].
  apply replayable_bind; [apply replayable_return_if|]. intros _.
  apply replayable_bind; [apply replayable_tmdbFetch|]. intros d.
  apply replayable_bind; [apply replayable_return_if|]. intros _.
  apply replayable_ret.
Qed.

Lemma replayable_titleParams req page :
  replayable req (titleParams req page).
Proof.
  unfold titleParams, trim_query.
  apply replayable_bind; [|intros q; apply replayable_ret].
  destruct (q_query req); [apply replayable_ret | apply replayable_throw].
Qed.

Lemma replayable_fetchMovies req page castId directorId :
  replayable req (fetchMovies req page castId directorId).
Proof.
  unfold fetchMovies.
  destruct (negb (useDiscover req castId directorId)).
  - apply replayable_bind; [apply replayable_titleParams|]. intros params.
    apply replayable_tmdbFetch.
  - apply replayable_bind; [apply replayable_tmdbFetch|]. intros data.
    destruct (truthy (q_query req) && no_results data);
      [|apply replayable_ret].
    apply replayable_bind; [apply replayable_titleParams|]. intros params.
    apply replayable_tmdbFetch.
Qed.

Lemma replayable_search req : replayable req (search req).
Proof.
  unfold search.
  apply replayable_bind; [apply replayable_validate|]. intros page.
  apply replayable_bind; [apply replayable_resolveCast|]. intros castId.
  apply replayable_bind; [apply replayable_resolveDirector|]. intros directorId.
  apply replayable_bind; [apply replayable_fetchMovies|]. intros data.
  apply replayable_ret.
Qed.

(** What a search that ended without upstream failure has left. *)
Lemma handler_stored req w l :
  fst (handler req w) <> UpstreamFailure ->
  fetches (snd (handler req w)) = (fetches w ++ l)%list ->
  now (snd (handler req w)) = now w /\
  (forall c, In c l -> cache_get (key_of c) (snd (handler req w)) <> None) /\
  stored l w (snd (handler req w)).
Proof.
  unfold handler.
  destruct (search req w) as [res w1] eqn:Hrun.
  intros Hok Hl.
  assert (Hres : res <> Throw) by (intros ->; now apply Hok).
  destruct (replayable_search req w res w1 Hrun Hres)
    as (Hn & _ & l0 & Hf & Hs & Hst & _).
  assert (Hw1 : snd (let (r, w') := (res, w1) in
                     match r with
                     | Val r0 => (r0, w')
                     | Return r0 => (r0, w')
                     | Throw => (UpstreamFailure, w')
                     end) = w1) by now destruct res.
  rewrite Hw1 in *. rewrite Hf in Hl. apply app_inv_head in Hl. subst l0.
  auto.
Qed.

(** A search that ended without upstream failure can be replayed from
    any world that serves its fetches as the cache did at its end. *)
Lemma handler_replay req w w' l :
  fst (handler req w) <> UpstreamFailure ->
  fetches (snd (handler req w)) = (fetches w ++ l)%list ->
  serves_alike l (snd (handler req w)) w' -> same_verdict req w w' ->
  fst (handler req w') = fst (handler req w) /\
  netlog (snd (handler req w')) = netlog w' /\
  cache (snd (handler req w')) = cache w'.
Proof.
  unfold handler.
  destruct (search req w) as [res w1] eqn:Hrun.
  intros Hok Hl Hsv Hy.
  assert (Hres : res <> Throw) by (intros ->; now apply Hok).
  destruct (replayable_search req w res w1 Hrun Hres)
    as (_ & _ & l0 & Hf & _ & _ & Hr).
  assert (Hw1 : snd (let (r, w') := (res, w1) in
                     match r with
                     | Val r0 => (r0, w')
                     | Return r0 => (r0, w')
                     | Throw => (UpstreamFailure, w')
                     end) = w1) by now destruct res.
  rewrite Hw1 in *. rewrite Hf in Hl. apply app_inv_head in Hl. subst l0.
  destruct (Hr w' Hsv Hy) as (w'' & Hrun' & Hc & Hn & _).
  rewrite Hrun'. destruct res; cbn [fst snd]; auto.
Qed.

(** The year check does not change its verdict within a year, nor later
    on a year that it has accepted. *)
Lemma same_verdict_later req w w' :
  fullYear w' = fullYear w \/
  (fullYear w <= fullYear w' /\ fst (handler req w) <> InvalidYear) ->
  same_verdict req w w'.
Proof.
  intros [Heq|[Hle Hne]] year Hy; [now apply year_rejected_ext|].
  destruct (year_rejected w year) eqn:E.
  - destruct (truthyStr year) eqn:Et.
    + exfalso. apply Hne.
      rewrite (handler_rejected _ _ req w InvalidYear); [reflexivity|].
      unfold validate. rewrite Hy. cbn [truthy]. rewrite Et, E.
      rewrite !andb_false_r. cbn [andb negb].
      erewrite bind_Val by apply return_if_false.
      now erewrite bind_Return by apply return_if_true.
    + destruct year; [|discriminate]. reflexivity.
  - unfold year_rejected in *.
    destruct (integerValue (Number year)) as [y|]; [|discriminate].
    apply orb_false_elim in E as [E1 E2]. rewrite E1. cbn [orb].
    apply Z.ltb_ge in E2. apply Z.ltb_ge. lia.
Qed.

(** C6: a fetch that misses the cache and is answered by the upstream
    issues one network call and stores the document; a second fetch with
    the same path and parameters, made no later than 600 seconds after
    the first while the entry is in place, returns the stored document
    without any network call.  Hence a search that ended without
    upstream failure answers the same and issues no network call when it
    is made again, whatever the cache held before, as long as the cache
    still serves the documents of its fetches and the year check has not
    changed its verdict (it does not within a year, nor later for a year
    that was accepted); the cache does serve them for 600 seconds after
    a search that found none of them, while the entries are in place;
    and a search by title whose document was not served issues exactly
    one network call, the same search made within 600 seconds none. *)
Theorem C6_cache_lifetime :
  (forall path params w data,
      cache_get (cacheKey path params) w = None ->
      axios_get (netlog w) (net path params) = Some data ->
      exists w1,
        tmdbFetch path params w = (Val data, w1) /\
        netlog w1 = (netlog w ++ [net path params])%list /\
        cache w1 !! cacheKey path params =
        Some (data, now w + CACHE_TTL_SECONDS * 1000) /\
        forall w2,
          cache w2 !! cacheKey path params = cache w1 !! cacheKey path params ->
          now w2 <= now w + CACHE_TTL_SECONDS * 1000 ->
          tmdbFetch path params w2 = (Val data, log_fetch (path, params) w2)) /\
  (forall req w w' l,
      fst (handler req w) <> UpstreamFailure ->
      fetches (snd (handler req w)) = (fetches w ++ l)%list ->
      (forall c, In c l ->
         cache_get (cacheKey (fst c) (snd c)) w' =
         cache_get (cacheKey (fst c) (snd c)) (snd (handler req w))) ->
      fullYear w' = fullYear w \/
      (fullYear w <= fullYear w' /\ fst (handler req w) <> InvalidYear) ->
      fst (handler req w') = fst (handler req w) /\
      netlog (snd (handler req w')) = netlog w' /\
      cache (snd (handler req w')) = cache w') /\
  (forall req w w' l,
      fst (handler req w) <> UpstreamFailure ->
      fetches (snd (handler req w)) = (fetches w ++ l)%list ->
      (forall c, In c l -> cache_get (cacheKey (fst c) (snd c)) w = None) ->
      (forall c, In c l ->
         cache w' !! cacheKey (fst c) (snd c) =
         cache (snd (handler req w)) !! cacheKey (fst c) (snd c)) ->
      now w' <= now w + CACHE_TTL_SECONDS * 1000 ->
      fullYear w' = fullYear w \/
      (fullYear w <= fullYear w' /\ fst (handler req w) <> InvalidYear) ->
      (forall c, In c l ->
         exists d, cache (snd (handler req w)) !! cacheKey (fst c) (snd c) =
                   Some (d, now w + CACHE_TTL_SECONDS * 1000)) /\
      fst (handler req w') = fst (handler req w) /\
      netlog (snd (handler req w')) = netlog w' /\
      cache (snd (handler req w')) = cache w') /\
  (forall req w w' q,
      checks_pass req w ->
      present (q_query req) = Some q -> q_genre req = None ->
      present (q_cast req) = None -> present (q_director req) = None ->
      let T := titleCall (trim q) (q_year req) (requestedPage req) in
      cache_get (cacheKey (fst T) (snd T)) w = None ->
      axios_get (netlog w) (net (fst T) (snd T)) <> None ->
      cache w' !! cacheKey (fst T) (snd T) =
      cache (snd (handler req w)) !! cacheKey (fst T) (snd T) ->
      now w' <= now w + CACHE_TTL_SECONDS * 1000 ->
      fullYear w <= fullYear w' ->
      netlog (snd (handler req w)) = (netlog w ++ [net (fst T) (snd T)])%list /\
      fst (handler req w') = fst (handler req w) /\
      netlog (snd (handler req w')) = netlog w').
Proof.
  assert (Hreplay : forall req w w' l,
      fst (handler req w) <> UpstreamFailure ->
      fetches (snd (handler req w)) = (fetches w ++ l)%list ->
      (forall c, In c l ->
         cache_get (cacheKey (fst c) (snd c)) w' =
         cache_get (cacheKey (fst c) (snd c)) (snd (handler req w))) ->
      fullYear w' = fullYear w \/
      (fullYear w <= fullYear w' /\ fst (handler req w) <> InvalidYear) ->
      fst (handler req w') = fst (handler req w) /\
      netlog (snd (handler req w')) = netlog w' /\
      cache (snd (handler req w')) = cache w').
  { intros req w w' l Hok Hl Hsv Hy.
    apply (handler_replay req w w' l Hok Hl); [exact Hsv|].
    now apply same_verdict_later. }
  assert (Hlife : forall req w w' l,
      fst (handler req w) <> UpstreamFailure ->
      fetches (snd (handler req w)) = (fetches w ++ l)%list ->
      (forall c, In c l -> cache_get (cacheKey (fst c) (snd c)) w = None) ->
      (forall c, In c l ->
         cache w' !! cacheKey (fst c) (snd c) =
         cache (snd (handler req w)) !! cacheKey (fst c) (snd c)) ->
      now w' <= now w + CACHE_TTL_SECONDS * 1000 ->
      fullYear w' = fullYear w \/
      (fullYear w <= fullYear w' /\ fst (handler req w) <> InvalidYear) ->
      (forall c, In c l ->
         exists d, cache (snd (handler req w)) !! cacheKey (fst c) (snd c) =
                   Some (d, now w + CACHE_TTL_SECONDS * 1000)) /\
      fst (handler req w') = fst (handler req w) /\
      netlog (snd (handler req w')) = netlog w' /\
      cache (snd (handler req w')) = cache w').
  { intros req w w' l Hok Hl Hmiss Hplace Hlate Hy.
    destruct (handler_stored req w l Hok Hl) as (Hn & Hs & Hst).
    assert (Hentry : forall c, In c l ->
               exists d, cache (snd (handler req w)) !! cacheKey (fst c) (snd c)
                         = Some (d, now w + CACHE_TTL_SECONDS * 1000)).
    { intros c Hc.
      destruct (Hst (key_of c)) as [E|(_ & _ & Hd)]; [|exact Hd].
      exfalso. apply (Hs c Hc). unfold cache_get. rewrite E, Hn.
      exact (Hmiss c Hc). }
    split; [exact Hentry|].
    apply (Hreplay req w w' l Hok Hl); [|exact Hy].
    intros c Hc. destruct (Hentry c Hc) as [d Hd].
    unfold cache_get. rewrite (Hplace c Hc), Hd, Hn.
    unfold CACHE_TTL_SECONDS in *.
    destruct (_ <? now w') eqn:E1; [lia|].
    destruct (_ <? now w) eqn:E2; [lia | reflexivity]. }
  split; [|split; [exact Hreplay|split; [exact Hlife|]]].
  - intros path params w data Hmiss Hnet.
    pose proof (tmdbFetch_miss TMDB_API_KEY axios_get path params w Hmiss)
      as Hrun.
    rewrite Hnet in Hrun. eexists. split; [exact Hrun|].
    split; [reflexivity|].
    assert (Hentry : cache (cache_set (cacheKey path params) data
                              (log_net (net path params)
                                 (log_fetch (path, params) w)))
                     !! cacheKey path params =
                     Some (data, now w + CACHE_TTL_SECONDS * 1000)).
    { unfold cache_set. cbn [cache now set_cache log_net log_fetch].
      apply lookup_insert_eq. }
    split; [exact Hentry|].
    intros w2 Hsame Hlate. apply tmdbFetch_hit.
    unfold cache_get. rewrite Hsame, Hentry.
    destruct (_ <? _) eqn:E; [lia | reflexivity].
  - intros req w w' q Hc Hq Hg Hca Hdi T Hmiss Hnet Hplace Hlate Hyear.
    destruct (present_Some _ _ Hq) as [Hq' Ht].
    apply truthy_false_present in Hca, Hdi.
    assert (Hcast : resolveCast req (requestedPage req) w = (Val None, w))
      by now apply resolveCast_absent.
    assert (Hdir : resolveDirector req (requestedPage req) w = (Val None, w))
      by now apply resolveDirector_absent.
    assert (Hu : useDiscover req None None = false).
    { unfold useDiscover. rewrite Hg, Hq'. cbn [truthy truthyInt orb].
      rewrite Ht. apply andb_false_r. }
    assert (Hfirst : exists data,
               handler req w =
               (searchResult data (requestedPage req),
                cache_set (cacheKey (fst T) (snd T)) data
                  (log_net (net (fst T) (snd T))
                     (log_fetch (fst T, snd T) w)))).
    { rewrite (handler_resolved _ _ _ _ _ _ _ _ Hc Hcast Hdir).
      rewrite (fetchMovies_title _ _ _ _ _ _ _ _ Hc Hu Hq').
      change "/search/movie"%string with (fst T).
      change (snd (titleCall (trim q) (q_year req) (requestedPage req)))
        with (snd T).
      rewrite (tmdbFetch_miss _ _ _ _ _ Hmiss).
      destruct (axios_get (netlog w) (net (fst T) (snd T))) as [data|];
        [eauto | now contradiction Hnet]. }
    destruct Hfirst as [data Hfirst].
    assert (Hok : fst (handler req w) <> UpstreamFailure)
      by (rewrite Hfirst; discriminate).
    assert (Hne : fst (handler req w) <> InvalidYear)
      by (rewrite Hfirst; discriminate).
    assert (Hl : fetches (snd (handler req w)) = (fetches w ++ [T])%list)
      by (rewrite Hfirst; now destruct T).
    destruct (Hlife req w w' [T] Hok Hl) as (_ & Hans & Hnl & _).
    + now intros c [<-|[]].
    + now intros c [<-|[]].
    + exact Hlate.
    + right. auto.
    + split; [now rewrite Hfirst|]. auto.
Qed.

(** Correctness does not depend on the sweep: it removes only what a
    read already treats as a miss. *)
Lemma cache_get_sweep (key : string) (w : world) :
  cache_get key (cache_sweep w) = cache_get key w.
Proof.
  unfold cache_get, cache_sweep. cbn [cache now set_cache].
  rewrite map_lookup_filter.
  destruct (cache w !! key) as [[d t']|]; [|reflexivity].
  cbn [mbind option_bind snd]. destruct (t' <? now w) eqn:E.
  - rewrite option_guard_False by (cbn; discriminate). reflexivity.
  - rewrite option_guard_True by reflexivity.
    cbn. now rewrite E.
Qed.

End CacheFacts.
(** ** Abuse control *)

Module AbuseControlFacts.
Import AbuseControl.

Lemma seen_step (a addr : string) (t : Z) (st : gmap string (list Z)) :
  seen (snd (abuseControl false a t st)) addr =
  if (a =? addr)%string then t :: seen st addr else seen st addr.
Proof.
  unfold abuseControl, seen. cbn [snd].
  destruct (String.eqb_spec a addr) as [->|Hne].
  - now rewrite lookup_insert_eq.
  - now rewrite lookup_insert_ne.
Qed.

(** After a trace, the times seen for an address are those of its
    requests, newest first. *)
Lemma seen_run (evs : list (string * Z)) (addr : string)
      (st : gmap string (list Z)) :
  seen (run false evs st) addr =
  (rev (requests_of addr evs) ++ seen st addr)%list.
Proof.
  revert st. induction evs as [|[a t] evs IH]; intros st; [reflexivity|].
  cbn [run]. rewrite IH, seen_step. unfold requests_of. cbn [List.filter fst].
  destruct (a =? addr)%string; [|reflexivity].
  cbn [map snd rev]. now rewrite <- app_assoc.
Qed.

(** The requests a request at [t] finds in its window are those of its
    address, of the trace and of the state before it, that are less
    than [windowMs] old. *)
Lemma recent_run (evs : list (string * Z)) (addr : string) (t : Z)
      (st : gmap string (list Z)) :
  recent (run false evs st) addr t =
  (rev (List.filter (inWindow t) (requests_of addr evs)) ++
   List.filter (inWindow t) (seen st addr))%list.
Proof.
  unfold recent. rewrite seen_run, List.filter_app. f_equal.
  apply List.filter_rev.
Qed.

Lemma last_filter (f : Z -> bool) (l : list Z) (d : Z) :
  f d = true -> f (List.last (List.filter f l) d) = true.
Proof.
  intros Hd.
  assert (H : Forall (fun x => f x = true) (List.filter f l)).
  { apply List.Forall_forall. intros x Hx.
    now apply List.filter_In in Hx. }
  induction H as [|x r Hx _ IH]; [exact Hd|].
  destruct r; [exact Hx | exact IH].
Qed.

(** C7: outside test mode, let a client address make a request at time
    [t], after any requests of any addresses, and let it be the n-th
    request of its address in the trailing window: n - 1 requests of the
    address were made less than 60 seconds before [t], whatever the
    number of its older requests and of the requests of others.  Up to
    the 30th the request is neither delayed nor rejected; the 31st to
    the 40th are delayed by (n-30)*500 milliseconds and not rejected;
    from the 41st on the request is rejected, the rejection carrying the
    limit, the count n and the time to the reset.  In test mode no
    request is delayed or rejected. *)
Theorem C7_rate_limits (evs : list (string * Z)) (st : gmap string (list Z))
        (addr : string) (t : Z) :
  let young := List.filter (fun t' => t - 60 * 1000 <? t') in
  let n := Z.of_nat (length (young (requests_of addr evs))) +
           Z.of_nat (length (young (seen st addr))) + 1 in
  let out := fst (abuseControl false addr t (run false evs st)) in
  (n <= 30 -> delay out = 0 /\ limited out = None) /\
  (31 <= n <= 40 -> delay out = (n - 30) * 500 /\ limited out = None) /\
  (41 <= n ->
   exists h, limited out = Some h /\ h_limit h = 40 /\ h_count h = n /\
             0 < h_resetMs h) /\
  (forall st', abuseControl true addr t st' =
               ({| delay := 0; limited := None |}, st')).
Proof.
  intros young n out.
  assert (Hcount : observedCount (run false evs st) addr t = n).
  { unfold observedCount. rewrite recent_run, length_app, length_rev.
    change (List.filter (inWindow t)) with young.
    now rewrite Nat2Z.inj_add. }
  subst out. unfold abuseControl. cbn [fst delay limited].
  rewrite Hcount.
  unfold speedLimiter, rateLimiter, delayAfter, delayMs, max.
  split; [|split; [|split]].
  - intros Hn. destruct (30 <? n) eqn:E1; [lia|].
    destruct (40 <? n) eqn:E2; [lia|]. auto.
  - intros Hn. destruct (30 <? n) eqn:E1; [|lia].
    destruct (40 <? n) eqn:E2; [lia|]. auto.
  - intros Hn. destruct (40 <? n) eqn:E; [|lia].
    eexists. split; [reflexivity|]. cbn [h_limit h_count h_resetMs].
    split; [reflexivity|]. split; [reflexivity|].
    assert (Ht : inWindow t t = true)
      by (apply Z.ltb_lt; unfold windowMs; lia).
    apply (last_filter (inWindow t) (seen (run false evs st) addr)) in Ht.
    change (List.filter (inWindow t) (seen (run false evs st) addr))
      with (recent (run false evs st) addr t) in Ht.
    apply Z.ltb_lt in Ht. lia.
  - reflexivity.
Qed.

End AbuseControlFacts.
(** ** The properties at work on sample requests *)

Module Witness.
Import Sample.

Lemma checks_pass_sample (req : request) :
  truthy (q_query req) || truthy (q_year req) || truthy (q_genre req) ||
  truthy (q_cast req) || truthy (q_director req) = true ->
  match q_year req with
  | Some year => year_rejected w0 year
  | None => false
  end = false ->
  page_rejected (default "1" (q_page req)) = false ->
  match q_genre req with
  | Some genre => test_digits genre
  | None => true
  end = true ->
  checks_pass req w0.
Proof.
  intros Hany Hy Hp Hg. repeat split.
  - destruct (truthy (q_query req)); [tauto|].
    destruct (truthy (q_year req)); [tauto|].
    destruct (truthy (q_genre req)); [tauto|].
    destruct (truthy (q_cast req)); [tauto|].
    destruct (truthy (q_director req)); [tauto | discriminate].
  - intros year Hq. now rewrite Hq in Hy.
  - exact Hp.
  - intros genre Hq. now rewrite Hq in Hg.
Defined.

(** A search by cast and genre goes to the discovery. *)
Lemma C1_witness :
  let req := with_genre "28" (with_cast "Christopher Nolan" req0) in
  let wc := snd (resolveCast "KEY" upstream_discover req 1 w0) in
  checks_pass req w0 /\
  resolveCast "KEY" upstream_discover req (requestedPage req) w0 =
  (Val (Some 525), wc) /\
  resolveDirector "KEY" upstream_discover req (requestedPage req) wc =
  (Val None, wc) /\
  exists rest,
    fetches (snd (handler "KEY" upstream_discover req w0)) =
    (fetches wc ++
     discoverCall None None (Some "28") (Some "525") None 1 :: rest)%list.
Proof.
  intros req wc.
  assert (Hc : checks_pass req w0)
    by (apply checks_pass_sample; vm_compute; reflexivity).
  assert (Hcast : resolveCast "KEY" upstream_discover req (requestedPage req) w0
                  = (Val (Some 525), wc)) by (vm_compute; reflexivity).
  assert (Hdir : resolveDirector "KEY" upstream_discover req
                   (requestedPage req) wc = (Val None, wc))
    by (vm_compute; reflexivity).
  split; [exact Hc|]. split; [exact Hcast|]. split; [exact Hdir|].
  destruct (C1_strategy_selection "KEY" upstream_discover req w0 wc wc
              (Some 525) None Hc Hcast Hdir) as (_ & Hdisc & _).
  apply Hdisc. left. discriminate.
Defined.

(** A search by title and genre whose discovery is empty falls back to
    the title search and answers with its movies. *)
Lemma C2_witness :
  let req := with_genre "28" (with_query " batman " req0) in
  let D := discoverCall (Some "batman") None (Some "28") None None 1 in
  let T := titleCall "batman" None 1 in
  let w2 := snd (tmdbFetch "KEY" upstream (fst D) (snd D) w0) in
  let w3 := snd (tmdbFetch "KEY" upstream (fst T) (snd T) w2) in
  checks_pass req w0 /\
  handler "KEY" upstream req w0 =
  ({| status := 200;
      payload := ResultBody [ {| item_id := 27205; item_rest := "Inception" |} ]
                            1 1 1 |}, w3) /\
  fetches (snd (handler "KEY" upstream req w0)) = [D; T].
Proof.
  intros req D T w2 w3.
  assert (Hc : checks_pass req w0)
    by (apply checks_pass_sample; vm_compute; reflexivity).
  destruct (C2_fallback "KEY" upstream req w0) as [H _].
  destruct (H w0 w0 None None Hc eq_refl eq_refl) as (Hfb & _ & _).
  assert (Hu : useDiscover req None None = true) by (vm_compute; reflexivity).
  assert (Hq : present (q_query req) = Some " batman "%string)
    by (vm_compute; reflexivity).
  assert (Hd : tmdbFetch "KEY" upstream (fst D) (snd D) w0 =
               (Val EMPTY_MOVIE_LIST, w2)) by (vm_compute; reflexivity).
  destruct (Hfb " batman "%string EMPTY_MOVIE_LIST w2 Hu Hq Hd eq_refl)
    as (Hlog & Hok & _).
  split; [exact Hc|]. split; [|exact Hlog].
  assert (Ht : tmdbFetch "KEY" upstream (fst T) (snd T) w2 =
               (Val MOVIE_LIST, w3)) by (vm_compute; reflexivity).
  exact (Hok MOVIE_LIST w3 Ht).
Defined.

(** A cast name that nobody bears gives the empty page 7. *)
Lemma C3_witness :
  let req := with_page "7" (with_cast "Nobody" req0) in
  let w2 := snd (tmdbFetch "KEY" upstream_nobody
                   (fst (personCall "Nobody")) (snd (personCall "Nobody")) w0) in
  checks_pass req w0 /\
  handler "KEY" upstream_nobody req w0 = (emptyResult 7, w2).
Proof.
  intros req w2.
  assert (Hc : checks_pass req w0)
    by (apply checks_pass_sample; vm_compute; reflexivity).
  split; [exact Hc|].
  destruct (C3_unresolved_name "KEY" upstream_nobody req w0 Hc) as [Hcast _].
  assert (Hp : present (q_cast req) = Some "Nobody"%string)
    by (vm_compute; reflexivity).
  assert (Hlen : (String.length (trim "Nobody") <= 100)%nat)
    by (vm_compute; lia).
  assert (Hf : tmdbFetch "KEY" upstream_nobody (fst (personCall (trim "Nobody")))
                 (snd (personCall (trim "Nobody"))) w0 = (Val EMPTY_PERSON, w2))
    by (vm_compute; reflexivity).
  destruct (Hcast "Nobody"%string EMPTY_PERSON w2 Hp Hlen Hf eq_refl)
    as [Hrun _].
  exact Hrun.
Defined.

(** The request on which the director name is found too long only after
    the cast name has been looked up. *)
Lemma C4_witness :
  let req := with_director long_name (with_cast "Tom" req0) in
  let run := handler "KEY" upstream req w0 in
  is_validation_error (fst run) /\
  fetches (snd run) = [personCall "Tom"].
Proof.
  intros req run.
  assert (Herr : is_validation_error (fst run)).
  { right. right. right. right. right. vm_compute. reflexivity. }
  split; [exact Herr|].
  destruct (C4_validation_before_upstream "KEY" upstream req w0 Herr)
    as [_ H].
  assert (Hd : fst run = DirectorTooLong) by (vm_compute; reflexivity).
  assert (Hp : present (q_cast req) = Some "Tom"%string)
    by (vm_compute; reflexivity).
  destruct (H "Tom"%string Hd Hp) as [_ Hlog].
  exact Hlog.
Defined.

(** C4 as stated fails: the answer is a validation error, yet a person
    search has gone to the network and its answer is in the cache. *)
Lemma C4_counterexample :
  let req := with_director long_name (with_cast "Tom" req0) in
  let run := handler "KEY" upstream req w0 in
  fst run = DirectorTooLong /\
  is_validation_error (fst run) /\
  netlog (snd run) = [netCall "KEY" "/search/person"
                        [("query", VStr "Tom"); ("include_adult", VBool false)]] /\
  netlog w0 = [] /\
  cache w0 !! cacheKey "/search/person"
                [("query", VStr "Tom"); ("include_adult", VBool false)] = None /\
  cache (snd run) !! cacheKey "/search/person"
                [("query", VStr "Tom"); ("include_adult", VBool false)] =
  Some (PERSON_RESULTS, 600000) /\
  snd run <> w0.
Proof.
  intros req run.
  assert (Hnet : netlog (snd run) =
                 [netCall "KEY" "/search/person"
                    [("query", VStr "Tom"); ("include_adult", VBool false)]])
    by (vm_compute; reflexivity).
  split; [vm_compute; reflexivity|].
  split; [right; right; right; right; right; vm_compute; reflexivity|].
  split; [exact Hnet|].
  split; [reflexivity|].
  split; [vm_compute; reflexivity|].
  split; [vm_compute; reflexivity|].
  intros Heq. rewrite Heq in Hnet. discriminate Hnet.
Qed.

(** A search for a title in a cache that holds older entries, another
    search after it, and the first search again 600 seconds after it was
    made first: one network call for the title, none for the second
    search for it, although the older entries have expired. *)
Lemma C6_witness :
  let wA := elapse 300000
              (snd (handler "KEY" upstream
                      (with_cast "Nolan" (with_genre "28" req0)) w0)) in
  let req := with_query "Inception" req0 in
  let first := handler "KEY" upstream req wA in
  let w' := elapse 600000
              (snd (handler "KEY" upstream (with_query "batman" req0)
                      (snd first))) in
  let T := titleCall "Inception" None 1 in
  checks_pass req wA /\
  cache_get (cacheKey "/search/person"
               [("query", VStr "Nolan"); ("include_adult", VBool false)]) wA
  = Some PERSON_RESULTS /\
  cache_get (cacheKey "/search/person"
               [("query", VStr "Nolan"); ("include_adult", VBool false)]) w'
  = None /\
  now w' = now wA + CACHE_TTL_SECONDS * 1000 /\
  netlog (snd first) = (netlog wA ++ [netCall "KEY" (fst T) (snd T)])%list /\
  fst (handler "KEY" upstream req w') = fst first /\
  netlog (snd (handler "KEY" upstream req w')) = netlog w'.
Proof.
  intros wA req first w' T.
  assert (Hc : checks_pass req wA)
    by (apply checks_pass_sample; vm_compute; reflexivity).
  split; [exact Hc|].
  split; [vm_compute; reflexivity|].
  split; [vm_compute; reflexivity|].
  assert (Hnow : now w' = now wA + CACHE_TTL_SECONDS * 1000)
    by (vm_compute; reflexivity).
  split; [exact Hnow|].
  destruct (C6_cache_lifetime "KEY" upstream) as (_ & _ & _ & H).
  assert (Hq : present (q_query req) = Some "Inception"%string)
    by (vm_compute; reflexivity).
  assert (Hmiss : cache_get (cacheKey (fst T) (snd T)) wA = None)
    by (vm_compute; reflexivity).
  assert (Hnet : upstream (netlog wA) (netCall "KEY" (fst T) (snd T)) <> None)
    by (vm_compute; discriminate).
  assert (Hplace : cache w' !! cacheKey (fst T) (snd T) =
                   cache (snd first) !! cacheKey (fst T) (snd T))
    by (vm_compute; reflexivity).
  assert (Hlate : now w' <= now wA + CACHE_TTL_SECONDS * 1000)
    by (rewrite Hnow; lia).
  assert (Hyear : fullYear wA <= fullYear w') by (vm_compute; discriminate).
  exact (H req wA w' "Inception"%string Hc Hq eq_refl eq_refl eq_refl
           Hmiss Hnet Hplace Hlate Hyear).
Defined.

(** The 41st request of an address within one minute is rejected,
    whatever the address did more than a minute before and whatever
    others do. *)
Lemma C7_witness :
  let evs := (burst "203.0.113.7" 0 5 ++ burst "198.51.100.2" 99000 5 ++
              burst "203.0.113.7" 100000 40)%list in
  let out := fst (AbuseControl.abuseControl false "203.0.113.7" 100040
                    (AbuseControl.run false evs ∅)) in
  AbuseControl.delay out = (41 - 30) * 500 /\
  exists h,
    AbuseControl.limited out = Some h /\
    AbuseControl.h_limit h = 40 /\ AbuseControl.h_count h = 41 /\
    0 < AbuseControl.h_resetMs h.
Proof.
  intros evs out.
  split; [vm_compute; reflexivity|].
  destruct (AbuseControlFacts.C7_rate_limits evs ∅ "203.0.113.7" 100040)
    as (_ & _ & H41 & _).
  apply H41. vm_compute. discriminate.
Defined.

(** The year 1880 is accepted. *)
Lemma C8_witness :
  let req := with_year "1880" (with_query "train" req0) in
  present (q_year req) = Some "1880"%string /\
  fst (handler "KEY" upstream req w0) <> InvalidYear.
Proof.
  intros req. split; [reflexivity|].
  destruct (C8_year_bounds "KEY" upstream req w0 "1880" eq_refl)
    as (_ & Hbound & _).
  apply Hbound.
  - vm_compute. discriminate.
  - left. vm_compute. reflexivity.
Defined.

Lemma C9_witness :
  present (q_query req0) = None /\ present (q_year req0) = None /\
  present (q_genre req0) = None /\ present (q_cast req0) = None /\
  present (q_director req0) = None /\
  handler "KEY" upstream req0 w0 = (MissingCriteria, w0).
Proof.
  repeat (split; [reflexivity|]).
  apply (C9_missing_criteria "KEY" upstream req0 w0); reflexivity.
Defined.

(** Three blanks as query: the title search is asked for the empty
    string. *)
Lemma C10_witness :
  let req := with_query "   " req0 in
  q_query req = Some "   "%string /\ onlyWhiteSpace "   " = true /\
  fst (handler "KEY" upstream req w0) <> MissingCriteria /\
  fetches (snd (handler "KEY" upstream req w0)) =
  [titleCall EmptyString None 1].
Proof.
  intros req.
  destruct (C10_whitespace_query "KEY" upstream req w0 "   "
              eq_refl eq_refl eq_refl eq_refl eq_refl eq_refl eq_refl)
    as [Hnot Hlog].
  split; [reflexivity|]. split; [reflexivity|]. split; [exact Hnot|].
  apply Hlog. vm_compute. reflexivity.
Defined.

(** The year bound on the sample clock (2026). *)
Example year_2031_accepted :
  year_rejected w0 "2031" = false /\ year_rejected w0 "2032" = true /\
  year_rejected w0 "1879" = true /\ year_rejected w0 "2010.5" = true /\
  year_rejected w0 "" = true /\ year_rejected w0 " 2010 " = false.
Proof. vm_compute. repeat split. Qed.

End Witness.

(** * Further properties *)

(** ** The JSON text of a parameter object can be read back *)

Lemma app_cons (c : ascii) (s t : string) :
  (String c s ++ t)%string = String c (s ++ t).
Proof. reflexivity. Qed.

Lemma app_nil (t : string) : (EmptyString ++ t)%string = t.
Proof. reflexivity. Qed.

Lemma string_app_assoc (a b c : string) :
  ((a ++ b) ++ c = a ++ (b ++ c))%string.
Proof.
  induction a as [|x a IH]; [reflexivity|].
  rewrite !app_cons. f_equal. exact IH.
Qed.

Lemma unescapeChar_escapeChar (c : ascii) (t : string) :
  unescapeChar (escapeChar c ++ t) = Some (c, t).
Proof. destruct c as [[] [] [] [] [] [] [] []]; reflexivity. Qed.

Lemma unescapeChar_dquote (t : string) :
  unescapeChar (String dquote t) = None.
Proof. reflexivity. Qed.

(** An escaped string ends at the first bare double quote. *)
Lemma escape_inj_tail (s1 s2 t1 t2 : string) :
  (escape s1 ++ String dquote t1 = escape s2 ++ String dquote t2)%string ->
  s1 = s2 /\ t1 = t2.
Proof.
  revert s2. induction s1 as [|c1 r1 IH]; intros [|c2 r2]; cbn [escape].
  - rewrite !app_nil. now intros [= ->].
  - rewrite string_app_assoc, app_nil. intros H.
    apply (f_equal unescapeChar) in H.
    rewrite unescapeChar_escapeChar in H. discriminate H.
  - rewrite string_app_assoc, app_nil. intros H.
    apply (f_equal unescapeChar) in H.
    rewrite unescapeChar_escapeChar in H. discriminate H.
  - rewrite !string_app_assoc. intros H.
    apply (f_equal unescapeChar) in H.
    rewrite !unescapeChar_escapeChar in H. injection H as -> H.
    destruct (IH _ H) as [-> ->]. auto.
Qed.

Lemma quote_inj_tail (s1 s2 t1 t2 : string) :
  (quote s1 ++ t1 = quote s2 ++ t2)%string -> s1 = s2 /\ t1 = t2.
Proof.
  unfold quote. rewrite !app_cons, !string_app_assoc, !app_cons, !app_nil.
  intros [= H]. now apply escape_inj_tail.
Qed.

Lemma spanDigits_no_digit (t : string) :
  no_digit_ahead t = true -> spanDigits t = (EmptyString, t).
Proof.
  destruct t as [|c r]; cbn; [reflexivity|].
  now intros ->%negb_true_iff.
Qed.

Lemma spanDigits_uint (d : Decimal.uint) (t : string) :
  no_digit_ahead t = true ->
  spanDigits (NilEmpty.string_of_uint d ++ t) = (NilEmpty.string_of_uint d, t).
Proof.
  intros Ht.
  induction d as [|d IH|d IH|d IH|d IH|d IH|d IH|d IH|d IH|d IH|d IH];
    cbn [NilEmpty.string_of_uint]; rewrite ?app_cons, ?app_nil;
    [now apply spanDigits_no_digit | ..];
    cbn [spanDigits]; rewrite IH; reflexivity.
Qed.

Lemma uint_head (d : Decimal.uint) :
  exists c r, NilZero.string_of_uint d = String c r /\ isDigit c = true.
Proof. destruct d; cbn; eauto. Qed.

Lemma NilZero_NilEmpty (d : Decimal.uint) :
  d <> Decimal.Nil -> NilZero.string_of_uint d = NilEmpty.string_of_uint d.
Proof. now destruct d. Qed.

(** The decimal text of an integer starts with a digit or a minus sign. *)
Lemma String_of_int_head (z : Z) :
  exists c r, String_of_int z = String c r /\
              (isDigit c = true \/ code c = 45).
Proof.
  unfold String_of_int.
  destruct z as [|p|p]; cbn [Z.to_int NilZero.string_of_int].
  - cbn. eauto.
  - destruct (uint_head (Pos.to_uint p)) as (c & r & -> & Hc). eauto.
  - cbn. eauto.
Qed.

Lemma spanNumeral_int (z : Z) (t : string) :
  no_digit_ahead t = true ->
  spanNumeral (String_of_int z ++ t) = (String_of_int z, t).
Proof.
  intros Ht. unfold String_of_int.
  destruct z as [|p|p]; cbn [Z.to_int NilZero.string_of_int].
  - apply (spanDigits_uint (Decimal.D0 Decimal.Nil) t Ht).
  - rewrite NilZero_NilEmpty by apply Unsigned.to_uint_nonnil.
    pose proof (spanDigits_uint (Pos.to_uint p) t Ht) as H.
    destruct (uint_head (Pos.to_uint p)) as (c & r & Hs & Hc).
    rewrite NilZero_NilEmpty in Hs by apply Unsigned.to_uint_nonnil.
    rewrite Hs in H |- *. rewrite app_cons in H |- *. cbn [spanNumeral].
    assert ((code c =? 45) = false) as ->.
    { unfold isDigit in Hc. apply andb_prop in Hc as [H1 H2]. lia. }
    exact H.
  - rewrite NilZero_NilEmpty by apply Unsigned.to_uint_nonnil.
    rewrite app_cons. cbn [spanNumeral].
    change (code "-" =? 45) with true. cbn iota.
    now rewrite spanDigits_uint.
Qed.

Lemma String_of_int_inj (z1 z2 : Z) :
  String_of_int z1 = String_of_int z2 -> z1 = z2.
Proof.
  unfold String_of_int. intros H.
  apply DecimalZ.to_int_inj.
  assert (Hok : forall z, NilZero.int_of_string
                            (NilZero.string_of_int (Z.to_int z)) =
                          Some (Z.to_int z)).
  { intros z. apply NilZero.isi; destruct z; cbn; try discriminate;
      intros [= E]; now apply Unsigned.to_uint_nonnil in E. }
  apply (f_equal NilZero.int_of_string) in H.
  rewrite !Hok in H. now injection H.
Qed.

(** A value is read back whatever follows it, a digit apart. *)
Lemma stringifyVal_inj_tail (v1 v2 : jsval) (t1 t2 : string) :
  no_digit_ahead t1 = true -> no_digit_ahead t2 = true ->
  (stringifyVal v1 ++ t1 = stringifyVal v2 ++ t2)%string ->
  v1 = v2 /\ t1 = t2.
Proof.
  intros H1 H2.
  assert (Hnum : forall n s t,
             (quote s ++ t)%string <> (String_of_int n ++ t1)%string /\
             (quote s ++ t)%string <> (String_of_int n ++ t2)%string).
  { intros n s t. destruct (String_of_int_head n) as (c & r & -> & Hc).
    unfold quote. rewrite !app_cons.
    split; intros [= Hq _]; subst c; destruct Hc as [Hc|Hc]; discriminate Hc. }
  assert (Hbool : forall n b t t', (stringifyVal (VBool b) ++ t)%string <>
                                   (String_of_int n ++ t')%string).
  { intros n b t t'. destruct (String_of_int_head n) as (c & r & -> & Hc).
    destruct b; cbn [stringifyVal]; rewrite !app_cons; intros [= Hq _];
      subst c; destruct Hc as [Hc|Hc]; discriminate Hc. }
  destruct v1 as [s1|n1|b1], v2 as [s2|n2|b2]; cbn [stringifyVal]; intros H.
  - destruct (quote_inj_tail _ _ _ _ H) as [-> ->]. auto.
  - now apply (Hnum n2 s1 t1) in H.
  - unfold quote in H. destruct b2; discriminate H.
  - symmetry in H. now apply (Hnum n1 s2 t2) in H.
  - pose proof (f_equal spanNumeral H) as Hs.
    rewrite !spanNumeral_int in Hs by assumption.
    injection Hs as Hn ->. apply String_of_int_inj in Hn. subst. auto.
  - symmetry in H. now apply (Hbool n1 b2 t2 t1) in H.
  - unfold quote in H. destruct b1; discriminate H.
  - now apply (Hbool n2 b1 t1 t2) in H.
  - destruct b1, b2; try discriminate H;
      (split; [reflexivity|]); injection H as H; exact H.
Qed.

Lemma stringifyMembers_cons (k : string) (v : jsval) (r : object) :
  stringifyMembers ((k, v) :: r) =
  (quote k ++ ":" ++ stringifyVal v ++
   match r with
   | [] => EmptyString
   | _ => "," ++ stringifyMembers r
   end)%string.
Proof.
  destruct r as [|[k' v'] r]; cbn [stringifyMembers]; [|reflexivity].
  f_equal. f_equal. induction (stringifyVal v) as [|c s IH]; [reflexivity|].
  rewrite app_cons. now f_equal.
Qed.

Lemma members_tail_no_digit (r : object) (t : string) :
  no_digit_ahead (match r with
                  | [] => EmptyString
                  | _ => "," ++ stringifyMembers r
                  end ++ "}" ++ t)%string = true.
Proof. destruct r; reflexivity. Qed.

Lemma stringifyMembers_inj_tail (o1 o2 : object) (t1 t2 : string) :
  (stringifyMembers o1 ++ "}" ++ t1 = stringifyMembers o2 ++ "}" ++ t2)%string ->
  o1 = o2 /\ t1 = t2.
Proof.
  revert o2. induction o1 as [|[k1 v1] r1 IH]; intros [|[k2 v2] r2].
  - cbn [stringifyMembers]. rewrite !app_nil, !app_cons, !app_nil.
    now intros [= ->].
  - rewrite stringifyMembers_cons. cbn [stringifyMembers]. unfold quote.
    rewrite !app_nil, !app_cons. intros H. discriminate H.
  - rewrite stringifyMembers_cons. cbn [stringifyMembers]. unfold quote.
    rewrite !app_nil, !app_cons. intros H. discriminate H.
  - rewrite !stringifyMembers_cons, !string_app_assoc. intros H.
    apply quote_inj_tail in H as [-> H].
    rewrite ?app_cons, ?app_nil in H. injection H as H.
    apply stringifyVal_inj_tail in H as [-> H];
      [|apply (members_tail_no_digit r1 t1)|apply (members_tail_no_digit r2 t2)].
    destruct r1 as [|p1 r1], r2 as [|p2 r2];
      rewrite ?app_nil, ?app_cons, ?app_nil in H.
    + now injection H as ->.
    + discriminate H.
    + discriminate H.
    + injection H as H.
      destruct (IH (p2 :: r2) H) as [-> ->]. auto.
Qed.

(** [JSON.stringify] gives different parameter objects different texts. *)
Lemma JSON_stringify_inj (o1 o2 : object) :
  JSON_stringify o1 = JSON_stringify o2 -> o1 = o2.
Proof.
  unfold JSON_stringify. rewrite !app_cons, !app_nil. intros [= H].
  change (stringifyMembers o1 ++ "}" ++ EmptyString =
          stringifyMembers o2 ++ "}" ++ EmptyString)%string in H.
  now apply stringifyMembers_inj_tail in H.
Qed.

Lemma bar_split (p1 p2 s1 s2 : string) :
  bar_free p1 = true -> bar_free p2 = true ->
  (p1 ++ String "|" s1 = p2 ++ String "|" s2)%string ->
  p1 = p2 /\ s1 = s2.
Proof.
  revert p2. induction p1 as [|c1 r1 IH]; intros [|c2 r2] H1 H2;
    rewrite ?app_nil, ?app_cons.
  - now intros [= ->].
  - intros [= <- _]. discriminate H2.
  - intros [= -> _]. discriminate H1.
  - intros [= -> H]. cbn [bar_free] in H1, H2.
    apply andb_prop in H1 as [_ H1]. apply andb_prop in H2 as [_ H2].
    destruct (IH _ H1 H2 H) as [-> ->]. auto.
Qed.

Lemma bar_free_app (a b : string) :
  bar_free a = true -> bar_free b = true -> bar_free (a ++ b) = true.
Proof.
  intros Ha Hb. induction a as [|c a IH]; [exact Hb|].
  rewrite app_cons. cbn [bar_free] in *.
  apply andb_prop in Ha as [-> Ha]. cbn. auto.
Qed.

Lemma bar_free_uint (d : Decimal.uint) :
  bar_free (NilEmpty.string_of_uint d) = true.
Proof. induction d; cbn [NilEmpty.string_of_uint bar_free]; auto. Qed.

Lemma bar_free_int (z : Z) : bar_free (String_of_int z) = true.
Proof.
  unfold String_of_int.
  destruct z as [|p|p]; cbn [Z.to_int NilZero.string_of_int]; [reflexivity| |].
  - rewrite NilZero_NilEmpty by apply Unsigned.to_uint_nonnil.
    apply bar_free_uint.
  - rewrite NilZero_NilEmpty by apply Unsigned.to_uint_nonnil.
    cbn [bar_free]. now rewrite bar_free_uint.
Qed.

Lemma bar_free_stripZeros (s : string) :
  bar_free s = true -> bar_free (stripZeros s) = true.
Proof.
  induction s as [|c r IH]; [reflexivity|].
  cbn [bar_free stripZeros]. intros [Hc Hr]%andb_prop.
  specialize (IH Hr).
  destruct (stripZeros r) as [|c' r'].
  - destruct (c =? "0")%char; [reflexivity|].
    cbn [bar_free]. now rewrite Hc.
  - cbn [bar_free] in IH |- *. now rewrite Hc, IH.
Qed.

Lemma bar_free_Number_toString (z : Z) :
  bar_free (Number_toString z) = true.
Proof.
  unfold Number_toString.
  destruct (Z.abs z <? 2 ^ 53); [apply bar_free_int|]. cbv zeta.
  set (digits := String_of_int _).
  apply bar_free_app; [destruct (z <? 0); reflexivity|].
  destruct (_ <=? 21); [apply bar_free_int|].
  pose proof (bar_free_stripZeros digits (bar_free_int _)) as H.
  destruct (stripZeros digits) as [|d [|d' r]]; [reflexivity| |].
  - cbn [bar_free] in H |- *. apply andb_prop in H as [-> _].
    cbn [andb]. change (bar_free ("e+" ++ String_of_int
      (Z.of_nat (String.length digits) - 1)) = true).
    apply bar_free_app; [reflexivity | apply bar_free_int].
  - set (r' := String d' r) in *.
    cbn [bar_free] in H |- *. apply andb_prop in H as [-> H].
    cbn [andb]. apply bar_free_app; [reflexivity|].
    apply bar_free_app; [exact H|].
    apply bar_free_app; [reflexivity | apply bar_free_int].
Qed.

Lemma cacheKey_inj (path1 path2 : string) (params1 params2 : object) :
  bar_free path1 = true -> bar_free path2 = true ->
  cacheKey path1 params1 = cacheKey path2 params2 ->
  path1 = path2 /\ params1 = params2.
Proof.
  intros H1 H2. unfold cacheKey. rewrite !app_cons, !app_nil. intros H.
  apply bar_split in H as [-> H]; [|assumption..].
  apply JSON_stringify_inj in H. auto.
Qed.

Lemma server_paths_bar_free :
  bar_free "/search/movie" = true /\ bar_free "/search/person" = true /\
  bar_free "/discover/movie" = true /\ bar_free "/genre/movie/list" = true /\
  bar_free "/trending/movie/week" = true /\
  forall movieId, bar_free (moviePath movieId) = true.
Proof.
  repeat split. intros movieId. unfold moviePath.
  apply bar_free_app; [reflexivity | apply bar_free_Number_toString].
Qed.
(** ** The cache key *)






Section KeyFacts.

Variable TMDB_API_KEY : string.
Variable axios_get : list call -> call -> option tmdb_doc.
Variable error_status : list call -> call -> option Z.

Local Abbreviation tmdbFetch := (tmdbFetch TMDB_API_KEY axios_get).
Local Abbreviation resolveCast := (resolveCast TMDB_API_KEY axios_get).
Local Abbreviation resolveDirector := (resolveDirector TMDB_API_KEY axios_get).
Local Abbreviation fetchMovies := (fetchMovies TMDB_API_KEY axios_get).
Local Abbreviation search := (search TMDB_API_KEY axios_get).
Local Abbreviation handler := (handler TMDB_API_KEY axios_get).
Local Abbreviation genresHandler := (genresHandler TMDB_API_KEY axios_get).
Local Abbreviation movieHandler :=
  (movieHandler TMDB_API_KEY axios_get error_status).
Local Abbreviation trendingHandler := (trendingHandler TMDB_API_KEY axios_get).
Local Abbreviation step := (step TMDB_API_KEY axios_get error_status).
Local Abbreviation run_events :=
  (run_events TMDB_API_KEY axios_get error_status).

Lemma builds_same {A} (m : M A) :
  (forall w, snd (m w) = w) -> builds ordered m.
Proof.
  intros H w. exists []. rewrite H, app_nil_r. split; [reflexivity|constructor].
Qed.


Lemma builds_throw {A} : builds ordered (@throw A).
Proof. now apply builds_same. Qed.














End KeyFacts.

(** ** The checks, one after the other *)

Lemma validate_eq (req : request) (w : world) :
  validate req w =
  if no_criteria req then (Return MissingCriteria, w)
  else if year_bad req w then (Return InvalidYear, w)
  else if page_bad req then (Return InvalidPage, w)
  else if genre_bad req then (Return InvalidGenre, w)
  else (Val (requestedPage req), w).
Proof.
  unfold validate, bind, requestedPage, no_criteria, year_bad, page_bad,
    genre_bad.
  destruct (negb (truthy (q_query req)) && negb (truthy (q_year req)) &&
            negb (truthy (q_genre req)) && negb (truthy (q_cast req)) &&
            negb (truthy (q_director req))); [reflexivity|].
  cbn [return_if ret].
  destruct (match q_year req with Some _ => _ | None => _ end);
    [reflexivity|].
  destruct (page_rejected _); [reflexivity|].
  destruct (match q_genre req with Some _ => _ | None => _ end);
    reflexivity.
Qed.

Lemma criteria_given_iff (req : request) :
  criteria_given req <-> no_criteria req = false.
Proof.
  unfold criteria_given, no_criteria.
  destruct (truthy (q_query req)), (truthy (q_year req)),
    (truthy (q_genre req)), (truthy (q_cast req)),
    (truthy (q_director req)); cbn; intuition congruence.
Qed.

Lemma year_ok_iff (req : request) (w : world) :
  year_ok req w <-> year_bad req w = false.
Proof.
  unfold year_ok, year_bad. destruct (q_year req) as [year|].
  - split; [auto | now intros H ? [= <-]].
  - split; [reflexivity | discriminate].
Qed.

Lemma year_bad_iff (req : request) (w : world) :
  (exists year, q_year req = Some year /\ year_rejected w year = true) <->
  year_bad req w = true.
Proof.
  unfold year_bad. destruct (q_year req) as [year|].
  - split; [now intros (? & [= <-] & H) | eauto].
  - split; [now intros (? & [=] & _) | discriminate].
Qed.

Lemma genre_ok_iff (req : request) :
  genre_ok req <-> genre_bad req = false.
Proof.
  unfold genre_ok, genre_bad. destruct (q_genre req) as [genre|].
  - rewrite negb_false_iff. split; [auto | now intros H ? [= <-]].
  - split; [reflexivity | discriminate].
Qed.

Lemma genre_bad_iff (req : request) :
  (exists genre, q_genre req = Some genre /\ test_digits genre = false) <->
  genre_bad req = true.
Proof.
  unfold genre_bad. destruct (q_genre req) as [genre|].
  - rewrite negb_true_iff. split; [now intros (? & [= <-] & H) | eauto].
  - split; [now intros (? & [=] & _) | discriminate].
Qed.

Lemma checks_pass_iff (req : request) (w : world) :
  checks_pass req w <->
  no_criteria req = false /\ year_bad req w = false /\
  page_bad req = false /\ genre_bad req = false.
Proof.
  rewrite <- criteria_given_iff, <- year_ok_iff, <- genre_ok_iff.
  reflexivity.
Qed.

Lemma page_rejected_spec (page : string) :
  page_rejected page = false <->
  exists p, integerValue (Number page) = Some p /\ 1 <= p <= 500.
Proof.
  unfold page_rejected. destruct (integerValue (Number page)) as [p|].
  - rewrite orb_false_iff, !Z.ltb_ge. split.
    + intros [? ?]. exists p. split; [reflexivity | lia].
    + intros (p' & [= <-] & ?). lia.
  - split; [discriminate | now intros (p & [=] & _)].
Qed.

Lemma requestedPage_range (req : request) :
  page_ok req -> 1 <= requestedPage req <= 500.
Proof.
  intros (p & Hp & H)%page_rejected_spec.
  unfold requestedPage, pageNum_of. now rewrite Hp.
Qed.

Section MoreServerFacts.

Variable TMDB_API_KEY : string.
Variable axios_get : list call -> call -> option tmdb_doc.

Local Abbreviation tmdbFetch := (tmdbFetch TMDB_API_KEY axios_get).
Local Abbreviation resolveCast := (resolveCast TMDB_API_KEY axios_get).
Local Abbreviation resolveDirector := (resolveDirector TMDB_API_KEY axios_get).
Local Abbreviation fetchMovies := (fetchMovies TMDB_API_KEY axios_get).
Local Abbreviation search := (search TMDB_API_KEY axios_get).
Local Abbreviation handler := (handler TMDB_API_KEY axios_get).
Local Abbreviation net := (netCall TMDB_API_KEY).

(** What the handler answers once the four checks have passed. *)
Lemma handler_checked_answer req w :
  checks_pass req w ->
  fst (handler req w) = CastTooLong \/
  fst (handler req w) = DirectorTooLong \/
  fst (handler req w) = UpstreamFailure \/
  fst (handler req w) = emptyResult (requestedPage req) \/
  exists data, fst (handler req w) = searchResult data (requestedPage req).
Proof.
  intros Hc. rewrite (handler_checked TMDB_API_KEY axios_get req w Hc).
  destruct (resolveCast req (requestedPage req) w) as [rc wc] eqn:Ec.
  pose proof (resolveCast_inv TMDB_API_KEY axios_get _ _ _ _ _ Ec) as Hrc.
  destruct rc as [castId|r|]; cbn [fst]; [| |auto].
  2:{ destruct Hrc as [(_ & [=] & _)|(cast & _ & [[[= ->] _]|(_ & _ & H)])];
        [auto|].
      destruct H as [[=]|[[= ->]|[id [=]]]]. auto. }
  destruct (resolveDirector req (requestedPage req) wc) as [rd w1] eqn:Ed.
  pose proof (resolveDirector_inv TMDB_API_KEY axios_get _ _ _ _ _ Ed) as Hrd.
  destruct rd as [directorId|r|]; cbn [fst]; [| |auto].
  2:{ destruct Hrd as [(_ & [=] & _)|(dir & _ & [[[= ->] _]|(_ & _ & H)])];
        [auto|].
      destruct H as [[=]|[[= ->]|[id [=]]]]. auto. }
  destruct (fetchMovies req (requestedPage req) castId directorId w1)
    as [[data|r|] w2] eqn:Ef; cbn [fst]; eauto 6.
  now apply fetchMovies_not_Return in Ef.
Qed.

Lemma handler_checked_not_rejected req w :
  checks_pass req w ->
  fst (handler req w) <> MissingCriteria /\
  fst (handler req w) <> InvalidYear /\
  fst (handler req w) <> InvalidPage /\
  fst (handler req w) <> InvalidGenre.
Proof.
  intros Hc.
  destruct (handler_checked_answer req w Hc) as [H|[H|[H|[H|[data H]]]]];
    rewrite H; repeat split; discriminate.
Qed.

(** The first check that fails decides the answer. *)
Lemma handler_cases req w :
  (no_criteria req = true /\ handler req w = (MissingCriteria, w)) \/
  (no_criteria req = false /\ year_bad req w = true /\
   handler req w = (InvalidYear, w)) \/
  (no_criteria req = false /\ year_bad req w = false /\
   page_bad req = true /\ handler req w = (InvalidPage, w)) \/
  (no_criteria req = false /\ year_bad req w = false /\
   page_bad req = false /\ genre_bad req = true /\
   handler req w = (InvalidGenre, w)) \/
  (no_criteria req = false /\ year_bad req w = false /\
   page_bad req = false /\ genre_bad req = false /\ checks_pass req w).
Proof.
  pose proof (validate_eq req w) as Hv.
  pose proof (checks_pass_iff req w) as Hc.
  destruct (no_criteria req);
    [left; split; [reflexivity | now apply handler_rejected]|].
  destruct (year_bad req w);
    [right; left; repeat split; now apply handler_rejected|].
  destruct (page_bad req);
    [right; right; left; repeat split; now apply handler_rejected|].
  destruct (genre_bad req);
    [right; right; right; left; repeat split; now apply handler_rejected|].
  right; right; right; right. do 4 (split; [reflexivity|]).
  apply Hc. auto.
Qed.

(** X2: the validation errors are reported in the order of the checks:
    [MissingCriteria] exactly when no criterion is given, [InvalidYear]
    exactly when a criterion is given and the year is rejected,
    [InvalidPage] exactly when criterion and year pass and the page is
    rejected, [InvalidGenre] exactly when the three pass and a genre is
    supplied that is not a string of digits; and a request that fails one
    of the four leaves the world as it was. *)
Theorem first_failing_check req w :
  (fst (handler req w) = MissingCriteria <-> ~ criteria_given req) /\
  (fst (handler req w) = InvalidYear <->
   criteria_given req /\
   exists year, q_year req = Some year /\ year_rejected w year = true) /\
  (fst (handler req w) = InvalidPage <->
   criteria_given req /\ year_ok req w /\
   page_rejected (default "1" (q_page req)) = true) /\
  (fst (handler req w) = InvalidGenre <->
   criteria_given req /\ year_ok req w /\ page_ok req /\
   exists genre, q_genre req = Some genre /\ test_digits genre = false) /\
  (~ checks_pass req w -> snd (handler req w) = w).
Proof.
  rewrite year_bad_iff, genre_bad_iff, criteria_given_iff, year_ok_iff.
  rewrite checks_pass_iff. unfold page_ok. fold (page_bad req).
  destruct (handler_cases req w)
    as [(-> & ->)|[(-> & -> & ->)|[(-> & -> & -> & ->)|
        [(-> & -> & -> & -> & ->)|(-> & -> & -> & -> & Hc)]]]];
    cbn [fst snd].
  1-4: repeat match goal with |- _ /\ _ => split end;
    solve [intuition (discriminate || congruence)].
  pose proof (handler_checked_not_rejected req w Hc) as Hne.
  repeat match goal with |- _ /\ _ => split end;
    solve [intuition (discriminate || congruence)].
Qed.


Lemma decimal_page (p : Z) :
  1 <= p <= 500 -> integerValue (Number (String_of_int p)) = Some p.
Proof.
  intros H. apply (decimal_roundtrip_spec 1 500); [|lia].
  vm_compute. reflexivity.
Qed.

Lemma handler_InvalidPage_iff req w :
  criteria_given req -> year_ok req w ->
  fst (handler req w) = InvalidPage <->
  page_rejected (default "1" (q_page req)) = true.
Proof.
  intros Hg%criteria_given_iff Hy%year_ok_iff. fold (page_bad req).
  destruct (handler_cases req w)
    as [(E & _)|[(_ & E & _)|[(_ & _ & -> & ->)|
        [(_ & _ & -> & _ & ->)|(_ & _ & -> & _ & Hc)]]]];
    try congruence; cbn [fst].
  - tauto.
  - split; discriminate.
  - apply handler_checked_not_rejected in Hc. split; [tauto|discriminate].
Qed.

(** X3: the page defaults to 1; a supplied page is rejected exactly when
    [Number(page)] is not an integer from 1 to 500; the decimal strings
    of 1 to 500 are accepted and are the page asked for. *)
Theorem page_bounds req w :
  criteria_given req -> year_ok req w ->
  (q_page req = None ->
   fst (handler req w) <> InvalidPage /\ requestedPage req = 1) /\
  (forall page,
      q_page req = Some page ->
      (fst (handler req w) = InvalidPage <->
       ~ exists p, integerValue (Number page) = Some p /\ 1 <= p <= 500)) /\
  (forall p,
      1 <= p <= 500 -> q_page req = Some (String_of_int p) ->
      fst (handler req w) <> InvalidPage /\ requestedPage req = p).
Proof.
  intros Hg Hy. pose proof (handler_InvalidPage_iff req w Hg Hy) as Hiff.
  split; [|split].
  - intros E. rewrite Hiff. unfold requestedPage. rewrite E.
    cbn [default from_option id].
    split.
    + vm_compute. discriminate.
    + vm_compute. reflexivity.
  - intros page E. rewrite Hiff, E. cbn [default from_option id].
    rewrite <- page_rejected_spec.
    destruct (page_rejected page); intuition congruence.
  - intros p Hp E. rewrite Hiff, E. cbn [default from_option id].
    pose proof (decimal_page p Hp) as HN. split.
    + assert (page_rejected (String_of_int p) = false); [|congruence].
      apply page_rejected_spec. eauto.
    + unfold requestedPage, pageNum_of. rewrite E. cbn [default from_option id].
      now rewrite HN.
Qed.

Lemma resolveCast_cases req page w :
  (present (q_cast req) = None /\ resolveCast req page w = (Val None, w)) \/
  (exists cast,
      present (q_cast req) = Some cast /\
      (((100 < String.length (trim cast))%nat /\
        resolveCast req page w = (Return CastTooLong, w)) \/
       ((String.length (trim cast) <= 100)%nat /\
        ((exists w',
             tmdbFetch (fst (personCall (trim cast)))
                       (snd (personCall (trim cast))) w = (Throw, w') /\
             resolveCast req page w = (Throw, w')) \/
         (exists d w',
             tmdbFetch (fst (personCall (trim cast)))
                       (snd (personCall (trim cast))) w = (Val d, w') /\
             no_results d = true /\
             resolveCast req page w = (Return (emptyResult page), w')) \/
         (exists d w',
             tmdbFetch (fst (personCall (trim cast)))
                       (snd (personCall (trim cast))) w = (Val d, w') /\
             no_results d = false /\
             resolveCast req page w = (Val (firstId d), w')))))).
Proof.
  destruct (present (q_cast req)) as [cast|] eqn:E.
  - right. exists cast. split; [reflexivity|].
    apply present_Some in E as [E Ht].
    rewrite (resolveCast_present TMDB_API_KEY axios_get req page w cast E Ht).
    destruct (100 <? Z.of_nat (String.length (trim cast))) eqn:El.
    + left. apply Z.ltb_lt in El. split; [lia | reflexivity].
    + right. apply Z.ltb_ge in El. split; [lia|].
      destruct (tmdbFetch (fst (personCall (trim cast)))
                          (snd (personCall (trim cast))) w)
        as [[d|r|] w'] eqn:Ef.
      * destruct (no_results d) eqn:En; eauto 10.
      * now apply tmdbFetch_not_Return in Ef.
      * eauto.
  - left. split; [reflexivity|].
    apply resolveCast_absent. now apply truthy_false_present.
Qed.

Lemma resolveDirector_cases req page w :
  (present (q_director req) = None /\
   resolveDirector req page w = (Val None, w)) \/
  (exists director,
      present (q_director req) = Some director /\
      (((100 < String.length (trim director))%nat /\
        resolveDirector req page w = (Return DirectorTooLong, w)) \/
       ((String.length (trim director) <= 100)%nat /\
        ((exists w',
             tmdbFetch (fst (personCall (trim director)))
                       (snd (personCall (trim director))) w = (Throw, w') /\
             resolveDirector req page w = (Throw, w')) \/
         (exists d w',
             tmdbFetch (fst (personCall (trim director)))
                       (snd (personCall (trim director))) w = (Val d, w') /\
             no_results d = true /\
             resolveDirector req page w = (Return (emptyResult page), w')) \/
         (exists d w',
             tmdbFetch (fst (personCall (trim director)))
                       (snd (personCall (trim director))) w = (Val d, w') /\
             no_results d = false /\
             resolveDirector req page w = (Val (firstId d), w')))))).
Proof.
  destruct (present (q_director req)) as [director|] eqn:E.
  - right. exists director. split; [reflexivity|].
    apply present_Some in E as [E Ht].
    rewrite (resolveDirector_present TMDB_API_KEY axios_get req page w
               director E Ht).
    destruct (100 <? Z.of_nat (String.length (trim director))) eqn:El.
    + left. apply Z.ltb_lt in El. split; [lia | reflexivity].
    + right. apply Z.ltb_ge in El. split; [lia|].
      destruct (tmdbFetch (fst (personCall (trim director)))
                          (snd (personCall (trim director))) w)
        as [[d|r|] w'] eqn:Ef.
      * destruct (no_results d) eqn:En; eauto 10.
      * now apply tmdbFetch_not_Return in Ef.
      * eauto.
  - left. split; [reflexivity|].
    apply resolveDirector_absent. now apply truthy_false_present.
Qed.

(** The answer of the movie phase is never a validation error. *)
Lemma movie_phase_answer req page castId directorId w1 :
  let a := match fetchMovies req page castId directorId w1 with
           | (Val data, w') => (searchResult data page, w')
           | (Return r, w') => (r, w')
           | (Throw, w') => (UpstreamFailure, w')
           end in
  fst a = UpstreamFailure \/ exists data, fst a = searchResult data page.
Proof.
  intros a. subst a.
  destruct (fetchMovies req page castId directorId w1) as [[data|r|] w']
    eqn:E; cbn [fst]; eauto.
  now apply fetchMovies_not_Return in E.
Qed.

Lemma movie_phase_cases req page castId directorId w1 :
  let a := match fetchMovies req page castId directorId w1 with
           | (Val data, w') => (searchResult data page, w')
           | (Return r, w') => (r, w')
           | (Throw, w') => (UpstreamFailure, w')
           end in
  fst a = UpstreamFailure \/ fst a = emptyResult page \/
  exists data, fst a = searchResult data page.
Proof.
  intros a. destruct (movie_phase_answer req page castId directorId w1);
    auto.
Qed.

Lemma cast_within (x : option string) (cast : string) (n : nat) :
  x = Some cast -> (String.length (trim cast) <= n)%nat ->
  forall c, x = Some c -> (String.length (trim c) <= n)%nat.
Proof. intros -> H c [= <-]. exact H. Qed.

(** What the handler does once the four checks have passed. *)
Lemma handler_checked_cases req w :
  checks_pass req w ->
  (exists cast,
      present (q_cast req) = Some cast /\
      (100 < String.length (trim cast))%nat /\
      handler req w = (CastTooLong, w)) \/
  ((forall cast, present (q_cast req) = Some cast ->
                 (String.length (trim cast) <= 100)%nat) /\
   ((exists director,
        present (q_director req) = Some director /\
        (100 < String.length (trim director))%nat /\
        fst (handler req w) = DirectorTooLong /\
        (present (q_cast req) = None -> snd (handler req w) = w)) \/
    ((present (q_cast req) = None ->
      forall director, present (q_director req) = Some director ->
                       (String.length (trim director) <= 100)%nat) /\
     (fst (handler req w) = UpstreamFailure \/
      fst (handler req w) = emptyResult (requestedPage req) \/
      exists data,
        fst (handler req w) = searchResult data (requestedPage req))))).
Proof.
  intros Hc. rewrite (handler_checked TMDB_API_KEY axios_get req w Hc).
  destruct (resolveCast_cases req (requestedPage req) w)
    as [(Ep & ->)|(cast & Ep & [(Hl & ->)|(Hl & [(w' & _ & ->)|
        [(d & w' & _ & _ & ->)|(d & w' & _ & _ & ->)]])])]; cbn [fst snd].
  - right. split; [intros cast; congruence|].
    destruct (resolveDirector_cases req (requestedPage req) w)
      as [(Ed & ->)|(dir & Ed & [(Hl & ->)|(Hl & [(w' & _ & ->)|
          [(d & w' & _ & _ & ->)|(d & w' & _ & _ & ->)]])])]; cbn [fst snd].
    + right. split; [intros _ director; congruence|].
      apply movie_phase_cases.
    + left. exists dir. auto.
    + right. split; [|auto].
      intros _ director Hd. rewrite Ed in Hd. injection Hd as <-. exact Hl.
    + right. split; [|auto].
      intros _ director Hd. rewrite Ed in Hd. injection Hd as <-. exact Hl.
    + right. split; [|apply movie_phase_cases].
      intros _ director Hd. rewrite Ed in Hd. injection Hd as <-. exact Hl.
  - left. exists cast. auto.
  - right. split; [exact (cast_within _ _ _ Ep Hl)|].
    right. split; [congruence | auto].
  - right. split; [exact (cast_within _ _ _ Ep Hl)|].
    right. split; [congruence | auto].
  - right. split; [exact (cast_within _ _ _ Ep Hl)|].
    destruct (resolveDirector_cases req (requestedPage req) w')
      as [(Ed & ->)|(dir & Ed & [(Hl' & ->)|(Hl' & [(w2 & _ & ->)|
          [(d' & w2 & _ & _ & ->)|(d' & w2 & _ & _ & ->)]])])]; cbn [fst snd].
    + right. split; [congruence|]. apply movie_phase_cases.
    + left. exists dir. repeat split; auto. congruence.
    + right. split; [congruence | auto].
    + right. split; [congruence | auto].
    + right. split; [congruence|]. apply movie_phase_cases.
Qed.

Lemma checks_pass_dec (req : request) (w : world) :
  checks_pass req w \/ ~ checks_pass req w.
Proof.
  rewrite checks_pass_iff.
  destruct (no_criteria req), (year_bad req w), (page_bad req),
    (genre_bad req); intuition congruence.
Qed.

(** A request that fails one of the four checks is answered with the
    error of that check and leaves the world as it was. *)
Lemma handler_unchecked req w :
  ~ checks_pass req w ->
  (fst (handler req w) = MissingCriteria \/
   fst (handler req w) = InvalidYear \/
   fst (handler req w) = InvalidPage \/
   fst (handler req w) = InvalidGenre) /\
  snd (handler req w) = w.
Proof.
  intros Hn.
  destruct (handler_cases req w)
    as [(_ & ->)|[(_ & _ & ->)|[(_ & _ & _ & ->)|
        [(_ & _ & _ & _ & ->)|(_ & _ & _ & _ & Hc)]]]]; cbn [fst snd];
    auto 6.
  contradiction.
Qed.

(** X4: the length of a name is checked after trimming, and only once
    the four checks have passed: the cast error is answered exactly when
    the checks pass and a cast name is present whose trimmed text is
    longer than 100, and the world is then left as it was; the director
    error is answered only for a present director name whose trimmed
    text is longer than 100, and, the cast name being absent, exactly
    then and with the world left as it was. *)
Theorem name_length_check req w :
  (fst (handler req w) = CastTooLong <->
   checks_pass req w /\
   exists cast, present (q_cast req) = Some cast /\
                (100 < String.length (trim cast))%nat) /\
  (fst (handler req w) = CastTooLong -> snd (handler req w) = w) /\
  (fst (handler req w) = DirectorTooLong ->
   checks_pass req w /\
   exists director, present (q_director req) = Some director /\
                    (100 < String.length (trim director))%nat) /\
  (checks_pass req w -> present (q_cast req) = None ->
   forall director,
     present (q_director req) = Some director ->
     (100 < String.length (trim director))%nat ->
     handler req w = (DirectorTooLong, w)).
Proof.
  destruct (checks_pass_dec req w) as [Hc|Hn].
  2:{ destruct (handler_unchecked req w Hn) as [[H|[H|[H|H]]] _];
        rewrite H; repeat split; try discriminate; tauto. }
  destruct (handler_checked_cases req w Hc)
    as [(cast & Ep & Hl & ->)|(Hcast & [(dir & Ed & Hl & E & Hw)|(Hdir & H)])];
    cbn [fst snd].
  - split; [|split; [|split]].
    + split; [intros _; split; [exact Hc | exists cast; auto] | reflexivity].
    + reflexivity.
    + discriminate.
    + intros _ Ec. congruence.
  - rewrite E. split; [|split; [|split]].
    + split; [discriminate|].
      intros (_ & cast & Ep & Hl'). apply Hcast in Ep. lia.
    + discriminate.
    + intros _. split; [exact Hc | exists dir; auto].
    + intros _ Ec director _ _.
      rewrite (surjective_pairing (handler req w)), E, (Hw Ec). reflexivity.
  - assert (Hne : fst (handler req w) <> CastTooLong /\
                  fst (handler req w) <> DirectorTooLong).
    { destruct H as [H|[H|[data H]]]; rewrite H; split; discriminate. }
    destruct Hne as [H1 H2]. split; [|split; [|split]].
    + split; [intros; contradiction|].
      intros (_ & cast & Ep & Hl'). apply Hcast in Ep. lia.
    + intros; contradiction.
    + intros; contradiction.
    + intros _ Ec director Ed Hl. specialize (Hdir Ec director Ed). lia.
Qed.

(** Every answer of the search route. *)
Lemma handler_answer req w :
  is_validation_error (fst (handler req w)) \/
  fst (handler req w) = UpstreamFailure \/
  (checks_pass req w /\
   (fst (handler req w) = emptyResult (requestedPage req) \/
    exists data, fst (handler req w) = searchResult data (requestedPage req))).
Proof.
  unfold is_validation_error.
  destruct (checks_pass_dec req w) as [Hc|Hn].
  - destruct (handler_checked_cases req w Hc)
      as [(cast & _ & _ & ->)|(_ & [(dir & _ & _ & -> & _)|(_ & H)])];
      cbn [fst]; [tauto | tauto |].
    destruct H as [H|[H|H]]; auto.
  - destruct (handler_unchecked req w Hn) as [H _]. tauto.
Qed.

Lemma not_validation_error_200 (r : response) :
  status r = 200 -> ~ is_validation_error r.
Proof. intros H Hv%validation_error_status. congruence. Qed.

(** X5: the search route answers 200, 400 or 502 and nothing else: 400
    exactly with one of the six validation errors, 502 exactly with the
    upstream failure message, and 200 exactly with a result body, which
    carries the page that was asked for, a number from 1 to 500; a 200
    is sent only when the four checks have passed. *)
Theorem answer_shape req w :
  let r := fst (handler req w) in
  (status r = 200 \/ status r = 400 \/ status r = 502) /\
  (status r = 400 <-> is_validation_error r) /\
  (status r = 502 <-> r = UpstreamFailure) /\
  (status r = 200 <->
   exists res total_res total_pgs,
     payload r = ResultBody res total_res total_pgs (requestedPage req)) /\
  (status r = 200 -> checks_pass req w /\ 1 <= requestedPage req <= 500).
Proof.
  intros r. subst r.
  destruct (handler_answer req w) as [Hv|[H|(Hc & H)]].
  - pose proof (validation_error_status _ Hv) as Hs. rewrite Hs.
    split; [auto|]. split; [tauto|]. split; [|split].
    + split; [discriminate|]. intros H. rewrite H in Hs. discriminate Hs.
    + split; [discriminate|]. intros (res & tr & tp & H).
      destruct Hv as [E|[E|[E|[E|[E|E]]]]]; rewrite E in H; discriminate H.
    + discriminate.
  - rewrite H. cbn [status payload UpstreamFailure].
    split; [auto|]. split; [|split; [|split]].
    + split; [discriminate|].
      intros Hv%validation_error_status. discriminate Hv.
    + tauto.
    + split; [discriminate | intros (res & tr & tp & E); discriminate E].
    + discriminate.
  - assert (Hs : status (fst (handler req w)) = 200 /\
                 exists res total_res total_pgs,
                   payload (fst (handler req w)) =
                   ResultBody res total_res total_pgs (requestedPage req)).
    { destruct H as [H|[data H]]; rewrite H; cbn; eauto. }
    destruct Hs as [Hs Hp]. rewrite Hs.
    split; [auto|]. split; [|split; [|split]].
    + split; [discriminate|].
      intros Hv%validation_error_status. congruence.
    + split; [discriminate|]. intros E. rewrite E in Hs. discriminate Hs.
    + tauto.
    + intros _. split; [exact Hc|].
      apply requestedPage_range, Hc.
Qed.

Lemma criteria_not_missing req w :
  criteria_given req -> fst (handler req w) <> MissingCriteria.
Proof.
  intros Hg%criteria_given_iff.
  destruct (handler_cases req w)
    as [(E & _)|[(_ & _ & ->)|[(_ & _ & _ & ->)|
        [(_ & _ & _ & _ & ->)|(_ & _ & _ & _ & Hc)]]]];
    try congruence; try discriminate.
  now apply handler_checked_not_rejected in Hc.
Qed.

(** ** The budget of a request *)

Lemma within_le {A} (k k' : nat) (m : M A) :
  within TMDB_API_KEY k m -> (k <= k')%nat -> within TMDB_API_KEY k' m.
Proof.
  intros H Hk w res w1 E.
  destruct (H w res w1 E) as (Hn & Hy & l & n & Hl & Hnet & H1 & H2).
  repeat split; auto. exists l, n. repeat split; auto. lia.
Qed.

Lemma within_same {A} (m : M A) :
  (forall w, snd (m w) = w) -> within TMDB_API_KEY 0 m.
Proof.
  intros H w res w1 E. pose proof (H w) as Hw. rewrite E in Hw.
  cbn [snd] in Hw. subst w1. repeat split.
  exists [], []. rewrite !app_nil_r.
  split; [reflexivity|]. split; [reflexivity|]. split; [constructor|auto].
Qed.

Lemma within_ret {A} (a : A) : within TMDB_API_KEY 0 (ret a).
Proof. now apply within_same. Qed.

Lemma within_throw {A} : within TMDB_API_KEY 0 (@throw A).
Proof. now apply within_same. Qed.

Lemma within_return_if (b : bool) (r : response) :
  within TMDB_API_KEY 0 (return_if b r).
Proof. apply within_same. now destruct b. Qed.

Lemma within_bind {A B} (k1 k2 : nat) (m : M A) (k : A -> M B) :
  within TMDB_API_KEY k1 m -> (forall a, within TMDB_API_KEY k2 (k a)) ->
  within TMDB_API_KEY (k1 + k2) (bind m k).
Proof.
  intros Hm Hk w res w2 E.
  apply bind_inv in E as [(a & w1 & Em & Ek)|[(r & Em & ->)|(Em & ->)]].
  - destruct (Hm _ _ _ Em) as (Hn & Hy & l & n & Hl & Hnet & H1 & H2).
    destruct (Hk a _ _ _ Ek) as (Hn' & Hy' & l' & n' & Hl' & Hnet' & H1' & H2').
    split; [congruence|]. split; [congruence|].
    exists (l ++ l')%list, (n ++ n')%list.
    rewrite Hl', Hl, Hnet', Hnet, !app_assoc, map_app, length_app.
    repeat split; [now apply sublist_app | lia].
  - destruct (Hm _ _ _ Em) as (Hn & Hy & l & n & Hl & Hnet & H1 & H2).
    repeat split; auto. exists l, n. repeat split; auto. lia.
  - destruct (Hm _ _ _ Em) as (Hn & Hy & l & n & Hl & Hnet & H1 & H2).
    repeat split; auto. exists l, n. repeat split; auto. lia.
Qed.

Lemma within_tmdbFetch path params :
  within TMDB_API_KEY 1 (tmdbFetch path params).
Proof.
  intros w res w1 E. unfold tmdbFetch in E.
  destruct (cache_get _ _) as [cached|].
  - injection E as <- <-. repeat split.
    exists [(path, params)], []. cbn. rewrite app_nil_r.
    repeat split; auto. apply sublist_nil_l.
  - destruct (axios_get _ _) as [data|]; injection E as <- <-;
      repeat split; exists [(path, params)], [net path params]; cbn;
      repeat split; auto.
Qed.

Lemma within_validate req : within TMDB_API_KEY 0 (validate req).
Proof. apply within_same, validate_world. Qed.

Lemma within_resolveCast req page :
  within TMDB_API_KEY 1 (resolveCast req page).
Proof.
  unfold resolveCast.
  destruct (q_cast req) as [cast|];
    [|apply (within_le 0), Nat.le_0_1; apply within_ret].
  destruct (truthyStr cast);
    [|apply (within_le 0), Nat.le_0_1; apply within_ret].
  apply (within_bind 0 1); [apply within_return_if|]. intros _.
  apply (within_bind 1 0); [apply within_tmdbFetch|]. intros d.
  apply (within_bind 0 0); [apply within_return_if|]. intros _.
  apply within_ret.
Qed.

Lemma within_resolveDirector req page :
  within TMDB_API_KEY 1 (resolveDirector req page).
Proof.
  unfold resolveDirector.
  destruct (q_director req) as [director|];
    [|apply (within_le 0), Nat.le_0_1; apply within_ret].
  destruct (truthyStr director);
    [|apply (within_le 0), Nat.le_0_1; apply within_ret].
  apply (within_bind 0 1); [apply within_return_if|]. intros _.
  apply (within_bind 1 0); [apply within_tmdbFetch|]. intros d.
  apply (within_bind 0 0); [apply within_return_if|]. intros _.
  apply within_ret.
Qed.

Lemma within_titleParams req page :
  within TMDB_API_KEY 0 (titleParams req page).
Proof.
  unfold titleParams, trim_query. apply (within_bind 0 0).
  - destruct (q_query req); [apply within_ret | apply within_throw].
  - intros q. apply within_ret.
Qed.

Lemma within_fetchMovies req page castId directorId :
  within TMDB_API_KEY 2 (fetchMovies req page castId directorId).
Proof.
  unfold fetchMovies. destruct (negb _).
  - apply (within_le (0 + 1)); [|lia].
    apply within_bind; [apply within_titleParams|].
    intros params. apply within_tmdbFetch.
  - apply (within_bind 1 1); [apply within_tmdbFetch|]. intros data.
    destruct (_ && _).
    + apply (within_bind 0 1); [apply within_titleParams|].
      intros params. apply within_tmdbFetch.
    + apply (within_le 0), Nat.le_0_1. apply within_ret.
Qed.

Lemma within_search req : within TMDB_API_KEY 4 (search req).
Proof.
  unfold search.
  apply (within_bind 0 4); [apply within_validate|]. intros pageNum.
  apply (within_bind 1 3); [apply within_resolveCast|]. intros castId.
  apply (within_bind 1 2); [apply within_resolveDirector|]. intros directorId.
  apply (within_bind 2 0); [apply within_fetchMovies|]. intros data.
  apply within_ret.
Qed.

Lemma handler_search req w :
  exists res, search req w = (res, snd (handler req w)).
Proof.
  unfold handler. destruct (search req w) as [[r|r|] w']; eauto.
Qed.

(** X6: a search leaves the clock alone and only appends to the logs:
    it makes at most four fetches (two person searches, the discovery
    and its fallback), and its network calls are the calls of some of
    these fetches, in their order, each to the base URL with the path of
    the fetch and with the API key put before the parameters of the
    fetch; so there are no more network calls than fetches. *)
Theorem search_budget req w :
  let w' := snd (handler req w) in
  now w' = now w /\ fullYear w' = fullYear w /\
  exists l n,
    fetches w' = (fetches w ++ l)%list /\
    netlog w' = (netlog w ++ n)%list /\
    sublist n (map (fun c => ((TMDB_BASE_URL ++ fst c)%string,
                              ("api_key", VStr TMDB_API_KEY) :: snd c)) l) /\
    (length n <= length l)%nat /\ (length l <= 4)%nat.
Proof.
  destruct (handler_search req w) as [res E].
  destruct (within_search req _ _ _ E)
    as (Hn & Hy & l & n & Hl & Hnet & Hs & Hk).
  split; [exact Hn|]. split; [exact Hy|]. exists l, n.
  split; [exact Hl|]. split; [exact Hnet|]. split; [exact Hs|].
  split; [|exact Hk].
  apply sublist_length in Hs. now rewrite length_map in Hs.
Qed.
End MoreServerFacts.

(** ** Invariants of the cache *)

Lemma preserves_same {A} (I : world -> Prop) (m : M A) :
  (forall w, snd (m w) = w) -> preserves I m.
Proof.
  intros H w res w1 E. pose proof (H w) as Hw. rewrite E in Hw.
  cbn [snd] in Hw. now subst w1.
Qed.

Lemma preserves_ret {A} (I : world -> Prop) (a : A) : preserves I (ret a).
Proof. now apply preserves_same. Qed.

Lemma preserves_throw {A} (I : world -> Prop) : preserves I (@throw A).
Proof. now apply preserves_same. Qed.

Lemma preserves_return_if (I : world -> Prop) (b : bool) (r : response) :
  preserves I (return_if b r).
Proof. apply preserves_same. now destruct b. Qed.

Lemma preserves_bind {A B} (I : world -> Prop) (m : M A) (k : A -> M B) :
  preserves I m -> (forall a, preserves I (k a)) -> preserves I (bind m k).
Proof.
  intros Hm Hk w res w2 E HI.
  apply bind_inv in E as [(a & w1 & Em & Ek)|[(r & Em & ->)|(Em & ->)]].
  - exact (Hk a _ _ _ Ek (Hm _ _ _ Em HI)).
  - exact (Hm _ _ _ Em HI).
  - exact (Hm _ _ _ Em HI).
Qed.

(** The three ways a fetch can go: a hit, a failed call, a stored
    answer. *)
Lemma tmdbFetch_effect key axios_get path params w res w1 :
  tmdbFetch key axios_get path params w = (res, w1) ->
  now w1 = now w /\ fullYear w1 = fullYear w /\
  fetches w1 = (fetches w ++ [(path, params)])%list /\
  ((exists d,
       res = Val d /\ cache_get (cacheKey path params) w = Some d /\
       cache w1 = cache w /\ netlog w1 = netlog w) \/
   (res = Throw /\ cache_get (cacheKey path params) w = None /\
    axios_get (netlog w) (netCall key path params) = None /\
    cache w1 = cache w /\
    netlog w1 = (netlog w ++ [netCall key path params])%list) \/
   (exists data,
       res = Val data /\ cache_get (cacheKey path params) w = None /\
       axios_get (netlog w) (netCall key path params) = Some data /\
       cache w1 =
       <[cacheKey path params := (data, now w + CACHE_TTL_SECONDS * 1000)]>
         (cache w) /\
       netlog w1 = (netlog w ++ [netCall key path params])%list)).
Proof.
  intros E.
  destruct (cache_get (cacheKey path params) w) as [d|] eqn:Eg.
  - rewrite (tmdbFetch_hit key axios_get _ _ _ _ Eg) in E.
    injection E as <- <-. repeat split. left. eauto.
  - rewrite (tmdbFetch_miss key axios_get _ _ _ Eg) in E.
    destruct (axios_get (netlog w) (netCall key path params)) as [data|]
      eqn:Ea; injection E as <- <-; repeat split.
    + right. right. exists data. auto.
    + right. left. auto.
Qed.

Lemma cache_get_Some key w d :
  cache_get key w = Some d <->
  exists expires, cache w !! key = Some (d, expires) /\ now w <= expires.
Proof.
  unfold cache_get. destruct (cache w !! key) as [[d' e]|].
  - destruct (e <? now w) eqn:E.
    + apply Z.ltb_lt in E. split; [discriminate|].
      intros (e' & [= <- <-] & H). lia.
    + apply Z.ltb_ge in E. split.
      * intros [= <-]. eauto.
      * now intros (e' & [= <- <-] & H).
  - split; [discriminate | now intros (e' & [=] & _)].
Qed.

Section Traffic.

Variable TMDB_API_KEY : string.
Variable axios_get : list call -> call -> option tmdb_doc.
Variable error_status : list call -> call -> option Z.

Local Abbreviation tmdbFetch := (tmdbFetch TMDB_API_KEY axios_get).
Local Abbreviation resolveCast := (resolveCast TMDB_API_KEY axios_get).
Local Abbreviation resolveDirector := (resolveDirector TMDB_API_KEY axios_get).
Local Abbreviation fetchMovies := (fetchMovies TMDB_API_KEY axios_get).
Local Abbreviation search := (search TMDB_API_KEY axios_get).
Local Abbreviation handler := (handler TMDB_API_KEY axios_get).
Local Abbreviation genresHandler := (genresHandler TMDB_API_KEY axios_get).
Local Abbreviation movieHandler :=
  (movieHandler TMDB_API_KEY axios_get error_status).
Local Abbreviation trendingHandler := (trendingHandler TMDB_API_KEY axios_get).
Local Abbreviation step := (step TMDB_API_KEY axios_get error_status).
Local Abbreviation run_events :=
  (run_events TMDB_API_KEY axios_get error_status).
Local Abbreviation net := (netCall TMDB_API_KEY).

Section Invariant.

Variable I : world -> Prop.

Hypothesis I_fetch :
  forall path params,
    bar_free path = true -> preserves I (tmdbFetch path params).

Hypothesis I_wait : forall dt w, 0 <= dt -> I w -> I (elapse dt w).

Hypothesis I_sweep : forall w, I w -> I (cache_sweep w).

Lemma preserves_resolveCast req page : preserves I (resolveCast req page).
Proof.
  unfold resolveCast.
  destruct (q_cast req) as [cast|]; [|apply preserves_ret].
  destruct (truthyStr cast); [|apply preserves_ret].
  apply preserves_bind; [apply preserves_return_if|]. intros _.
  apply preserves_bind; [now apply I_fetch|]. intros d.
  apply preserves_bind; [apply preserves_return_if|]. intros _.
  apply preserves_ret.
Qed.

Lemma preserves_resolveDirector req page :
  preserves I (resolveDirector req page).
Proof.
  unfold resolveDirector.
  destruct (q_director req) as [director|]; [|apply preserves_ret].
  destruct (truthyStr director); [|apply preserves_ret].
  apply preserves_bind; [apply preserves_return_if|]. intros _.
  apply preserves_bind; [now apply I_fetch|]. intros d.
  apply preserves_bind; [apply preserves_return_if|]. intros _.
  apply preserves_ret.
Qed.

Lemma preserves_titleParams req page : preserves I (titleParams req page).
Proof.
  unfold titleParams, trim_query. apply preserves_bind.
  - destruct (q_query req); [apply preserves_ret | apply preserves_throw].
  - intros q. apply preserves_ret.
Qed.

Lemma preserves_fetchMovies req page castId directorId :
  preserves I (fetchMovies req page castId directorId).
Proof.
  unfold fetchMovies. destruct (negb _).
  - apply preserves_bind; [apply preserves_titleParams|].
    intros params. now apply I_fetch.
  - apply preserves_bind; [now apply I_fetch|]. intros data.
    destruct (_ && _); [|apply preserves_ret].
    apply preserves_bind; [apply preserves_titleParams|].
    intros params. now apply I_fetch.
Qed.

Lemma preserves_search req : preserves I (search req).
Proof.
  unfold search.
  apply preserves_bind; [apply preserves_same, validate_world|].
  intros pageNum.
  apply preserves_bind; [apply preserves_resolveCast|]. intros castId.
  apply preserves_bind; [apply preserves_resolveDirector|]. intros directorId.
  apply preserves_bind; [apply preserves_fetchMovies|]. intros data.
  apply preserves_ret.
Qed.

Lemma handler_preserves req w : I w -> I (snd (handler req w)).
Proof.
  destruct (handler_search TMDB_API_KEY axios_get req w) as [res E].
  exact (preserves_search req _ _ _ E).
Qed.

Lemma genresHandler_preserves w : I w -> I (snd (genresHandler w)).
Proof.
  unfold genresHandler.
  destruct (tmdbFetch "/genre/movie/list" _ w) as [res w'] eqn:E.
  intros HI. apply (I_fetch "/genre/movie/list" _ eq_refl _ _ _ E) in HI.
  now destruct res.
Qed.

Lemma trendingHandler_preserves w : I w -> I (snd (trendingHandler w)).
Proof.
  unfold trendingHandler.
  destruct (tmdbFetch "/trending/movie/week" _ w) as [res w'] eqn:E.
  intros HI. apply (I_fetch "/trending/movie/week" _ eq_refl _ _ _ E) in HI.
  now destruct res.
Qed.

Lemma movieHandler_preserves id w : I w -> I (snd (movieHandler id w)).
Proof.
  unfold movieHandler. intros HI.
  destruct (integerValue (Number id)) as [movieId|]; [|exact HI].
  destruct (movieId <=? 0); [exact HI|].
  destruct (tmdbFetch (moviePath movieId) movieParams w) as [res w'] eqn:E.
  apply (I_fetch _ _ (proj2 (proj2 (proj2 (proj2 (proj2
           server_paths_bar_free)))) movieId) _ _ _ E) in HI.
  destruct res; [exact HI| |];
    destruct (error_status _ _) as [status|]; try exact HI;
    now destruct (status =? 404).
Qed.

Lemma step_preserves e w : forward e -> I w -> I (step e w).
Proof.
  destruct e as [dt| |req| |id|]; cbn [forward step].
  - apply I_wait.
  - intros _. apply I_sweep.
  - intros _. apply handler_preserves.
  - intros _. apply genresHandler_preserves.
  - intros _. apply movieHandler_preserves.
  - intros _. apply trendingHandler_preserves.
Qed.

Lemma run_events_preserves evs w :
  Forall forward evs -> I w -> I (run_events evs w).
Proof.
  intros H. revert w. induction H as [|e evs He _ IH]; intros w HI.
  - exact HI.
  - cbn [run_events]. apply IH. now apply step_preserves.
Qed.

End Invariant.

Lemma cache_sweep_Some key entry w :
  cache (cache_sweep w) !! key = Some entry <->
  cache w !! key = Some entry /\ now w <= snd entry.
Proof.
  unfold cache_sweep. cbn [cache set_cache snd].
  rewrite map_lookup_filter_Some. cbn [snd].
  rewrite negb_true_iff, Z.ltb_ge. reflexivity.
Qed.

Lemma sweep_bounded w : bounded w -> bounded (cache_sweep w).
Proof.
  intros H k d e [Hk _]%cache_sweep_Some. exact (H k d e Hk).
Qed.

Lemma sweep_genuine w :
  genuine TMDB_API_KEY axios_get w ->
  genuine TMDB_API_KEY axios_get (cache_sweep w).
Proof.
  intros H k d e [Hk _]%cache_sweep_Some. exact (H k d e Hk).
Qed.

Lemma tmdbFetch_bounded path params : preserves bounded (tmdbFetch path params).
Proof.
  intros w res w1 E HI k d e.
  destruct (tmdbFetch_effect _ _ _ _ _ _ _ E)
    as (Hn & _ & _ & [(d' & _ & _ & Hc & _)|[(_ & _ & _ & Hc & _)|
        (data & _ & Hg & _ & Hc & _)]]); rewrite Hc, Hn.
  - apply HI.
  - apply HI.
  - rewrite lookup_insert_Some. intros [(_ & [= <- <-])|(_ & H)];
      [lia | now apply HI in H].
Qed.

Lemma elapse_bounded dt w : 0 <= dt -> bounded w -> bounded (elapse dt w).
Proof.
  intros Hdt H k d e Hk. cbn in *. specialize (H k d e Hk). lia.
Qed.

Lemma tmdbFetch_genuine path params :
  bar_free path = true ->
  preserves (genuine TMDB_API_KEY axios_get) (tmdbFetch path params).
Proof.
  intros Hb w res w1 E HI k d e.
  destruct (tmdbFetch_effect _ _ _ _ _ _ _ E)
    as (Hn & _ & _ & [(d' & _ & _ & Hc & Hl)|[(_ & _ & _ & Hc & Hl)|
        (data & _ & Hg & Ha & Hc & Hl)]]); rewrite Hc, Hl.
  - apply HI.
  - intros (p & o & before & after & Hp & -> & Hlog & Hans)%HI.
    exists p, o, before, (after ++ [net path params])%list.
    rewrite Hlog, <- app_assoc. auto.
  - rewrite lookup_insert_Some. intros [(<- & [= <- <-])|(_ & H)].
    + exists path, params, (netlog w), []. auto.
    + apply HI in H as (p & o & before & after & Hp & -> & Hlog & Hans).
      exists p, o, before, (after ++ [net path params])%list.
      rewrite Hlog, <- app_assoc. auto.
Qed.

Lemma elapse_genuine dt w :
  genuine TMDB_API_KEY axios_get w ->
  genuine TMDB_API_KEY axios_get (elapse dt w).
Proof. intros H. exact H. Qed.

(** *** Concurrent fetches *)








(** X8: no entry outlives the time to live: when no entry of the cache
    expires later than 600 seconds from now, this stays so whatever the
    routes handle, and once more than 600 seconds have passed without a
    request every fetch misses and goes to the upstream. *)
Theorem entries_expire evs w :
  bounded w -> Forall forward evs ->
  bounded (run_events evs w) /\
  forall dt path params,
    CACHE_TTL_SECONDS * 1000 < dt ->
    let w1 := elapse dt (run_events evs w) in
    cache_get (cacheKey path params) w1 = None /\
    netlog (snd (tmdbFetch path params w1)) =
    (netlog w1 ++ [net path params])%list.
Proof.
  intros Hb Hf.
  assert (H : bounded (run_events evs w)).
  { apply run_events_preserves; [| | |exact Hf|exact Hb].
    - intros path params _. apply tmdbFetch_bounded.
    - intros dt w0. apply elapse_bounded.
    - apply sweep_bounded. }
  split; [exact H|]. intros dt path params Hdt w1.
  assert (Hg : cache_get (cacheKey path params) w1 = None).
  { destruct (cache_get _ w1) as [d|] eqn:E; [|reflexivity].
    apply cache_get_Some in E as (e & Hk & Hn). subst w1. cbn in Hk, Hn.
    apply H in Hk. lia. }
  split; [exact Hg|].
  rewrite (tmdbFetch_miss TMDB_API_KEY axios_get _ _ _ Hg).
  now destruct (axios_get _ _).
Qed.

(** X9: the cache never mixes up requests: when every entry holds what
    the upstream answered to a call for the request of its key, this
    stays so whatever the routes handle, and whatever a fetch then
    returns for a path and its parameters, from the cache or not, is
    what the upstream answered to a call that was issued for that path
    with those parameters. *)
Theorem fetched_document_genuine evs w path params d w2 :
  genuine TMDB_API_KEY axios_get w -> Forall forward evs ->
  bar_free path = true ->
  tmdbFetch path params (run_events evs w) = (Val d, w2) ->
  genuine TMDB_API_KEY axios_get w2 /\
  exists before after,
    netlog w2 = (before ++ net path params :: after)%list /\
    axios_get before (net path params) = Some d.
Proof.
  intros Hg Hf Hb E.
  assert (H : genuine TMDB_API_KEY axios_get (run_events evs w)).
  { apply run_events_preserves; [| | |exact Hf|exact Hg].
    - intros p o. apply tmdbFetch_genuine.
    - intros dt w0 _. apply elapse_genuine.
    - apply sweep_genuine. }
  split; [exact (tmdbFetch_genuine _ _ Hb _ _ _ E H)|].
  destruct (tmdbFetch_effect _ _ _ _ _ _ _ E)
    as (_ & _ & _ & [(d' & [= <-] & Hc & _ & Hl)|[([=] & _)|
        (data & [= <-] & _ & Ha & _ & Hl)]]); rewrite Hl.
  - apply cache_get_Some in Hc as (e & Hk & _).
    apply H in Hk as (p & o & before & after & Hp & Hkey & Hlog & Hans).
    apply cacheKey_inj in Hkey as [<- <-]; [|exact Hb|exact Hp].
    exists before, after. auto.
  - exists (netlog (run_events evs w)), []. auto.
Qed.

End Traffic.

(** ** The upstream client, once more *)

Section MoreCacheFacts.

Variable TMDB_API_KEY : string.
Variable axios_get : list call -> call -> option tmdb_doc.
Variable error_status : list call -> call -> option Z.

Local Abbreviation tmdbFetch := (tmdbFetch TMDB_API_KEY axios_get).
Local Abbreviation resolveCast := (resolveCast TMDB_API_KEY axios_get).
Local Abbreviation resolveDirector := (resolveDirector TMDB_API_KEY axios_get).
Local Abbreviation fetchMovies := (fetchMovies TMDB_API_KEY axios_get).
Local Abbreviation search := (search TMDB_API_KEY axios_get).
Local Abbreviation handler := (handler TMDB_API_KEY axios_get).
Local Abbreviation genresHandler := (genresHandler TMDB_API_KEY axios_get).
Local Abbreviation movieHandler :=
  (movieHandler TMDB_API_KEY axios_get error_status).
Local Abbreviation trendingHandler := (trendingHandler TMDB_API_KEY axios_get).
Local Abbreviation step := (step TMDB_API_KEY axios_get error_status).
Local Abbreviation run_events :=
  (run_events TMDB_API_KEY axios_get error_status).
Local Abbreviation net := (netCall TMDB_API_KEY).

Lemma cache_get_None_elapse key dt w :
  0 <= dt -> cache_get key w = None -> cache_get key (elapse dt w) = None.
Proof.
  intros Hdt H. destruct (cache_get key (elapse dt w)) as [d|] eqn:E;
    [|reflexivity].
  apply cache_get_Some in E as (e & Hk & Hn). cbn in Hk, Hn.
  assert (cache_get key w = Some d); [|congruence].
  apply cache_get_Some. exists e. split; [exact Hk | lia].
Qed.

(** X10: a failed call is not cached: when the fetch misses and
    [axios.get] throws, the fetch throws, the cache is left as it was
    and the network log has the call; a later fetch of the same request
    misses again and issues the call again. *)
Theorem failure_not_cached path params w :
  cache_get (cacheKey path params) w = None ->
  axios_get (netlog w) (net path params) = None ->
  let w1 := snd (tmdbFetch path params w) in
  fst (tmdbFetch path params w) = Throw /\
  cache w1 = cache w /\
  netlog w1 = (netlog w ++ [net path params])%list /\
  forall dt,
    0 <= dt ->
    netlog (snd (tmdbFetch path params (elapse dt w1))) =
    (netlog w1 ++ [net path params])%list.
Proof.
  intros Hg Ha w1. subst w1.
  rewrite (tmdbFetch_miss TMDB_API_KEY axios_get _ _ _ Hg), Ha.
  cbn [fst snd]. repeat split. intros dt Hdt.
  rewrite tmdbFetch_miss.
  - clear Ha. now destruct (axios_get _ _).
  - apply cache_get_None_elapse; [exact Hdt|]. exact Hg.
Qed.

(** X11: a fetch writes no entry but its own: the entry of any other
    request, be it another path or other parameters, is after the fetch
    what it was before. *)
Theorem fetch_touches_own_entry path params path' params' w :
  bar_free path = true -> bar_free path' = true ->
  (path', params') <> (path, params) ->
  cache (snd (tmdbFetch path params w)) !! cacheKey path' params' =
  cache w !! cacheKey path' params'.
Proof.
  intros Hb Hb' Hne.
  destruct (tmdbFetch path params w) as [res w1] eqn:E. cbn [snd].
  destruct (tmdbFetch_effect _ _ _ _ _ _ _ E)
    as (_ & _ & _ & [(d' & _ & _ & Hc & _)|[(_ & _ & _ & Hc & _)|
        (data & _ & _ & _ & Hc & _)]]); rewrite Hc; try reflexivity.
  apply lookup_insert_ne. intros Hk.
  apply cacheKey_inj in Hk as [-> ->]; [|assumption..].
  now apply Hne.
Qed.

(** ** Name resolution, end to end *)

Lemma handler_after_cast req w cast d w1 :
  checks_pass req w ->
  present (q_cast req) = Some cast ->
  (String.length (trim cast) <= 100)%nat ->
  tmdbFetch (fst (personCall (trim cast))) (snd (personCall (trim cast))) w =
  (Val d, w1) ->
  no_results d = false ->
  present (q_director req) = None ->
  fetches w1 = (fetches w ++ [personCall (trim cast)])%list /\
  handler req w =
  match fetchMovies req (requestedPage req) (firstId d) None w1 with
  | (Val data, w') => (searchResult data (requestedPage req), w')
  | (Return r, w') => (r, w')
  | (Throw, w') => (UpstreamFailure, w')
  end.
Proof.
  intros Hc Hp Hl Ef Hn Hd.
  assert (Hrc : resolveCast req (requestedPage req) w = (Val (firstId d), w1)).
  { apply present_Some in Hp as [Hq Ht].
    rewrite (resolveCast_present TMDB_API_KEY axios_get _ _ _ _ Hq Ht).
    assert (E : (100 <? Z.of_nat (String.length (trim cast))) = false)
      by (apply Z.ltb_ge; lia).
    now rewrite E, Ef, Hn. }
  split.
  - pose proof (tmdbFetch_fetches TMDB_API_KEY axios_get
                  (fst (personCall (trim cast)))
                  (snd (personCall (trim cast))) w) as H.
    rewrite Ef in H. exact H.
  - apply (handler_resolved TMDB_API_KEY axios_get req w w1 w1); auto.
    apply resolveDirector_absent. now apply truthy_false_present.
Qed.

Lemma firstId_cons d first rest :
  results d = Some (first :: rest) ->
  firstId d = Some (item_id first) /\ no_results d = false.
Proof. unfold firstId, no_results. now intros ->. Qed.

(** The fetches of the movie phase when it goes to discovery. *)
Lemma discover_phase req w w1 castId directorId :
  checks_pass req w ->
  useDiscover req castId directorId = true ->
  let page := requestedPage req in
  exists more,
    fetches (snd (match fetchMovies req page castId directorId w1 with
                  | (Val data, w') => (searchResult data page, w')
                  | (Return r, w') => (r, w')
                  | (Throw, w') => (UpstreamFailure, w')
                  end)) =
    (fetches w1 ++
     discoverCall (trim <$> present (q_query req)) (q_year req) (q_genre req)
       (String_of_int <$> presentId castId)
       (String_of_int <$> presentId directorId) page :: more)%list /\
    (more = [] \/
     exists q, present (q_query req) = Some q /\
               more = [titleCall (trim q) (q_year req) page]).
Proof.
  intros Hc Hu page. subst page.
  rewrite (fetchMovies_discover TMDB_API_KEY axios_get req w w1 _ _ Hc Hu).
  pose proof (tmdbFetch_fetches TMDB_API_KEY axios_get "/discover/movie"
                (discoverParams req (requestedPage req) castId directorId) w1)
    as HfD.
  rewrite (discoverParams_spec req w (requestedPage req) castId directorId
             Hc) in HfD.
  destruct (tmdbFetch "/discover/movie" _ w1) as [[data|r|] w2] eqn:E2;
    cbn [snd] in HfD.
  - destruct (present (q_query req)) as [q|] eqn:Eq.
    + destruct (no_results data).
      * pose proof (tmdbFetch_fetches TMDB_API_KEY axios_get "/search/movie"
                      (snd (titleCall (trim q) (q_year req)
                                      (requestedPage req))) w2) as HfT.
        destruct (tmdbFetch "/search/movie" _ w2) as [[data'|r|] w3];
          cbn [snd] in HfT |- *;
          exists [titleCall (trim q) (q_year req) (requestedPage req)];
          (split; [|right; eauto]);
          rewrite HfT, HfD, <- !app_assoc; reflexivity.
      * exists []. split; [|auto]. cbn [snd]. exact HfD.
    + exists []. split; [|auto]. cbn [snd]. exact HfD.
  - exists []. split; [|auto]. cbn [snd]. exact HfD.
  - exists []. split; [|auto]. cbn [snd]. exact HfD.
Qed.

Lemma useDiscover_id req (castId directorId : option Z) :
  presentId castId <> None \/ presentId directorId <> None ->
  useDiscover req castId directorId = true.
Proof.
  intros H. unfold useDiscover.
  assert (truthyInt castId = true \/ truthyInt directorId = true) as [->| ->].
  { destruct H as [H|H]; [left|right]; now apply truthyInt_presentId. }
  - now rewrite orb_true_r.
  - now rewrite !orb_true_r.
Qed.

Lemma presentId_nonzero (z : Z) : z <> 0 -> presentId (Some z) = Some z.
Proof. intros H. cbn. apply Z.eqb_neq in H. now rewrite H. Qed.

(** X12: the person id handed to discovery is the id of the first
    result of the person search: for a present cast name of at most 100
    characters after trimming, no director, and a person search that
    answers with a first result whose id is not zero, the handler
    fetches the person search for the trimmed name and then discovery
    with [with_cast] the decimal text of that id, whatever else the
    request holds; the only fetch that can follow is the fallback. *)
Theorem cast_resolved_to_first_result req w cast d w1 first rest :
  checks_pass req w ->
  present (q_cast req) = Some cast ->
  (String.length (trim cast) <= 100)%nat ->
  present (q_director req) = None ->
  tmdbFetch (fst (personCall (trim cast))) (snd (personCall (trim cast))) w =
  (Val d, w1) ->
  results d = Some (first :: rest) ->
  item_id first <> 0 ->
  let page := requestedPage req in
  let D := discoverCall (trim <$> present (q_query req)) (q_year req)
             (q_genre req) (Some (String_of_int (item_id first))) None page in
  exists more,
    fetches (snd (handler req w)) =
    (fetches w ++ personCall (trim cast) :: D :: more)%list /\
    (more = [] \/
     exists q, present (q_query req) = Some q /\
               more = [titleCall (trim q) (q_year req) page]).
Proof.
  intros Hc Hp Hl Hd Ef Hr Hid page D.
  destruct (firstId_cons _ _ _ Hr) as [Hf Hn].
  destruct (handler_after_cast req w cast d w1 Hc Hp Hl Ef Hn Hd)
    as [Hlog ->].
  rewrite Hf.
  destruct (discover_phase req w w1 (Some (item_id first)) None Hc)
    as (more & Hm & Hmore).
  { apply useDiscover_id. left. now rewrite presentId_nonzero. }
  exists more. split; [|exact Hmore].
  cbn zeta in Hm.
  rewrite Hm, Hlog, presentId_nonzero, <- app_assoc by exact Hid.
  reflexivity.
Qed.

(** X22: with both names given, the cast name is looked up first and
    the director name second, and discovery gets the two first ids,
    the cast id as [with_cast] and the director id as [with_crew]. *)
Theorem names_resolved_in_order req w cast director dc dd w1 w2
        firstc restc firstd restd :
  checks_pass req w ->
  present (q_cast req) = Some cast ->
  (String.length (trim cast) <= 100)%nat ->
  present (q_director req) = Some director ->
  (String.length (trim director) <= 100)%nat ->
  tmdbFetch (fst (personCall (trim cast))) (snd (personCall (trim cast))) w =
  (Val dc, w1) ->
  results dc = Some (firstc :: restc) ->
  item_id firstc <> 0 ->
  tmdbFetch (fst (personCall (trim director)))
            (snd (personCall (trim director))) w1 = (Val dd, w2) ->
  results dd = Some (firstd :: restd) ->
  item_id firstd <> 0 ->
  let page := requestedPage req in
  let D := discoverCall (trim <$> present (q_query req)) (q_year req)
             (q_genre req) (Some (String_of_int (item_id firstc)))
             (Some (String_of_int (item_id firstd))) page in
  exists more,
    fetches (snd (handler req w)) =
    (fetches w ++
     personCall (trim cast) :: personCall (trim director) :: D :: more)%list /\
    (more = [] \/
     exists q, present (q_query req) = Some q /\
               more = [titleCall (trim q) (q_year req) page]).
Proof.
  intros Hc Hpc Hlc Hpd Hld Efc Hrc Hidc Efd Hrd Hidd page D.
  destruct (firstId_cons _ _ _ Hrc) as [Hfc Hnc].
  destruct (firstId_cons _ _ _ Hrd) as [Hfd Hnd].
  assert (Hcast : resolveCast req page w = (Val (Some (item_id firstc)), w1)).
  { apply present_Some in Hpc as [Hq Ht].
    rewrite (resolveCast_present TMDB_API_KEY axios_get _ _ _ _ Hq Ht).
    assert (E : (100 <? Z.of_nat (String.length (trim cast))) = false)
      by (apply Z.ltb_ge; lia).
    now rewrite E, Efc, Hnc, Hfc. }
  assert (Hdir : resolveDirector req page w1 =
                 (Val (Some (item_id firstd)), w2)).
  { apply present_Some in Hpd as [Hq Ht].
    rewrite (resolveDirector_present TMDB_API_KEY axios_get _ _ _ _ Hq Ht).
    assert (E : (100 <? Z.of_nat (String.length (trim director))) = false)
      by (apply Z.ltb_ge; lia).
    now rewrite E, Efd, Hnd, Hfd. }
  rewrite (handler_resolved TMDB_API_KEY axios_get req w w1 w2 _ _
             Hc Hcast Hdir).
  destruct (discover_phase req w w2 (Some (item_id firstc))
              (Some (item_id firstd)) Hc) as (more & Hm & Hmore).
  { apply useDiscover_id. left. now rewrite presentId_nonzero. }
  exists more. split; [|exact Hmore].
  pose proof (tmdbFetch_fetches TMDB_API_KEY axios_get
                (fst (personCall (trim cast)))
                (snd (personCall (trim cast))) w) as H1.
  pose proof (tmdbFetch_fetches TMDB_API_KEY axios_get
                (fst (personCall (trim director)))
                (snd (personCall (trim director))) w1) as H2.
  rewrite Efc in H1. rewrite Efd in H2. cbn [snd] in H1, H2.
  cbn zeta in Hm.
  rewrite Hm, H2, H1, !presentId_nonzero, <- !app_assoc by assumption.
  reflexivity.
Qed.

(** X23: a name that is all blanks is not rejected and not skipped: it
    is truthy, its trimmed text is empty, and the handler looks up the
    empty name: the first fetch of a checked request with a blank cast
    name is the person search for the empty text. *)
Theorem blank_cast_name req w cast :
  checks_pass req w ->
  present (q_cast req) = Some cast ->
  onlyWhiteSpace cast = true ->
  exists more,
    fetches (snd (handler req w)) =
    (fetches w ++ personCall EmptyString :: more)%list.
Proof.
  intros Hc Hp Hb.
  pose proof (trim_onlyWhiteSpace cast Hb) as Ht.
  rewrite (handler_checked TMDB_API_KEY axios_get req w Hc).
  pose proof (tmdbFetch_fetches TMDB_API_KEY axios_get
                (fst (personCall EmptyString))
                (snd (personCall EmptyString)) w) as H1.
  destruct (resolveCast_cases TMDB_API_KEY axios_get req (requestedPage req) w)
    as [(Ep & _)|(cast' & Ep & H)]; [congruence|].
  assert (cast' = cast) as -> by congruence. rewrite Ht in H.
  destruct H as [(Hl & _)|(_ & [(w' & Ef & ->)|
      [(d & w' & Ef & _ & ->)|(d & w' & Ef & _ & ->)]])].
  - cbn in Hl. lia.
  - rewrite Ef in H1. exists []. exact H1.
  - rewrite Ef in H1. exists []. exact H1.
  - rewrite Ef in H1. cbn [snd] in H1.
    destruct (resolveDirector_fetches TMDB_API_KEY axios_get req
                (requestedPage req) w') as (l1 & Hl1 & _).
    destruct (resolveDirector req (requestedPage req) w')
      as [[directorId|r|] w2]; cbn [snd] in Hl1 |- *.
    + destruct (fetchMovies_fetches TMDB_API_KEY axios_get req
                  (requestedPage req) (firstId d) directorId w2)
        as (l2 & Hl2 & _).
      exists (l1 ++ l2)%list.
      destruct (fetchMovies req (requestedPage req) (firstId d) directorId w2)
        as [[data|r|] w3]; cbn [snd] in Hl2 |- *;
        rewrite Hl2, Hl1, H1, <- !app_assoc; reflexivity.
    + exists l1. rewrite Hl1, H1, <- !app_assoc. reflexivity.
    + exists l1. rewrite Hl1, H1, <- !app_assoc. reflexivity.
Qed.

(** X13: a person id of zero counts as no id: with a cast name as the
    only criterion and a person search whose first result has id 0, no
    filter is left for discovery and there is no title to search for;
    the handler answers 502 and fetches no movie. *)
Theorem zero_id_is_no_filter req w cast d w1 first rest :
  checks_pass req w ->
  q_query req = None -> q_year req = None -> q_genre req = None ->
  present (q_director req) = None ->
  present (q_cast req) = Some cast ->
  (String.length (trim cast) <= 100)%nat ->
  tmdbFetch (fst (personCall (trim cast))) (snd (personCall (trim cast))) w =
  (Val d, w1) ->
  results d = Some (first :: rest) ->
  item_id first = 0 ->
  handler req w = (UpstreamFailure, w1) /\
  fetches w1 = (fetches w ++ [personCall (trim cast)])%list.
Proof.
  intros Hc Hq Hy Hg Hd Hp Hl Ef Hr Hid.
  destruct (firstId_cons _ _ _ Hr) as [Hf Hn].
  destruct (handler_after_cast req w cast d w1 Hc Hp Hl Ef Hn Hd)
    as [Hlog ->].
  split; [|exact Hlog].
  rewrite Hf, Hid. unfold fetchMovies, useDiscover, titleParams, trim_query.
  rewrite Hq, Hy, Hg. reflexivity.
Qed.

End MoreCacheFacts.

(** ** The other routes *)

Section RouteFacts.

Variable TMDB_API_KEY : string.
Variable axios_get : list call -> call -> option tmdb_doc.
Variable error_status : list call -> call -> option Z.

Local Abbreviation tmdbFetch := (tmdbFetch TMDB_API_KEY axios_get).
Local Abbreviation handler := (handler TMDB_API_KEY axios_get).
Local Abbreviation genresHandler := (genresHandler TMDB_API_KEY axios_get).
Local Abbreviation movieHandler :=
  (movieHandler TMDB_API_KEY axios_get error_status).
Local Abbreviation trendingHandler := (trendingHandler TMDB_API_KEY axios_get).
Local Abbreviation step := (step TMDB_API_KEY axios_get error_status).
Local Abbreviation run_events :=
  (run_events TMDB_API_KEY axios_get error_status).
Local Abbreviation net := (netCall TMDB_API_KEY).

Lemma movieHandler_invalid id w :
  ~ (exists n, integerValue (Number id) = Some n /\ 0 < n) ->
  movieHandler id w = (InvalidMovieId, w).
Proof.
  intros H. unfold movieHandler.
  destruct (integerValue (Number id)) as [n|]; [|reflexivity].
  destruct (n <=? 0) eqn:E; [reflexivity|].
  apply Z.leb_gt in E. contradict H. eauto.
Qed.

Lemma movieHandler_valid id n w :
  integerValue (Number id) = Some n -> 0 < n ->
  movieHandler id w =
  match tmdbFetch (moviePath n) movieParams w with
  | (Val data, w') => (route_ok data, w')
  | (_, w') =>
      if match error_status (netlog w) (net (moviePath n) movieParams) with
         | Some status => status =? 404
         | None => false
         end
      then (MovieNotFound, w') else (MovieFailure, w')
  end.
Proof.
  intros E Hn. unfold movieHandler. rewrite E.
  assert (E0 : (n <=? 0) = false) by (apply Z.leb_gt; lia). rewrite E0.
  destruct (tmdbFetch (moviePath n) movieParams w) as [[data|r|] w'];
    [reflexivity| |];
    destruct (error_status _ _) as [status|]; reflexivity.
Qed.

Lemma movie_id_dec id :
  (exists n, integerValue (Number id) = Some n /\ 0 < n) \/
  ~ (exists n, integerValue (Number id) = Some n /\ 0 < n).
Proof.
  destruct (integerValue (Number id)) as [n|].
  - destruct (Z.lt_ge_cases 0 n); [left; eauto|].
    right. intros (n' & [= <-] & H'). lia.
  - right. now intros (n' & [=] & _).
Qed.

(** X14: the movie route answers 400 with the message of the code
    exactly when [Number(id)] is not a positive integer, and then does
    nothing else; for a positive integer it makes one fetch, of the path
    that ends in the number as JavaScript prints it (all the digits of a
    number below 2^53, so that two texts of the same number share the
    fetch) with the five appended sections, and answers 200 with the
    document as it came. *)
Theorem movie_id_check id w :
  let invalid := {| r_status := 400;
                    r_payload := RouteError "Invalid movie ID." |} in
  (fst (movieHandler id w) = invalid <->
   ~ exists n, integerValue (Number id) = Some n /\ 0 < n) /\
  (fst (movieHandler id w) = invalid -> snd (movieHandler id w) = w) /\
  (forall n,
      integerValue (Number id) = Some n -> 0 < n ->
      let path := ("/movie/" ++ Number_toString n)%string in
      let params :=
        [("append_to_response",
          VStr "credits,videos,images,recommendations,reviews")] in
      (n < 2 ^ 53 -> path = ("/movie/" ++ String_of_int n)%string) /\
      fetches (snd (movieHandler id w)) =
      (fetches w ++ [(path, params)])%list /\
      forall d w1,
        tmdbFetch path params w = (Val d, w1) ->
        movieHandler id w =
        ({| r_status := 200; r_payload := RouteDocument d |}, w1)).
Proof.
  cbv zeta. change {| r_status := 400; r_payload := _ |} with InvalidMovieId.
  destruct (movie_id_dec id) as [(n & E & Hn)|Hbad].
  - pose proof (movieHandler_valid id n w E Hn) as Hv.
    pose proof (tmdbFetch_fetches TMDB_API_KEY axios_get (moviePath n)
                  movieParams w) as Hf.
    assert (Hne : fst (movieHandler id w) <> InvalidMovieId).
    { rewrite Hv.
      destruct (tmdbFetch (moviePath n) movieParams w) as [[data|r|] w'];
        [discriminate| |];
        destruct (match error_status _ _ with Some _ => _ | None => _ end);
        discriminate. }
    split; [|split].
    + split; [contradiction|]. intros H. contradict H. eauto.
    + contradiction.
    + intros n' E' _. assert (n' = n) as -> by congruence.
      change ("/movie/" ++ Number_toString n)%string with (moviePath n).
      change [("append_to_response", _)] with movieParams.
      split; [|split].
      * intros Hlt. unfold moviePath, Number_toString.
        assert (Hs : (Z.abs n <? 2 ^ 53) = true) by (apply Z.ltb_lt; lia).
        now rewrite Hs.
      * rewrite Hv.
        destruct (tmdbFetch (moviePath n) movieParams w) as [[data|r|] w'];
          [exact Hf| |];
          destruct (match error_status _ _ with Some _ => _ | None => _ end);
          exact Hf.
      * intros d w1 Ef. now rewrite Hv, Ef.
  - rewrite (movieHandler_invalid id w Hbad). cbn [fst snd].
    split; [tauto|]. split; [reflexivity|].
    intros n E Hn. contradict Hbad. eauto.
Qed.

(** X15: the movie route answers 404 with the message of the code
    exactly when the fetch of the movie failed and the upstream had
    answered 404, and 502 exactly when the fetch failed otherwise: with
    another status or with no answer at all; in both cases the cache is
    left as it was. *)
Theorem movie_failure_status id w :
  let notFound := {| r_status := 404;
                     r_payload := RouteError "Movie not found." |} in
  let failure :=
    {| r_status := 502;
       r_payload := RouteError "Failed to fetch movie details from TMDB." |} in
  (fst (movieHandler id w) = notFound <->
   exists n w1,
     integerValue (Number id) = Some n /\ 0 < n /\
     tmdbFetch (moviePath n) movieParams w = (Throw, w1) /\
     error_status (netlog w) (net (moviePath n) movieParams) = Some 404) /\
  (fst (movieHandler id w) = failure <->
   exists n w1,
     integerValue (Number id) = Some n /\ 0 < n /\
     tmdbFetch (moviePath n) movieParams w = (Throw, w1) /\
     error_status (netlog w) (net (moviePath n) movieParams) <> Some 404) /\
  (fst (movieHandler id w) = notFound \/
   fst (movieHandler id w) = failure ->
   cache (snd (movieHandler id w)) = cache w).
Proof.
  cbv zeta. change {| r_status := 404; r_payload := _ |} with MovieNotFound.
  change {| r_status := 502; r_payload := _ |} with MovieFailure.
  destruct (movie_id_dec id) as [(n & E & Hn)|Hbad].
  2:{ rewrite (movieHandler_invalid id w Hbad). cbn [fst snd].
      split; [|split].
      - split; [discriminate|]. intros (n & w1 & E & Hn & _).
        contradict Hbad. eauto.
      - split; [discriminate|]. intros (n & w1 & E & Hn & _).
        contradict Hbad. eauto.
      - reflexivity. }
  rewrite (movieHandler_valid id n w E Hn).
  assert (Hs : match error_status (netlog w) (net (moviePath n) movieParams)
               with Some status => status =? 404 | None => false end = true
               <-> error_status (netlog w) (net (moviePath n) movieParams)
                   = Some 404).
  { destruct (error_status _ _) as [status|]; [|split; discriminate].
    rewrite Z.eqb_eq. split; congruence. }
  destruct (tmdbFetch (moviePath n) movieParams w) as [[data|r|] w'] eqn:Ef.
  - cbn [fst snd]. split; [|split].
    + split; [discriminate|]. intros (n' & w1 & E' & _ & Ef' & _).
      assert (n' = n) as -> by congruence. congruence.
    + split; [discriminate|]. intros (n' & w1 & E' & _ & Ef' & _).
      assert (n' = n) as -> by congruence. congruence.
    + intros [H|H]; discriminate H.
  - now apply tmdbFetch_not_Return in Ef.
  - destruct (tmdbFetch_effect _ _ _ _ _ _ _ Ef)
      as (_ & _ & _ & [(d' & [=] & _)|[(_ & _ & _ & Hc & _)|
          (data & [=] & _)]]).
    destruct (match error_status _ _ with Some _ => _ | None => _ end)
      eqn:Em; cbn [fst snd].
    + pose proof (proj1 Hs eq_refl) as H404. split; [|split].
      * split; [intros _; exists n, w'; auto|reflexivity].
      * split; [discriminate|]. intros (n' & w1 & E' & _ & _ & Hne).
        assert (n' = n) as -> by congruence. contradiction.
      * intros _. exact Hc.
    + assert (Hne : error_status (netlog w) (net (moviePath n) movieParams)
                    <> Some 404).
      { intros H. apply Hs in H. discriminate H. }
      split; [|split].
      * split; [discriminate|]. intros (n' & w1 & E' & _ & _ & H404).
        assert (n' = n) as -> by congruence. contradiction.
      * split; [intros _; exists n, w'; auto|reflexivity].
      * intros _. exact Hc.
Qed.

(** X16: the genre list and the trending list each come from one fetch
    with fixed parameters, which either gives a document or fails; the
    document is answered 200 as it came, and a failed fetch is answered
    502 with the message of the route. *)
Theorem lists_pass_through w :
  let G := ("/genre/movie/list", [("language", VStr "en")]) in
  let T := ("/trending/movie/week", []) in
  (fetches (snd (genresHandler w)) = (fetches w ++ [G])%list /\
   ((exists d w1, tmdbFetch (fst G) (snd G) w = (Val d, w1)) \/
    (exists w1, tmdbFetch (fst G) (snd G) w = (Throw, w1))) /\
   (forall d w1,
       tmdbFetch (fst G) (snd G) w = (Val d, w1) ->
       genresHandler w =
       ({| r_status := 200; r_payload := RouteDocument d |}, w1)) /\
   (forall w1,
       tmdbFetch (fst G) (snd G) w = (Throw, w1) ->
       genresHandler w =
       ({| r_status := 502;
           r_payload := RouteError "Failed to fetch genres from TMDB." |},
        w1))) /\
  (fetches (snd (trendingHandler w)) = (fetches w ++ [T])%list /\
   ((exists d w1, tmdbFetch (fst T) (snd T) w = (Val d, w1)) \/
    (exists w1, tmdbFetch (fst T) (snd T) w = (Throw, w1))) /\
   (forall d w1,
       tmdbFetch (fst T) (snd T) w = (Val d, w1) ->
       trendingHandler w =
       ({| r_status := 200; r_payload := RouteDocument d |}, w1)) /\
   (forall w1,
       tmdbFetch (fst T) (snd T) w = (Throw, w1) ->
       trendingHandler w =
       ({| r_status := 502;
           r_payload := RouteError "Failed to fetch trending movies." |},
        w1))).
Proof.
  cbv zeta. cbn [fst snd]. split.
  - unfold genresHandler.
    pose proof (tmdbFetch_fetches TMDB_API_KEY axios_get "/genre/movie/list"
                  [("language", VStr "en")] w) as Hf.
    destruct (tmdbFetch "/genre/movie/list" _ w) as [[data|r|] w1] eqn:E;
      cbn [fst snd] in *.
    + split; [exact Hf|]. split; [left; eauto|].
      split; [now intros d w2 [= <- <-] | intros w2 [=]].
    + now apply tmdbFetch_not_Return in E.
    + split; [exact Hf|]. split; [right; eauto|].
      split; [intros d w2 [=] | now intros w2 [= <-]].
  - unfold trendingHandler.
    pose proof (tmdbFetch_fetches TMDB_API_KEY axios_get "/trending/movie/week"
                  [] w) as Hf.
    destruct (tmdbFetch "/trending/movie/week" _ w) as [[data|r|] w1] eqn:E;
      cbn [fst snd] in *.
    + split; [exact Hf|]. split; [left; eauto|].
      split; [now intros d w2 [= <- <-] | intros w2 [=]].
    + now apply tmdbFetch_not_Return in E.
    + split; [exact Hf|]. split; [right; eauto|].
      split; [intros d w2 [=] | now intros w2 [= <-]].
Qed.

End RouteFacts.

(** ** The sweep is not seen *)

Lemma sweep_blind_ret {A} (a : A) : sweep_blind (ret a).
Proof. intros w. reflexivity. Qed.

Lemma sweep_blind_throw {A} : sweep_blind (@throw A).
Proof. intros w. reflexivity. Qed.

Lemma sweep_blind_return_if (b : bool) (r : response) :
  sweep_blind (return_if b r).
Proof. intros w. now destruct b. Qed.

Lemma sweep_blind_bind {A B} (m : M A) (k : A -> M B) :
  sweep_blind m -> (forall a, sweep_blind (k a)) -> sweep_blind (bind m k).
Proof.
  intros Hm Hk w. unfold bind. rewrite Hm.
  destruct (m w) as [[a|r|] w1]; cbn [fst snd];
    [apply Hk | reflexivity | reflexivity].
Qed.

Lemma sweep_blind_validate (req : request) : sweep_blind (validate req).
Proof.
  intros w. rewrite !validate_eq.
  change (year_bad req (cache_sweep w)) with (year_bad req w).
  destruct (no_criteria req), (year_bad req w), (page_bad req),
    (genre_bad req); reflexivity.
Qed.

Lemma sweep_blind_titleParams req page : sweep_blind (titleParams req page).
Proof.
  unfold titleParams, trim_query. apply sweep_blind_bind.
  - destruct (q_query req); [apply sweep_blind_ret | apply sweep_blind_throw].
  - intros q. apply sweep_blind_ret.
Qed.

Section SweepFacts.

Variable TMDB_API_KEY : string.
Variable axios_get : list call -> call -> option tmdb_doc.

Local Abbreviation tmdbFetch := (tmdbFetch TMDB_API_KEY axios_get).
Local Abbreviation resolveCast := (resolveCast TMDB_API_KEY axios_get).
Local Abbreviation resolveDirector := (resolveDirector TMDB_API_KEY axios_get).
Local Abbreviation fetchMovies := (fetchMovies TMDB_API_KEY axios_get).
Local Abbreviation search := (search TMDB_API_KEY axios_get).
Local Abbreviation handler := (handler TMDB_API_KEY axios_get).
Local Abbreviation net := (netCall TMDB_API_KEY).

Lemma sweep_blind_tmdbFetch path params :
  sweep_blind (tmdbFetch path params).
Proof.
  intros w.
  destruct (cache_get (cacheKey path params) w) as [d|] eqn:Eg.
  - rewrite (tmdbFetch_hit TMDB_API_KEY axios_get path params w d Eg).
    rewrite (tmdbFetch_hit TMDB_API_KEY axios_get path params
               (cache_sweep w) d); [reflexivity|].
    now rewrite cache_get_sweep.
  - rewrite (tmdbFetch_miss TMDB_API_KEY axios_get path params w Eg).
    rewrite (tmdbFetch_miss TMDB_API_KEY axios_get path params
               (cache_sweep w)) by now rewrite cache_get_sweep.
    change (netlog (cache_sweep w)) with (netlog w).
    destruct (axios_get (netlog w) (net path params)) as [data|];
      [|reflexivity].
    cbn [fst snd]. f_equal.
    unfold cache_set, cache_sweep, set_cache, log_net, log_fetch.
    cbn [cache now fullYear netlog fetches]. f_equal.
    symmetry. apply map_filter_insert_True. cbn [snd].
    rewrite negb_true_iff, Z.ltb_ge. unfold CACHE_TTL_SECONDS. lia.
Qed.

Lemma sweep_blind_resolveCast req page : sweep_blind (resolveCast req page).
Proof.
  unfold resolveCast.
  destruct (q_cast req) as [cast|]; [|apply sweep_blind_ret].
  destruct (truthyStr cast); [|apply sweep_blind_ret].
  apply sweep_blind_bind; [apply sweep_blind_return_if|]. intros _.
  apply sweep_blind_bind; [apply sweep_blind_tmdbFetch|]. intros d.
  apply sweep_blind_bind; [apply sweep_blind_return_if|]. intros _.
  apply sweep_blind_ret.
Qed.

Lemma sweep_blind_resolveDirector req page :
  sweep_blind (resolveDirector req page).
Proof.
  unfold resolveDirector.
  destruct (q_director req) as [director|]; [|apply sweep_blind_ret].
  destruct (truthyStr director); [|apply sweep_blind_ret].
  apply sweep_blind_bind; [apply sweep_blind_return_if|]. intros _.
  apply sweep_blind_bind; [apply sweep_blind_tmdbFetch|]. intros d.
  apply sweep_blind_bind; [apply sweep_blind_return_if|]. intros _.
  apply sweep_blind_ret.
Qed.

Lemma sweep_blind_fetchMovies req page castId directorId :
  sweep_blind (fetchMovies req page castId directorId).
Proof.
  unfold fetchMovies. destruct (negb _).
  - apply sweep_blind_bind; [apply sweep_blind_titleParams|].
    intros params. apply sweep_blind_tmdbFetch.
  - apply sweep_blind_bind; [apply sweep_blind_tmdbFetch|]. intros data.
    destruct (_ && _); [|apply sweep_blind_ret].
    apply sweep_blind_bind; [apply sweep_blind_titleParams|].
    intros params. apply sweep_blind_tmdbFetch.
Qed.

Lemma sweep_blind_search req : sweep_blind (search req).
Proof.
  unfold search.
  apply sweep_blind_bind; [apply sweep_blind_validate|]. intros pageNum.
  apply sweep_blind_bind; [apply sweep_blind_resolveCast|]. intros castId.
  apply sweep_blind_bind; [apply sweep_blind_resolveDirector|].
  intros directorId.
  apply sweep_blind_bind; [apply sweep_blind_fetchMovies|]. intros data.
  apply sweep_blind_ret.
Qed.

(** X17: the periodic sweep of the cache is not seen by a search: a
    search that runs after a sweep sends the same answer and issues the
    same network calls as without the sweep, and leaves the world that
    a sweep after the search would leave. *)
Theorem sweep_unobservable req w :
  handler req (cache_sweep w) =
  (fst (handler req w), cache_sweep (snd (handler req w))) /\
  netlog (snd (handler req (cache_sweep w))) = netlog (snd (handler req w)).
Proof.
  assert (H : handler req (cache_sweep w) =
              (fst (handler req w), cache_sweep (snd (handler req w)))).
  { unfold handler. rewrite sweep_blind_search.
    now destruct (search req w) as [[r|r|] w1]. }
  split; [exact H|]. now rewrite H.
Qed.

End SweepFacts.

(** ** The cache key, read back *)

(** X1: the cache key determines the request: two requests with the same
    key have the same path and the same parameters, name by name and
    value by value in the same order, provided the paths contain no
    vertical bar, as do all the paths the server fetches. *)
Theorem cache_key_determines_request (path1 path2 : string)
        (params1 params2 : object) :
  bar_free path1 = true -> bar_free path2 = true ->
  cacheKey path1 params1 = cacheKey path2 params2 ->
  path1 = path2 /\ params1 = params2.
Proof. apply cacheKey_inj. Qed.

(** ** The search of the front end *)

Lemma trimEnd_idem (s : string) : trimEnd (trimEnd s) = trimEnd s.
Proof.
  induction s as [|c r IH]; [reflexivity|].
  cbn [trimEnd]. destruct (trimEnd r) as [|c' t] eqn:E.
  - destruct (isWhiteSpace c) eqn:Ew; [reflexivity|].
    cbn [trimEnd]. now rewrite Ew.
  - cbn [trimEnd] in IH |- *. now rewrite IH.
Qed.

Lemma trimStart_head (s : string) :
  match trimStart s with
  | EmptyString => True
  | String c _ => isWhiteSpace c = false
  end.
Proof.
  induction s as [|c r IH]; [exact I|].
  cbn [trimStart]. destruct (isWhiteSpace c) eqn:E; [exact IH | exact E].
Qed.

Lemma trimStart_trim (s : string) : trimStart (trim s) = trim s.
Proof.
  unfold trim. pose proof (trimStart_head s) as H.
  destruct (trimStart s) as [|c r]; [reflexivity|].
  cbn [trimEnd]. destruct (trimEnd r); rewrite ?H; cbn [trimStart];
    now rewrite H.
Qed.

Lemma trim_idem (s : string) : trim (trim s) = trim s.
Proof.
  unfold trim at 1. rewrite trimStart_trim. unfold trim.
  apply trimEnd_idem.
Qed.

Module FrontendFacts.
Import Frontend.

Lemma hasQuery_spec (query : string) :
  hasQuery query = true <-> (2 <= String.length query)%nat.
Proof.
  unfold hasQuery, MIN_QUERY_LENGTH.
  rewrite andb_true_iff, Z.leb_le.
  destruct query as [|c r]; cbn [truthyStr String.length]; split.
  - now intros [? _].
  - lia.
  - intros [_ H]. lia.
  - intros H. split; [reflexivity | lia].
Qed.

Lemma hasQuery_truthy (query : string) :
  hasQuery query = true -> truthyStr query = true.
Proof. unfold hasQuery. now intros [H _]%andb_prop. Qed.

Lemma performSearch_request (query : string) (page : Z) (f : filters)
      (params : object) :
  performSearch query page f = Some params ->
  request_of params =
  {| q_query := if hasQuery query then Some query else None;
     q_year := present (Some (f_year f));
     q_genre := present (Some (f_genre f));
     q_cast := present (Some (f_cast f));
     q_director := present (Some (f_director f));
     q_page := Some (Number_toString page) |}.
Proof.
  unfold performSearch, hasFilters, set_if, assign, present.
  destruct (hasQuery query), (truthyStr (f_year f)),
    (truthyStr (f_genre f)), (truthyStr (f_cast f)),
    (truthyStr (f_director f)); cbn [negb andb orb];
    intros [= <-]; reflexivity.
Qed.

Lemma performSearch_criteria (query : string) (page : Z) (f : filters)
      (params : object) :
  performSearch query page f = Some params ->
  criteria_given (request_of params).
Proof.
  intros E. rewrite (performSearch_request _ _ _ _ E).
  assert (Hsome : hasQuery query = true \/ hasFilters f = true).
  { unfold performSearch in E.
    destruct (hasQuery query); [auto|].
    destruct (hasFilters f); [auto | discriminate]. }
  unfold criteria_given, present.
  cbn [q_query q_year q_genre q_cast q_director].
  destruct Hsome as [H|H].
  - left. rewrite H. cbn [truthy]. now apply hasQuery_truthy.
  - right. unfold hasFilters in H.
    destruct (truthyStr (f_year f)) eqn:E1; [left; exact E1|].
    destruct (truthyStr (f_genre f)) eqn:E2; [right; left; exact E2|].
    destruct (truthyStr (f_cast f)) eqn:E3;
      [right; right; left; exact E3|].
    destruct (truthyStr (f_director f)) eqn:E4;
      [right; right; right; exact E4 | discriminate].
Qed.

Lemma hasQuery_length (query : string) :
  hasQuery query = (2 <=? Z.of_nat (String.length query)).
Proof. now destruct query. Qed.

Lemma Number_toString_safe (n : Z) :
  Z.abs n < 2 ^ 53 -> Number_toString n = String_of_int n.
Proof.
  intros H. unfold Number_toString.
  assert (E : (Z.abs n <? 2 ^ 53) = true) by now apply Z.ltb_lt.
  now rewrite E.
Qed.

(** The parameter object of [performSearch], member by member. *)
Lemma performSearch_params (query : string) (page : Z) (f : filters) :
  let text := if 2 <=? Z.of_nat (String.length query)
              then Some query else None in
  let set (x : string) :=
    match x with EmptyString => None | String _ _ => Some x end in
  let member (k : string) (x : option string) : object :=
    match x with Some v => [(k, VStr v)] | None => [] end in
  performSearch query page f =
  match text, set (f_year f), set (f_genre f), set (f_cast f),
        set (f_director f) with
  | None, None, None, None, None => None
  | _, _, _, _, _ =>
      Some ([("page", VNum page)] ++ member "query" text ++
            member "year" (set (f_year f)) ++
            member "genre" (set (f_genre f)) ++
            member "cast" (set (f_cast f)) ++
            member "director" (set (f_director f)))%list
  end.
Proof.
  cbv zeta. unfold performSearch, hasFilters, set_if, assign.
  rewrite hasQuery_length.
  destruct f as [y g c d]. cbn [f_year f_genre f_cast f_director].
  destruct (2 <=? Z.of_nat (String.length query)), y, g, c, d; reflexivity.
Qed.

(** X18: the front end asks the search route only with a criterion:
    [performSearch] returns before any request exactly when the text is
    shorter than two characters and no filter is set; the request it
    sends otherwise carries the page, the text if it has two characters
    or more and each filter that is set, in this order and nothing else,
    which the backend reads as the same text and filters, and the
    backend does not answer it with the missing-criteria error. *)
Theorem performSearch_has_criteria (query : string) (page : Z) (f : filters) :
  let text := if 2 <=? Z.of_nat (String.length query)
              then Some query else None in
  let set (x : string) :=
    match x with EmptyString => None | String _ _ => Some x end in
  let member (k : string) (x : option string) : object :=
    match x with Some v => [(k, VStr v)] | None => [] end in
  (performSearch query page f = None <->
   (String.length query < 2)%nat /\
   f_year f = EmptyString /\ f_genre f = EmptyString /\
   f_cast f = EmptyString /\ f_director f = EmptyString) /\
  forall params,
    performSearch query page f = Some params ->
    params = ([("page", VNum page)] ++ member "query" text ++
              member "year" (set (f_year f)) ++
              member "genre" (set (f_genre f)) ++
              member "cast" (set (f_cast f)) ++
              member "director" (set (f_director f)))%list /\
    request_of params =
    {| q_query := text;
       q_year := set (f_year f);
       q_genre := set (f_genre f);
       q_cast := set (f_cast f);
       q_director := set (f_director f);
       q_page := Some (Number_toString page) |} /\
    (Z.abs page < 2 ^ 53 ->
     q_page (request_of params) = Some (String_of_int page)) /\
    criteria_given (request_of params) /\
    forall key axios_get w,
      fst (handler key axios_get (request_of params) w) <>
      {| status := 400;
         payload := ErrorBody
           "Provide at least one search parameter: query, year, genre, cast, or director." |}.
Proof.
  cbv zeta. split.
  - rewrite performSearch_params.
    destruct (2 <=? Z.of_nat (String.length query)) eqn:El.
    + apply Z.leb_le in El. split; [discriminate|]. intros [H _]. lia.
    + apply Z.leb_gt in El. destruct f as [y g c d].
      cbn [f_year f_genre f_cast f_director].
      destruct y; [|split; [discriminate|]; intros (_ & [=] & _)].
      destruct g; [|split; [discriminate|]; intros (_ & _ & [=] & _)].
      destruct c; [|split; [discriminate|]; intros (_ & _ & _ & [=] & _)].
      destruct d; [|split; [discriminate|]; intros (_ & _ & _ & _ & [=])].
      split; [intros _|reflexivity]. repeat split; lia.
  - intros params E.
    pose proof (performSearch_criteria _ _ _ _ E) as Hg.
    pose proof (performSearch_request _ _ _ _ E) as Hreq.
    assert (Hpar := performSearch_params query page f). cbv zeta in Hpar.
    rewrite E in Hpar.
    split; [|split; [|split; [|split; [exact Hg|]]]].
    + destruct (2 <=? Z.of_nat (String.length query)), (f_year f),
        (f_genre f), (f_cast f), (f_director f); congruence.
    + rewrite Hreq, hasQuery_length. unfold present.
      destruct (f_year f), (f_genre f), (f_cast f), (f_director f);
        reflexivity.
    + intros Hs. rewrite Hreq. cbn [q_page].
      now rewrite Number_toString_safe.
    + intros key axios_get w. now apply criteria_not_missing.
Qed.

(** X24: the load-more button asks for the page after the last one
    shown, with the text and the filters of the last search, and only
    while the last answer reported more pages; the backend accepts that
    page while the last page shown is below 500 and answers the page
    error after page 500, whatever number of pages the upstream
    reports. *)
Theorem load_more_page (state_query : string)
        (state_page state_totalPages : Z) (f : filters) (params : object) :
  Z.abs (state_page + 1) < 2 ^ 53 ->
  loadMore state_query state_page state_totalPages f = Some params ->
  let set (x : string) :=
    match x with EmptyString => None | String _ _ => Some x end in
  state_page < state_totalPages /\
  performSearch state_query (state_page + 1) f = Some params /\
  request_of params =
  {| q_query := if 2 <=? Z.of_nat (String.length state_query)
                then Some state_query else None;
     q_year := set (f_year f);
     q_genre := set (f_genre f);
     q_cast := set (f_cast f);
     q_director := set (f_director f);
     q_page := Some (String_of_int (state_page + 1)) |} /\
  criteria_given (request_of params) /\
  forall key axios_get w,
    year_ok (request_of params) w ->
    (1 <= state_page < 500 ->
     fst (handler key axios_get (request_of params) w) <>
     {| status := 400;
        payload := ErrorBody "page must be an integer between 1 and 500." |} /\
     requestedPage (request_of params) = state_page + 1) /\
    (state_page = 500 ->
     fst (handler key axios_get (request_of params) w) =
     {| status := 400;
        payload := ErrorBody "page must be an integer between 1 and 500." |}).
Proof.
  intros Hsafe. unfold loadMore.
  destruct (state_page <? state_totalPages) eqn:El;
    [|discriminate]. apply Z.ltb_lt in El. intros E. cbv zeta.
  change {| status := 400; payload := ErrorBody "page must be an integer between 1 and 500." |}
    with InvalidPage.
  split; [exact El|]. split; [exact E|].
  pose proof (performSearch_request _ _ _ _ E) as Hreq.
  pose proof (performSearch_criteria _ _ _ _ E) as Hg.
  rewrite (Number_toString_safe _ Hsafe) in Hreq.
  assert (Hp : q_page (request_of params) =
               Some (String_of_int (state_page + 1)))
    by now rewrite Hreq.
  split; [|split; [exact Hg|]].
  { rewrite Hreq, hasQuery_length. unfold present.
    destruct (f_year f), (f_genre f), (f_cast f), (f_director f);
      reflexivity. }
  intros key axios_get w Hy. split.
  - intros Hrange.
    assert (HN : integerValue (Number (String_of_int (state_page + 1))) =
                 Some (state_page + 1)) by (apply decimal_page; lia).
    split.
    + rewrite (handler_InvalidPage_iff key axios_get _ w Hg Hy), Hp.
      cbn [default from_option id].
      assert (page_rejected (String_of_int (state_page + 1)) = false);
        [|congruence].
      apply page_rejected_spec. exists (state_page + 1). split; [exact HN|lia].
    + unfold requestedPage, pageNum_of. rewrite Hp.
      cbn [default from_option id]. now rewrite HN.
  - intros ->.
    apply (handler_InvalidPage_iff key axios_get _ w Hg Hy). rewrite Hp.
    vm_compute. reflexivity.
Qed.

Lemma Number_toString_1 : Number_toString 1 = "1".
Proof. reflexivity. Qed.

(** X19: what typing in the search box leads to, no filter being set:
    a text of two characters or more after trimming is searched by
    title, the backend fetching the title search for the trimmed text
    on page 1 and nothing else; a text of one character does nothing;
    an empty or blank text shows the trending list. *)
Theorem typing_a_title (value : string) (f : filters) :
  hasFilters f = false ->
  ((2 <= String.length (trim value))%nat ->
   exists params,
     debouncedSearch value f = ApiSearch params /\
     forall key axios_get w,
       fetches (snd (handler key axios_get (request_of params) w)) =
       (fetches w ++ [titleCall (trim value) None 1])%list) /\
  (String.length (trim value) = 1%nat -> debouncedSearch value f = Nothing) /\
  (trim value = EmptyString -> debouncedSearch value f = ShowTrending).
Proof.
  intros Hf. unfold debouncedSearch, MIN_QUERY_LENGTH. rewrite Hf.
  cbn [orb negb andb]. split; [|split].
  - intros Hlen.
    assert (E : (2 <=? Z.of_nat (String.length (trim value))) = true)
      by (apply Z.leb_le; lia).
    rewrite E.
    assert (Hq : hasQuery (trim value) = true) by now apply hasQuery_spec.
    destruct (performSearch (trim value) 1 f) as [params|] eqn:Ep.
    2:{ unfold performSearch in Ep. rewrite Hq in Ep. discriminate Ep. }
    exists params. split; [reflexivity|]. intros key axios_get w.
    rewrite (performSearch_request _ _ _ _ Ep), Hq.
    unfold hasFilters in Hf.
    apply orb_false_elim in Hf as [Hf H4].
    apply orb_false_elim in Hf as [Hf H3].
    apply orb_false_elim in Hf as [H1 H2].
    unfold present. rewrite H1, H2, H3, H4, Number_toString_1.
    set (req := {| q_query := Some (trim value); q_year := None;
                   q_genre := None; q_cast := None; q_director := None;
                   q_page := Some "1" |}).
    assert (Ht : truthyStr (trim value) = true)
      by now apply hasQuery_truthy.
    assert (Hc : checks_pass req w).
    { split; [|split; [|split]].
      - left. exact Ht.
      - intros year [=].
      - vm_compute. reflexivity.
      - intros genre [=]. }
    assert (Hpage : requestedPage req = 1) by (vm_compute; reflexivity).
    rewrite (handler_resolved key axios_get req w w w None None Hc); cycle 1.
    { now apply resolveCast_absent. }
    { now apply resolveDirector_absent. }
    rewrite (fetchMovies_title key axios_get req w w None None (trim value) Hc);
      [|reflexivity|reflexivity].
    rewrite trim_idem, Hpage. cbn [q_year req].
    pose proof (tmdbFetch_fetches key axios_get "/search/movie"
                  (snd (titleCall (trim value) None 1)) w) as Hfe.
    destruct (tmdbFetch key axios_get "/search/movie" _ w) as [[d|r|] w1];
      exact Hfe.
  - intros Hlen. rewrite Hlen. reflexivity.
  - intros ->. reflexivity.
Qed.

End FrontendFacts.

(** ** Parameters that are supplied but empty *)

Section EmptyParameters.

Variable TMDB_API_KEY : string.
Variable axios_get : list call -> call -> option tmdb_doc.

Local Abbreviation handler := (handler TMDB_API_KEY axios_get).

(** X20: a parameter that is supplied but empty is not treated alike
    everywhere: an empty year is an invalid year and an empty genre an
    invalid genre, once the checks before them have passed, while an
    empty cast or director name is the same as none. *)
Theorem empty_parameters req w :
  (criteria_given req -> q_year req = Some EmptyString ->
   handler req w = (InvalidYear, w)) /\
  (criteria_given req -> year_ok req w -> page_ok req ->
   q_genre req = Some EmptyString ->
   handler req w = (InvalidGenre, w)) /\
  (q_cast req = Some EmptyString ->
   handler req w =
   handler {| q_query := q_query req; q_year := q_year req;
              q_genre := q_genre req; q_cast := None;
              q_director := q_director req; q_page := q_page req |} w) /\
  (q_director req = Some EmptyString ->
   handler req w =
   handler {| q_query := q_query req; q_year := q_year req;
              q_genre := q_genre req; q_cast := q_cast req;
              q_director := None; q_page := q_page req |} w).
Proof.
  split; [|split; [|split]].
  - intros Hg%criteria_given_iff Hy. apply handler_rejected.
    rewrite validate_eq, Hg. unfold year_bad. rewrite Hy. reflexivity.
  - intros Hg%criteria_given_iff Hy%year_ok_iff Hp Hgen.
    apply handler_rejected. unfold page_ok in Hp. fold (page_bad req) in Hp.
    rewrite validate_eq, Hg, Hy, Hp. unfold genre_bad. rewrite Hgen.
    reflexivity.
  - destruct req as [q y g c d p]. cbn [q_query q_year q_genre q_cast
      q_director q_page]. intros ->. reflexivity.
  - destruct req as [q y g c d p]. cbn [q_query q_year q_genre q_cast
      q_director q_page]. intros ->. reflexivity.
Qed.

End EmptyParameters.

(** ** The runtime shown by the front end *)

Lemma fmtRuntime_nonempty (min : Z) :
  min <> 0 -> Frontend.fmtRuntime min <> EmptyString.
Proof.
  intros H. unfold Frontend.fmtRuntime.
  apply Z.eqb_neq in H. rewrite H.
  destruct (String_of_int_head (min / 60)) as (c & r & -> & _).
  rewrite app_cons. discriminate.
Qed.

(** X21: the text of a runtime tells the runtime: two runtimes, none
    negative, that are shown with the same text are the same number of
    minutes; only the runtime 0 is shown as the empty text. *)
Theorem fmtRuntime_injective (a b : Z) :
  0 <= a -> 0 <= b ->
  Frontend.fmtRuntime a = Frontend.fmtRuntime b -> a = b.
Proof.
  intros Ha Hb E.
  destruct (Z.eq_dec a 0) as [->|Na], (Z.eq_dec b 0) as [->|Nb].
  - reflexivity.
  - symmetry in E. now apply fmtRuntime_nonempty in E.
  - now apply fmtRuntime_nonempty in E.
  - unfold Frontend.fmtRuntime in E.
    apply Z.eqb_neq in Na, Nb. rewrite Na, Nb in E. cbn zeta in E.
    apply (stringifyVal_inj_tail (VNum (a / 60)) (VNum (b / 60))) in E
      as [[= Hh] E]; [|reflexivity..].
    rewrite !app_cons, !app_nil in E. injection E as E.
    apply (stringifyVal_inj_tail (VNum (a mod 60)) (VNum (b mod 60))) in E
      as [[= Hm] _]; [|reflexivity..].
    rewrite (Z.div_mod a 60), (Z.div_mod b 60) by lia. congruence.
Qed.

(** ** The further properties at work on sample requests *)

Lemma Forall_forwardb (evs : list event) :
  forallb forwardb evs = true -> Forall forward evs.
Proof.
  induction evs as [|e evs IH]; [constructor|].
  cbn [forallb]. intros [He H]%andb_prop. constructor; [|now apply IH].
  destruct e; cbn in *; [lia|exact I..].
Qed.

Lemma bounded_empty (w : world) : cache w = ∅ -> bounded w.
Proof. intros E k d e. rewrite E, lookup_empty. discriminate. Qed.

Lemma genuine_empty key axios_get (w : world) :
  cache w = ∅ -> genuine key axios_get w.
Proof. intros E k d e. rewrite E, lookup_empty. discriminate. Qed.

Module WitnessMore.
Import Sample SampleMore.



(** The key of a title search is the key of that search only. *)
Lemma cache_key_witness :
  cacheKey "/search/movie" [("query", VStr "batman"); ("page", VNum 1)] =
  cacheKey "/search/movie" [("query", VStr "batman"); ("page", VNum 1)] /\
  "/search/movie" = "/search/movie" /\
  [("query", VStr "batman"); ("page", VNum 1)] =
  [("query", VStr "batman"); ("page", VNum 1)].
Proof.
  split; [reflexivity|].
  apply (cache_key_determines_request
           "/search/movie" "/search/movie"
           [("query", VStr "batman"); ("page", VNum 1)]
           [("query", VStr "batman"); ("page", VNum 1)]);
    reflexivity.
Defined.

(** Page 500 of a title search is accepted. *)
Lemma page_bounds_witness :
  let req := with_page "500" (with_query "batman" req0) in
  criteria_given req /\ year_ok req w0 /\
  fst (handler "KEY" upstream req w0) <> InvalidPage /\
  requestedPage req = 500.
Proof.
  intros req.
  assert (Hg : criteria_given req) by (left; reflexivity).
  assert (Hy : year_ok req w0) by (intros year H; discriminate H).
  split; [exact Hg|]. split; [exact Hy|].
  destruct (page_bounds "KEY" upstream req w0 Hg Hy) as (_ & _ & H).
  apply (H 500); [lia | reflexivity].
Defined.


(** Ten minutes and a millisecond after the traffic the trending list
    is fetched from the upstream again. *)
Lemma entries_expire_witness :
  let w := run_events "KEY" upstream status_404 traffic w0 in
  bounded w0 /\ Forall forward traffic /\
  cache_get (cacheKey "/trending/movie/week" []) (elapse 600001 w) = None.
Proof.
  intros w.
  assert (Hb : bounded w0) by (apply bounded_empty; reflexivity).
  assert (Hf : Forall forward traffic)
    by (apply Forall_forwardb; reflexivity).
  split; [exact Hb|]. split; [exact Hf|].
  destruct (entries_expire "KEY" upstream status_404 traffic w0 Hb Hf)
    as [_ H].
  apply (H 600001 "/trending/movie/week" []). reflexivity.
Defined.

(** The trending list served after the traffic is what the upstream
    answered to the trending call. *)
Lemma genuine_witness :
  let w := run_events "KEY" upstream status_404 traffic w0 in
  let w2 := snd (tmdbFetch "KEY" upstream "/trending/movie/week" [] w) in
  genuine "KEY" upstream w0 /\ Forall forward traffic /\
  tmdbFetch "KEY" upstream "/trending/movie/week" [] w =
  (Val MOVIE_LIST, w2) /\
  exists before after,
    netlog w2 =
    (before ++ netCall "KEY" "/trending/movie/week" [] :: after)%list /\
    upstream before (netCall "KEY" "/trending/movie/week" []) =
    Some MOVIE_LIST.
Proof.
  intros w w2.
  assert (Hg : genuine "KEY" upstream w0)
    by (apply genuine_empty; reflexivity).
  assert (Hf : Forall forward traffic)
    by (apply Forall_forwardb; reflexivity).
  assert (E : tmdbFetch "KEY" upstream "/trending/movie/week" [] w =
              (Val MOVIE_LIST, w2)) by (vm_compute; reflexivity).
  split; [exact Hg|]. split; [exact Hf|]. split; [exact E|].
  exact (proj2 (fetched_document_genuine "KEY" upstream status_404 traffic
                  w0 "/trending/movie/week" [] MOVIE_LIST w2 Hg Hf
                  eq_refl E)).
Defined.

(** With the upstream down the trending fetch fails twice, with two
    calls. *)
Lemma failure_witness :
  let w1 := snd (tmdbFetch "KEY" upstream_down "/trending/movie/week" []
                   w0) in
  cache_get (cacheKey "/trending/movie/week" []) w0 = None /\
  upstream_down (netlog w0) (netCall "KEY" "/trending/movie/week" []) = None /\
  cache w1 = cache w0 /\
  netlog (snd (tmdbFetch "KEY" upstream_down "/trending/movie/week" []
                 (elapse 5 w1))) =
  (netlog w1 ++ [netCall "KEY" "/trending/movie/week" []])%list.
Proof.
  intros w1.
  assert (Hg : cache_get (cacheKey "/trending/movie/week" []) w0 = None)
    by reflexivity.
  assert (Ha : upstream_down (netlog w0)
                 (netCall "KEY" "/trending/movie/week" []) = None)
    by reflexivity.
  split; [exact Hg|]. split; [exact Ha|].
  destruct (failure_not_cached "KEY" upstream_down "/trending/movie/week" []
              w0 Hg Ha) as (_ & Hc & _ & Hretry).
  split; [exact Hc|]. apply Hretry. lia.
Defined.

(** Fetching the second page leaves the entry of the first page alone. *)
Lemma own_entry_witness :
  let p1 := snd (titleCall "batman" None 1) in
  let p2 := snd (titleCall "batman" None 2) in
  let w := snd (tmdbFetch "KEY" upstream "/search/movie" p1 w0) in
  ("/search/movie", p1) <> ("/search/movie", p2) /\
  cache (snd (tmdbFetch "KEY" upstream "/search/movie" p2 w))
    !! cacheKey "/search/movie" p1 =
  cache w !! cacheKey "/search/movie" p1.
Proof.
  intros p1 p2 w.
  assert (Hne : ("/search/movie", p1) <> ("/search/movie", p2))
    by discriminate.
  split; [exact Hne|].
  exact (fetch_touches_own_entry "KEY" upstream "/search/movie" p2
           "/search/movie" p1 w eq_refl eq_refl Hne).
Defined.

(** A search by cast hands the id of Christopher Nolan to discovery. *)
Lemma cast_resolved_witness :
  let req := with_cast " Christopher Nolan " req0 in
  let P := personCall "Christopher Nolan" in
  let w1 := snd (tmdbFetch "KEY" upstream_discover (fst P) (snd P) w0) in
  checks_pass req w0 /\
  tmdbFetch "KEY" upstream_discover (fst P) (snd P) w0 =
  (Val PERSON_RESULTS, w1) /\
  exists more,
    fetches (snd (handler "KEY" upstream_discover req w0)) =
    (fetches w0 ++
     P :: discoverCall None None None (Some "525") None 1 :: more)%list.
Proof.
  intros req P w1.
  assert (Hc : checks_pass req w0)
    by (apply Witness.checks_pass_sample; vm_compute; reflexivity).
  assert (Hp : present (q_cast req) = Some " Christopher Nolan "%string)
    by reflexivity.
  assert (Hl : (String.length (trim " Christopher Nolan ") <= 100)%nat)
    by (vm_compute; lia).
  assert (Hd : present (q_director req) = None) by reflexivity.
  assert (Ef : tmdbFetch "KEY" upstream_discover
                 (fst (personCall (trim " Christopher Nolan ")))
                 (snd (personCall (trim " Christopher Nolan "))) w0 =
               (Val PERSON_RESULTS, w1)) by (vm_compute; reflexivity).
  assert (Hr : results PERSON_RESULTS =
               Some ({| item_id := 525; item_rest := "Christopher Nolan" |}
                       :: [])) by reflexivity.
  assert (Hid : item_id {| item_id := 525;
                           item_rest := "Christopher Nolan" |} <> 0)
    by discriminate.
  split; [exact Hc|]. split; [exact Ef|].
  destruct (cast_resolved_to_first_result "KEY" upstream_discover req w0
              " Christopher Nolan " PERSON_RESULTS w1 _ _
              Hc Hp Hl Hd Ef Hr Hid) as (more & Hlog & _).
  exists more. exact Hlog.
Defined.

(** A search by cast and director looks up the two names in turn. *)
Lemma names_in_order_witness :
  let req := with_director "Nolan" (with_cast "Michael Caine" req0) in
  checks_pass req w0 /\
  exists more,
    fetches (snd (handler "KEY" upstream_discover req w0)) =
    (fetches w0 ++
     personCall "Michael Caine" :: personCall "Nolan" ::
     discoverCall None None None (Some "525") (Some "525") 1 :: more)%list.
Proof.
  intros req.
  set (w1 := snd (tmdbFetch "KEY" upstream_discover
                    (fst (personCall "Michael Caine"))
                    (snd (personCall "Michael Caine")) w0)).
  set (w2 := snd (tmdbFetch "KEY" upstream_discover
                    (fst (personCall "Nolan"))
                    (snd (personCall "Nolan")) w1)).
  assert (Hc : checks_pass req w0)
    by (apply Witness.checks_pass_sample; vm_compute; reflexivity).
  assert (Hpc : present (q_cast req) = Some "Michael Caine"%string)
    by reflexivity.
  assert (Hlc : (String.length (trim "Michael Caine") <= 100)%nat)
    by (vm_compute; lia).
  assert (Hpd : present (q_director req) = Some "Nolan"%string)
    by reflexivity.
  assert (Hld : (String.length (trim "Nolan") <= 100)%nat)
    by (vm_compute; lia).
  assert (Efc : tmdbFetch "KEY" upstream_discover
                  (fst (personCall (trim "Michael Caine")))
                  (snd (personCall (trim "Michael Caine"))) w0 =
                (Val PERSON_RESULTS, w1)) by (vm_compute; reflexivity).
  assert (Efd : tmdbFetch "KEY" upstream_discover
                  (fst (personCall (trim "Nolan")))
                  (snd (personCall (trim "Nolan"))) w1 =
                (Val PERSON_RESULTS, w2)) by (vm_compute; reflexivity).
  assert (Hr : results PERSON_RESULTS =
               Some ({| item_id := 525; item_rest := "Christopher Nolan" |}
                       :: [])) by reflexivity.
  assert (Hid : item_id {| item_id := 525;
                           item_rest := "Christopher Nolan" |} <> 0)
    by discriminate.
  split; [exact Hc|].
  destruct (names_resolved_in_order "KEY" upstream_discover req w0
              "Michael Caine" "Nolan" PERSON_RESULTS PERSON_RESULTS w1 w2
              _ _ _ _ Hc Hpc Hlc Hpd Hld Efc Hr Hid Efd Hr Hid)
    as (more & Hlog & _).
  exists more. exact Hlog.
Defined.

(** A cast name of two blanks is looked up as the empty name. *)
Lemma blank_name_witness :
  let req := with_cast "  " req0 in
  checks_pass req w0 /\ onlyWhiteSpace "  " = true /\
  exists more,
    fetches (snd (handler "KEY" upstream req w0)) =
    (fetches w0 ++ personCall EmptyString :: more)%list.
Proof.
  intros req.
  assert (Hc : checks_pass req w0)
    by (apply Witness.checks_pass_sample; vm_compute; reflexivity).
  assert (Hp : present (q_cast req) = Some "  "%string) by reflexivity.
  assert (Hb : onlyWhiteSpace "  " = true) by reflexivity.
  split; [exact Hc|]. split; [exact Hb|].
  exact (blank_cast_name "KEY" upstream req w0 "  " Hc Hp Hb).
Defined.

(** A search by cast whose person has the id 0 ends with 502. *)
Lemma zero_id_witness :
  let req := with_cast "Nobody" req0 in
  let P := personCall "Nobody" in
  let w1 := snd (tmdbFetch "KEY" upstream_zero (fst P) (snd P) w0) in
  checks_pass req w0 /\
  tmdbFetch "KEY" upstream_zero (fst P) (snd P) w0 = (Val PERSON_ZERO, w1) /\
  handler "KEY" upstream_zero req w0 = (UpstreamFailure, w1).
Proof.
  intros req P w1.
  assert (Hc : checks_pass req w0)
    by (apply Witness.checks_pass_sample; vm_compute; reflexivity).
  assert (Hp : present (q_cast req) = Some "Nobody"%string) by reflexivity.
  assert (Hl : (String.length (trim "Nobody") <= 100)%nat)
    by (vm_compute; lia).
  assert (Hd : present (q_director req) = None) by reflexivity.
  assert (Ef : tmdbFetch "KEY" upstream_zero
                 (fst (personCall (trim "Nobody")))
                 (snd (personCall (trim "Nobody"))) w0 =
               (Val PERSON_ZERO, w1)) by (vm_compute; reflexivity).
  assert (Hr : results PERSON_ZERO =
               Some ({| item_id := 0; item_rest := "Nobody" |} :: []))
    by reflexivity.
  split; [exact Hc|]. split; [exact Ef|].
  exact (proj1 (zero_id_is_no_filter "KEY" upstream_zero req w0 "Nobody"
                  PERSON_ZERO w1 _ _ Hc eq_refl eq_refl eq_refl Hd Hp Hl Ef
                  Hr eq_refl)).
Defined.

(** The front end sends a title of two letters and the year filter,
    with the page, and sends nothing for one letter and no filter. *)
Lemma performSearch_witness :
  let f := {| Frontend.f_year := "1999"; Frontend.f_genre := EmptyString;
              Frontend.f_cast := EmptyString;
              Frontend.f_director := EmptyString |} in
  let params := [("page", VNum 2); ("query", VStr "in");
                 ("year", VStr "1999")] in
  Frontend.performSearch "in" 2 f = Some params /\
  Frontend.request_of params =
  {| q_query := Some "in"; q_year := Some "1999"; q_genre := None;
     q_cast := None; q_director := None; q_page := Some "2" |} /\
  Frontend.performSearch "i" 2 no_filters = None.
Proof.
  intros f params.
  assert (E : Frontend.performSearch "in" 2 f = Some params) by reflexivity.
  split; [exact E|].
  destruct (FrontendFacts.performSearch_has_criteria "in" 2 f)
    as (_ & H).
  destruct (H params E) as (_ & Hreq & _).
  split; [exact Hreq|].
  apply (FrontendFacts.performSearch_has_criteria "i" 2 no_filters).
  repeat split. cbn. lia.
Defined.

(** After the first of three pages the button asks for the second, with
    the text and the genre of the first. *)
Lemma load_more_witness :
  let f := {| Frontend.f_year := EmptyString; Frontend.f_genre := "28";
              Frontend.f_cast := EmptyString;
              Frontend.f_director := EmptyString |} in
  let params := [("page", VNum 2); ("query", VStr "batman");
                 ("genre", VStr "28")] in
  Frontend.loadMore "batman" 1 3 f = Some params /\
  Frontend.request_of params =
  {| q_query := Some "batman"; q_year := None; q_genre := Some "28";
     q_cast := None; q_director := None; q_page := Some "2" |} /\
  fst (handler "KEY" upstream (Frontend.request_of params) w0)
  <> InvalidPage.
Proof.
  intros f params.
  assert (E : Frontend.loadMore "batman" 1 3 f = Some params)
    by reflexivity.
  assert (Hs : Z.abs (1 + 1) < 2 ^ 53) by (vm_compute; reflexivity).
  split; [exact E|].
  destruct (FrontendFacts.load_more_page "batman" 1 3 f params Hs E)
    as (_ & _ & Hreq & _ & H).
  split; [exact Hreq|].
  assert (Hy : year_ok (Frontend.request_of params) w0)
    by (intros year Hyear; discriminate Hyear).
  destruct (H "KEY" upstream w0 Hy) as [Hok _].
  apply Hok. lia.
Defined.

(** The movie id 2^55 is fetched under the digits that JavaScript
    prints for it. *)
Lemma movie_id_witness :
  let id := "36028797018963968"%string in
  integerValue (Number id) = Some (2 ^ 55) /\
  fetches (snd (movieHandler "KEY" upstream (fun _ _ => None) id w0)) =
  [("/movie/36028797018963970"%string,
    [("append_to_response"%string,
      VStr "credits,videos,images,recommendations,reviews")])].
Proof.
  intros id.
  assert (E : integerValue (Number id) = Some (2 ^ 55))
    by (vm_compute; reflexivity).
  split; [exact E|].
  destruct (movie_id_check "KEY" upstream (fun _ _ => None) id w0)
    as (_ & _ & H).
  assert (Hn : 0 < 2 ^ 55) by (vm_compute; reflexivity).
  destruct (H (2 ^ 55) E Hn) as (_ & Hf & _).
  etransitivity; [exact Hf|]. vm_compute. reflexivity.
Defined.

(** Typing a title with blanks around it searches for the title. *)
Lemma typing_witness :
  Frontend.hasFilters no_filters = false /\
  exists params,
    Frontend.debouncedSearch " inception " no_filters =
    Frontend.ApiSearch params /\
    forall key axios_get w,
      fetches (snd (handler key axios_get (Frontend.request_of params) w)) =
      (fetches w ++ [titleCall (trim " inception ") None 1])%list.
Proof.
  assert (Hf : Frontend.hasFilters no_filters = false) by reflexivity.
  split; [exact Hf|].
  destruct (FrontendFacts.typing_a_title " inception " no_filters Hf)
    as (H & _ & _).
  apply H. vm_compute. lia.
Defined.

(** 135 minutes are shown as what 135 minutes are shown as, and as
    nothing else. *)
Lemma fmtRuntime_witness :
  Frontend.fmtRuntime 135 = "2h 15m" /\ 135 = 135.
Proof.
  split; [reflexivity|].
  apply (fmtRuntime_injective 135 135); [lia | lia | reflexivity].
Defined.

End WitnessMore.
